(** * Guymer/gft: parameter sweeps, result-file conventions and rasterisation

    A shallow embedding of the three Python sources of the repository
    ([complexity.py], [ripples_flight.py] and [gft/saveAllLands.py]) together
    with the properties their specification states about them.

    Conventions of the embedding:
    - Python [int] is [Z]; [//] is [Z.div] and [%] is [Z.modulo] (both floor,
      as in Python); a [numpy.uint64] cell is a [Z] reduced modulo [2^64].
    - Python [float] is the kernel's binary64 [float]; the decimal renderings
      of the format mini-language ([.1f], [+011.6f], [.2e], ...) are computed
      from the exact dyadic value of the float, rounding half to even, which
      is what CPython's correctly rounded conversion prints.
    - The file system is a finite map from path strings to file contents.
    - Calls into third-party libraries (shapely, cartopy, matplotlib, PIL,
      pyguymer3, gst, subprocess) are either recorded as events of a trace or
      taken as parameters of a section; they are assumed to return normally.
      Exceptions raised by the scripts' own indexing and parsing are modelled
      ([None], or an [Aborted] outcome). *)

From Stdlib Require Import ZArith Lia Ascii Floats.
From stdpp Require Import base tactics option list sorting strings pretty gmap.

Local Open Scope Z_scope.

(** The decimal literals of the scripts stand for the nearest binary64, as
    they do in Python. *)
Set Warnings "-inexact-float".

(** ** Python text and number formatting *)

Module Py.

Fixpoint str_repeat (c : ascii) (n : nat) : string :=
  match n with
  | O => ""
  | S n => String c (str_repeat c n)
  end.

(** [str.rjust]: pad on the left up to [width] characters. *)
Definition rjust (fill : ascii) (width : nat) (s : string) : string :=
  str_repeat fill (width - String.length s) +:+ s.

(** The [0] flag of the format mini-language: the zeros go between the
    sign and the digits, and the sign counts towards the width. *)
Definition zero_pad (width : nat) (sign body : string) : string :=
  sign +:+ rjust "0" (width - String.length sign) body.

Fixpoint join (sep : string) (l : list string) : string :=
  match l with
  | [] => ""
  | [s] => s
  | s :: l => s +:+ sep +:+ join sep l
  end.

(** The [,] option: a comma between groups of three digits, counted from
    the right. [group3_rev] works on the reversed digit list. *)
Fixpoint group3_rev (l : list ascii) (n : nat) : list ascii :=
  match l with
  | [] => []
  | c :: l' =>
      match n with
      | O => "," %char :: c :: group3_rev l' 2
      | S n' => c :: group3_rev l' n'
      end
  end.

Definition group3 (digits : string) : string :=
  String.string_of_list_ascii
    (rev (group3_rev (rev (String.list_ascii_of_string digits)) 3)).

(** [f"{z:d}"] *)
Definition format_d (z : Z) : string := pretty z.

Definition sign_of (z : Z) : string := if z <? 0 then "-" else "".

(** [f"{z:0{width}d}"], e.g. [:06d] *)
Definition format_0d (width : nat) (z : Z) : string :=
  zero_pad width (sign_of z) (pretty (Z.abs z)).

(** [f"{z:{width},d}"], e.g. [:6,d] and [:,d] (right aligned, as numbers
    are by default). *)
Definition format_comma_d (width : nat) (z : Z) : string :=
  rjust " " width (sign_of z +:+ group3 (pretty (Z.abs z))).

(** [float(z)]: the integer rounded to the nearest binary64, ties to
    even. *)
Definition float_of_Z (z : Z) : float :=
  SF2Prim (binary_normalize prec emax z 0 false).

(** Round [n / d] to the nearest integer, ties to even ([0 <= n], [0 < d]). *)
Definition rne_div (n d : Z) : Z :=
  let q := n / d in
  let r := n mod d in
  match 2 * r ?= d with
  | Lt => q
  | Gt => q + 1
  | Eq => if Z.even q then q else q + 1
  end.

(** A finite non-zero binary64 has magnitude [m * 2^e], that is
    [mag_num m e / mag_den e]. *)
Definition mag_num (m : positive) (e : Z) : Z := Z.pos m * 2 ^ Z.max e 0.
Definition mag_den (e : Z) : Z := 2 ^ Z.max (- e) 0.

(** Flags, width and precision of a format specification such as
    [+011.6f] or [,.2f]. *)
Record fmt := Fmt {
  plus : bool;
  zero : bool;
  width : nat;
  comma : bool;
  precision : nat;
}.

Definition fixed_digits (p : nat) (grouped : bool) (scaled : Z) : string :=
  let k := 10 ^ Z.of_nat p in
  let ip := pretty (scaled / k) in
  let ip := if grouped then group3 ip else ip in
  match p with
  | O => ip
  | _ => ip +:+ "." +:+ rjust "0" p (pretty (scaled mod k))
  end.

Definition sign_text (f : fmt) (s : bool) : string :=
  if s then "-" else if plus f then "+" else "".

Definition layout (f : fmt) (sign body : string) : string :=
  if zero f then zero_pad (width f) sign body
  else rjust " " (width f) (sign +:+ body).

(** [f"{x:...f}"]: fixed-point presentation. *)
Definition format_f (f : fmt) (x : float) : string :=
  match Prim2SF x with
  | S754_nan => layout f (sign_text f false) "nan"
  | S754_infinity s => layout f (sign_text f s) "inf"
  | S754_zero s =>
      layout f (sign_text f s) (fixed_digits (precision f) (comma f) 0)
  | S754_finite s m e =>
      layout f (sign_text f s)
        (fixed_digits (precision f) (comma f)
           (rne_div (mag_num m e * 10 ^ Z.of_nat (precision f)) (mag_den e)))
  end.

(** The decimal exponent [E] with [10^E <= num/den < 10^(E+1)]. *)
Fixpoint dec_exp_below (fuel : nat) (num den k : Z) : Z :=
  match fuel with
  | O => - k
  | S fuel =>
      if den <=? num * 10 ^ k then - k
      else dec_exp_below fuel num den (k + 1)
  end.

Definition dec_exponent (num den : Z) : Z :=
  if den <=? num then Z.of_nat (String.length (pretty (num / den))) - 1
  else dec_exp_below 400 num den 1.

Definition sci_round (p : Z) (num den E : Z) : Z :=
  if 0 <=? p - E then rne_div (num * 10 ^ (p - E)) den
  else rne_div num (den * 10 ^ (E - p)).

Definition sci_parts (p : nat) (num den : Z) : Z * Z :=
  let E := dec_exponent num den in
  let sig := sci_round (Z.of_nat p) num den E in
  if sig =? 10 ^ (Z.of_nat p + 1) then (10 ^ Z.of_nat p, E + 1) else (sig, E).

Definition sci_text (p : nat) (sig E : Z) : string :=
  let k := 10 ^ Z.of_nat p in
  let mant :=
    match p with
    | O => pretty (sig / k)
    | _ => pretty (sig / k) +:+ "." +:+ rjust "0" p (pretty (sig mod k))
    end in
  mant +:+ "e" +:+ (if E <? 0 then "-" else "+") +:+ rjust "0" 2 (pretty (Z.abs E)).

(** [f"{x:...e}"]: scientific presentation. *)
Definition format_e (f : fmt) (x : float) : string :=
  match Prim2SF x with
  | S754_nan => layout f (sign_text f false) "nan"
  | S754_infinity s => layout f (sign_text f s) "inf"
  | S754_zero s => layout f (sign_text f s) (sci_text (precision f) 0 0)
  | S754_finite s m e =>
      let '(sig, E) := sci_parts (precision f) (mag_num m e) (mag_den e) in
      layout f (sign_text f s) (sci_text (precision f) sig E)
  end.

(** The specifications the scripts use. *)
Definition f1 : fmt := Fmt false false 0 false 1.          (* .1f *)
Definition f2 : fmt := Fmt false false 0 false 2.          (* .2f *)
Definition f5_2 : fmt := Fmt false false 5 false 2.        (* 5.2f *)
Definition plus_f6 : fmt := Fmt true false 0 false 6.      (* +.6f *)
Definition plus_011_f6 : fmt := Fmt true true 11 false 6.  (* +011.6f *)
Definition plus_010_f6 : fmt := Fmt true true 10 false 6.  (* +010.6f *)
Definition zero_012_f7 : fmt := Fmt false true 12 false 7. (* 012.7f *)
Definition comma_f2 : fmt := Fmt false false 0 true 2.     (* ,.2f *)
Definition comma_f4 : fmt := Fmt false false 0 true 4.     (* ,.4f *)
Definition e2 : fmt := Fmt false false 0 false 2.          (* .2e *)

End Py.

(** ** Strings, paths and the file system *)

Module Str.

Definition chars (s : string) : list ascii := String.list_ascii_of_string s.
Definition text (l : list ascii) : string := String.string_of_list_ascii l.

Definition eqb_char (a b : ascii) : bool := Ascii.eqb a b.

(** [s.split(sep)] for a one-character separator: always at least one
    piece. [cur] is the current piece, reversed. *)
Fixpoint split_go (sep : ascii) (l cur : list ascii) : list string :=
  match l with
  | [] => [text (rev cur)]
  | c :: l' =>
      if eqb_char c sep then text (rev cur) :: split_go sep l' []
      else split_go sep l' (c :: cur)
  end.

Definition split (sep : ascii) (s : string) : list string :=
  split_go sep (chars s) [].

(** [s.removesuffix(suffix)] *)
Definition removesuffix (suffix s : string) : string :=
  let ls := chars s in
  let lx := chars suffix in
  let n := (length ls - length lx)%nat in
  if bool_decide (lx ≠ [] ∧ (length lx ≤ length ls)%nat ∧ drop n ls = lx)
  then text (take n ls) else s.

Definition is_digit (c : ascii) : bool :=
  let n := N_of_ascii c in ((48 <=? n) && (n <=? 57))%N.

Definition digit_val (c : ascii) : Z := Z.of_N (N_of_ascii c) - 48.

(** The characters [int()] strips from both ends of an ASCII string. *)
Definition is_space (c : ascii) : bool :=
  let n := N_of_ascii c in (((9 <=? n) && (n <=? 13)) || ((28 <=? n) && (n <=? 32)))%N.

Fixpoint lstrip (l : list ascii) : list ascii :=
  match l with
  | c :: l' => if is_space c then lstrip l' else l
  | [] => []
  end.

Definition strip (l : list ascii) : list ascii := rev (lstrip (rev (lstrip l))).

(** Decimal digits with single underscores allowed between digits. *)
Fixpoint parse_digits (l : list ascii) (acc : Z) (after_digit : bool) : option Z :=
  match l with
  | [] => if after_digit then Some acc else None
  | c :: l' =>
      if is_digit c then parse_digits l' (10 * acc + digit_val c) true
      else if eqb_char c "_" then
        (if after_digit then parse_digits l' acc false else None)
      else None
  end.

(** [int(s)] in base ten on an ASCII string; [None] is [ValueError]. *)
Definition py_int (s : string) : option Z :=
  match strip (chars s) with
  | c :: l =>
      if eqb_char c "-" then Z.opp <$> parse_digits l 0 false
      else if eqb_char c "+" then parse_digits l 0 false
      else parse_digits (c :: l) 0 false
  | [] => None
  end.

End Str.

Module OsPath.

Definition slash : ascii := "/".

(** The path cut after its last slash: (head with the slash, tail), both
    computed on the reversed character list. *)
Fixpoint cut_rev (l tail : list ascii) : list ascii * list ascii :=
  match l with
  | [] => ([], tail)
  | c :: l' =>
      if Str.eqb_char c slash then (rev l, tail) else cut_rev l' (c :: tail)
  end.

Definition cut (p : string) : list ascii * list ascii :=
  cut_rev (rev (Str.chars p)) [].

(** [os.path.basename] *)
Definition basename (p : string) : string := Str.text (cut p).2.

Fixpoint rstrip_slash_rev (l : list ascii) : list ascii :=
  match l with
  | c :: l' => if Str.eqb_char c slash then rstrip_slash_rev l' else l
  | [] => []
  end.

(** [os.path.dirname]: the head, without its trailing slashes unless it
    consists of slashes only. *)
Definition dirname (p : string) : string :=
  let head := (cut p).1 in
  match rstrip_slash_rev (rev head) with
  | [] => Str.text head
  | l => Str.text (rev l)
  end.

(** [fnmatch] for the patterns of this repository: [?] stands for any
    one character, every other character for itself. *)
Fixpoint fnmatch (name pat : list ascii) : bool :=
  match name, pat with
  | [], [] => true
  | c :: name', q :: pat' =>
      (Str.eqb_char q "?" || Str.eqb_char c q) && fnmatch name' pat'
  | _, _ => false
  end.

Definition is_hidden (name : list ascii) : bool :=
  match name with
  | c :: _ => Str.eqb_char c "."
  | [] => false
  end.

(** Does path [p] name an entry of directory [dir] that
    [glob.glob(f"{dir}/{pat}")] returns? The entry's name holds no slash,
    is not hidden (the patterns do not start with a dot) and matches
    [pat]; [dir] itself is taken literally. *)
Definition glob_match (dir pat p : string) : bool :=
  let prefix := Str.chars (dir +:+ "/") in
  let l := Str.chars p in
  bool_decide (take (length prefix) l = prefix)
  && (let name := drop (length prefix) l in
      bool_decide (slash ∉ name) && negb (is_hidden name)
      && fnmatch name (Str.chars pat)).

End OsPath.

(** The file system: each existing path is a directory or a file with its
    contents. *)
Inductive node (data : Type) :=
  | Dir
  | File (d : data).
Arguments Dir {data}.
Arguments File {data} d.

Module Fs.
Section fs.
Context {data : Type}.

(** [os.path.exists] *)
Definition exists_ (fs : gmap string (node data)) (p : string) : bool :=
  bool_decide (is_Some (fs !! p)).

(** [sorted(glob.glob(f"{dir}/{pat}"))] *)
Definition sorted_glob (fs : gmap string (node data)) (dir pat : string) : list string :=
  merge_sort String.le
    (filter (λ p, OsPath.glob_match dir pat p = true) (elements (dom fs))).

Definition read (fs : gmap string (node data)) (p : string) : option data :=
  match fs !! p with
  | Some (File d) => Some d
  | _ => None
  end.
End fs.
End Fs.

(** ** Effects of a script run *)

(** What a script does to the outside world, in order. Reading, writing and
    moving refer to paths of the file system; the other events are calls
    whose results the scripts do not inspect. *)
Inductive event :=
  | EvPrint (msg : string)
  | EvRun (cmd : list string)
  | EvMkdir (path : string)
  | EvRead (path : string)
  | EvWrite (path : string)
  | EvOptimise (path : string)
  | EvImages2mp4 (frames : list string) (screen : option Z)
  | EvMove (src dst : string).

Global Instance event_eq_dec : EqDecision event.
Proof. solve_decision. Defined.

Record world (data : Type) := World {
  files : gmap string (node data);
  trace : list event;
}.
Arguments World {data} files trace.
Arguments files {data} w.
Arguments trace {data} w.

(** A script step: it may abort with an exception ([None]) and it changes
    the world either way. *)
Definition script (data A : Type) : Type := world data → option A * world data.

Module Script.
Section ops.
Context {data : Type}.

Definition ret {A} (a : A) : script data A := λ w, (Some a, w).

Definition bind {A B} (m : script data A) (k : A → script data B) : script data B :=
  λ w, match m w with
       | (Some a, w') => k a w'
       | (None, w') => (None, w')
       end.

Definition raise {A} : script data A := λ w, (None, w).

Definition emit (e : event) : script data unit :=
  λ w, (Some (), World (files w) (trace w ++ [e])).

Definition exists_ (p : string) : script data bool :=
  λ w, (Some (Fs.exists_ (files w) p), w).

Definition glob (dir pat : string) : script data (list string) :=
  λ w, (Some (Fs.sorted_glob (files w) dir pat), w).

(** Open a file and read all of it. The scripts read only files they
    have just found, so a missing file is not told apart from an empty
    one: [dflt] stands for what the library makes of it. *)
Definition read (dflt : data) (p : string) : script data data :=
  λ w, (Some (default dflt (Fs.read (files w) p)),
        World (files w) (trace w ++ [EvRead p])).

Definition write (p : string) (d : data) : script data unit :=
  λ w, (Some (), World (<[p := File d]> (files w)) (trace w ++ [EvWrite p])).

Definition mkdir (p : string) : script data unit :=
  λ w, (Some (), World (<[p := Dir]> (files w)) (trace w ++ [EvMkdir p])).

(** [pyguymer3.image.optimise_image]: the file is rewritten in place by
    the external optimisers. *)
Definition optimise (f : data → data) (p : string) : script data unit :=
  λ w, (Some (),
        World (alter (λ n, match n with File d => File (f d) | Dir => Dir end) p (files w))
              (trace w ++ [EvOptimise p])).

Definition lift_option {A} (o : option A) : script data A :=
  match o with
  | Some a => ret a
  | None => raise
  end.

(** [for x in l: body x] *)
Fixpoint for_each {A} (l : list A) (body : A → script data unit) : script data unit :=
  match l with
  | [] => ret ()
  | x :: l' => bind (body x) (λ _, for_each l' body)
  end.
End ops.
End Script.

Global Instance script_ret {data} : MRet (script data) := λ A, Script.ret.
Global Instance script_bind {data} : MBind (script data) := λ A B k m, Script.bind m k.

(** The events of one kind in a trace. *)
Definition runs (tr : list event) : list (list string) :=
  omap (λ e, match e with EvRun c => Some c | _ => None end) tr.
Definition reads (tr : list event) : list string :=
  omap (λ e, match e with EvRead p => Some p | _ => None end) tr.
Definition writes (tr : list event) : list string :=
  omap (λ e, match e with EvWrite p => Some p | _ => None end) tr.
Definition mp4_calls (tr : list event) : list (list string * option Z) :=
  omap (λ e, match e with EvImages2mp4 fr s => Some (fr, s) | _ => None end) tr.

(** Run a script from a given file system with an empty trace. *)
Definition run {data A} (m : script data A) (fs : gmap string (node data)) :
    option A * world data :=
  m (World fs []).

(** ** Python's float built-ins *)

Module Flt.

(** [math.floor(x)]; [None] stands for the [OverflowError] (infinity) or
    [ValueError] (NaN) it raises. *)
Definition floor (x : float) : option Z :=
  match Prim2SF x with
  | S754_zero _ => Some 0
  | S754_finite s m e =>
      Some ((if s then - Py.mag_num m e else Py.mag_num m e) / Py.mag_den e)
  | S754_infinity _ | S754_nan => None
  end.

(** [round(x)]: to the nearest integer, ties to even; [None] as for
    [floor]. *)
Definition round (x : float) : option Z :=
  match Prim2SF x with
  | S754_zero _ => Some 0
  | S754_finite s m e =>
      let r := Py.rne_div (Py.mag_num m e) (Py.mag_den e) in
      Some (if s then - r else r)
  | S754_infinity _ | S754_nan => None
  end.

(** [min(a, b)]: the first argument unless the second is smaller. *)
Definition min (a b : float) : float := if (b <? a)%float then b else a.

(** [max(a, b)]: the first argument unless the second is greater. *)
Definition max (a b : float) : float := if (a <? b)%float then b else a.

End Flt.

(** [for x in l: acc = f(acc, x)] where [f] may raise. *)
Fixpoint fold_opt {A B} (f : B → A → option B) (l : list A) (b : B) : option B :=
  match l with
  | [] => Some b
  | x :: l' => b' ← f b x; fold_opt f l' b'
  end.

(** [range(lo, hi)] *)
Definition range (lo hi : Z) : list Z := seqZ lo (hi - lo).

(** Indexing as numpy arrays and Python lists do it: [-n .. -1] count from
    the end, anything else outside [0 .. n-1] raises [IndexError]. *)
Definition py_index (n : nat) (i : Z) : option nat :=
  if bool_decide (0 ≤ i < Z.of_nat n) then Some (Z.to_nat i)
  else if bool_decide (- Z.of_nat n ≤ i < 0) then Some (Z.to_nat (i + Z.of_nat n))
  else None.

Definition get1 {A} (l : list A) (i : Z) : option A :=
  k ← py_index (length l) i; l !! k.

Definition get2 {A} (arr : list (list A)) (i j : Z) : option A :=
  row ← get1 arr i; get1 row j.

Definition set2 {A} (arr : list (list A)) (i j : Z) (v : A) : option (list (list A)) :=
  r ← py_index (length arr) i;
  row ← arr !! r;
  c ← py_index (length row) j;
  Some (<[r := <[c := v]> row]> arr).

(** The double quote character, for messages that quote a name. *)
Definition dq : string := String (ascii_of_nat 34) "".

Definition quoted (s : string) : string := dq +:+ s +:+ dq.

(** A shapely coordinate tuple [(x, y)] and a Polygon with its exterior
    ring. *)
Definition coord : Type := float * float.

Record polygon := Polygon { exterior : list coord }.

(** ** complexity.py *)

Module Complexity.

Record args := Args { debug : bool; dryRun : bool; timeout : float }.

Definition colour : Type := float * float * float * float.
Definition comb : Type := Z * string * Z * colour.

Definition gshhgRes : string := "c".

Definition combs : list comb :=
  [ (9, "110m", 116000, (1.0, 0.0, 0.0, 1.0)%float);
    (17, "50m", 116000 / 2, (0.0, 1.0, 0.0, 1.0)%float);
    (33, "10m", 116000 / 4, (0.0, 0.0, 1.0, 1.0)%float) ].

Definition spd : float := 500.0.

Definition dLon : float := 10.0.
Definition dLat : float := 10.0.
Definition nLon : Z := 36.
Definition nLat : Z := 18.
Definition scale : Z := 100.

Definition rgb : Type := Z * Z * Z.

(** The GFT command of one combination (lines 92-110). *)
Definition cmd (python_version : string) (a : args) (c : comb) : list string :=
  let '(nAng, neRes, prec, _) := c in
  let freqLand := (8 * 928000) / prec in
  let freqPlot := 928000 / prec in
  let freqSimp := 928000 / prec in
  [ "python" +:+ python_version; "-m"; "gft";
    "0.0"; "0.0"; Py.format_f Py.f1 spd;
    "--duration"; "0.01";
    "--freqLand"; Py.format_d freqLand;
    "--freqPlot"; Py.format_d freqPlot;
    "--freqSimp"; Py.format_d freqSimp;
    "--GSHHG-resolution"; gshhgRes;
    "--nAng"; Py.format_d nAng;
    "--NE-resolution"; neRes;
    "--precision"; Py.format_f Py.f1 (Py.float_of_Z prec) ]
  ++ (if debug a then ["--debug"] else []).

(** The directory and file of a combination's land (lines 139-142). *)
Definition dname (c : comb) : string :=
  let '(nAng, neRes, prec, _) := c in
  "res=" +:+ neRes +:+ "_cons=2.00e+00_tol=1.00e-10/local=F_nAng="
  +:+ Py.format_d nAng +:+ "_prec=" +:+ Py.format_e Py.e2 (Py.float_of_Z prec).

Definition fname (c : comb) : string := dname c +:+ "/allLands.wkb.gz".

(** The histogram image of a combination (lines 232-237). *)
Definition png_name (c : comb) : string :=
  let '(nAng, neRes, prec, _) := c in
  "complexity_res=" +:+ neRes +:+ "_cons=2.00e+00_nAng=" +:+ Py.format_d nAng
  +:+ "_prec=" +:+ Py.format_e Py.e2 (Py.float_of_Z prec) +:+ ".png".

(** The pixel [(iLat, iLon)] of a coordinate (lines 162-163). *)
Definition pixel (c : coord) : option (Z * Z) :=
  fLon ← Flt.floor ((c.1 + 180.0) / dLon)%float;
  let iLon := Z.max 0 (Z.min (nLon - 1) fLon) in
  fLat ← Flt.floor ((90.0 - c.2) / dLat)%float;
  let iLat := Z.max 0 (Z.min (nLat - 1) fLat) in
  Some (iLat, iLon).

(** [numpy.zeros((nLat, nLon), dtype = numpy.uint64)] *)
Definition zeros : list (list Z) :=
  replicate (Z.to_nat nLat) (replicate (Z.to_nat nLon) 0).

(** [histArr[iLat, iLon] += 1] on unsigned 64-bit cells (line 166). *)
Definition count_coord (h : list (list Z)) (c : coord) : option (list (list Z)) :=
  '(iLat, iLon) ← pixel c;
  v ← get2 h iLat iLon;
  set2 h iLat iLon ((v + 1) `mod` 2 ^ 64).

(** The histogram of a list of Polygons (lines 151-166). *)
Definition histArr (polys : list polygon) : option (list (list Z)) :=
  fold_opt (λ h p, fold_opt count_coord (exterior p) h) polys zeros.

(** [histArr.max()] *)
Definition hist_max (h : list (list Z)) : Z :=
  foldr Z.max 0 (concat h).

(** The colour-table index of a non-empty cell (lines 197-202). *)
Definition colour_index (count : Z) : option Z :=
  Flt.round (Flt.min 255.0 (255.0 * Py.float_of_Z count / 66.0))%float.

(** The assignment to one pixel of the upscaled image (lines 196-205). *)
Definition paint (turbo : list rgb) (h : list (list Z)) (iLat0 iLon0 : Z)
    (img : list (list rgb)) (iLat iLon : Z) : option (list (list rgb)) :=
  v ← get2 h iLat0 iLon0;
  if 0 <? v then
    color ← colour_index v;
    entry ← get1 turbo color;
    set2 img iLat iLon entry
  else set2 img iLat iLon (255, 255, 255).

(** [numpy.zeros((nLat * scale, nLon * scale, 3), dtype = numpy.uint8)] *)
Definition zeros_img : list (list rgb) :=
  replicate (Z.to_nat (nLat * scale)) (replicate (Z.to_nat (nLon * scale)) (0, 0, 0)).

(** The upscaled image (lines 179-205). *)
Definition histImgArr (turbo : list rgb) (h : list (list Z)) : option (list (list rgb)) :=
  fold_opt (λ img iLon0,
    let iLon1 := iLon0 * scale in
    let iLon2 := (iLon0 + 1) * scale in
    fold_opt (λ img iLat0,
      let iLat1 := iLat0 * scale in
      let iLat2 := (iLat0 + 1) * scale in
      fold_opt (λ img iLon,
        fold_opt (λ img iLat, paint turbo h iLat0 iLon0 img iLat iLon)
          (range iLat1 iLat2) img)
        (range iLon1 iLon2) img)
      (range 0 nLat) img)
    (range 0 nLon) zeros_img.

(** The image position of a ring coordinate (lines 223-224). *)
Definition ring_px (c : coord) : float * float :=
  (Flt.max 0.0 (Flt.min (Py.float_of_Z (nLon * scale))
                   (Py.float_of_Z scale * (c.1 + 180.0) / dLon)),
   Flt.max 0.0 (Flt.min (Py.float_of_Z (nLat * scale))
                   (Py.float_of_Z scale * (90.0 - c.2) / dLat)))%float.

Section main.
Context {data : Type}.
(** [sysconfig.get_python_version()] *)
Variable python_version : string.
(** [cts["turbo"]] of pyguymer3's colour tables. *)
Variable turbo : list rgb.
(** The Polygons [pyguymer3.geo.extract_polys] finds in the geometry that
    [shapely.wkb.loads] decodes from a decompressed file. *)
Variable polys_of : data → list polygon.
(** The PNG file PIL saves for an image array with the given lines drawn
    on it, and what [pyguymer3.image.optimise_image] turns a file into. *)
Variable png_of : list (list rgb) → list (list (float * float)) → data.
Variable optimise : data → data.
Variable unreadable : data.

(** One pass of the first loop (lines 89-123). *)
Definition sweep_step (a : args) (c : comb) : script data unit :=
  let cmd := cmd python_version a c in
  Script.emit (EvPrint ("Running " +:+ quoted (Py.join " " cmd) +:+ " ..."));;
  if dryRun a then Script.ret () else Script.emit (EvRun cmd).

(** One pass of the second loop (lines 137-241). *)
Definition survey_step (a : args) (c : comb) : script data unit :=
  let fname := fname c in
  found ← Script.exists_ fname;
  if negb found then Script.ret () else
  Script.emit (EvPrint ("Surveying " +:+ quoted fname +:+ " ..."));;
  d ← Script.read unreadable fname;
  let allLands := polys_of d in
  h ← Script.lift_option (histArr allLands);
  Script.emit (EvPrint (" > Maximum value = " +:+ Py.format_comma_d 0 (hist_max h) +:+ "."));;
  img ← Script.lift_option (histImgArr turbo h);
  let lines := map (λ p, map ring_px (exterior p)) allLands in
  Script.emit (EvPrint ("Saving " +:+ quoted (png_name c) +:+ " ..."));;
  Script.write (png_name c) (png_of img lines);;
  Script.optimise optimise (png_name c).

Definition main (a : args) : script data unit :=
  Script.for_each combs (sweep_step a);;
  Script.for_each combs (survey_step a).

End main.

End Complexity.

(** [acc = f(acc, x)] for every [x] of [l], where [f] is a script step. *)
Fixpoint fold_script {data A B} (f : B → A → script data B) (l : list A) (b : B) :
    script data B :=
  match l with
  | [] => Script.ret b
  | x :: l' => b' ← f b x; fold_script f l' b'
  end.

(** ** ripples_flight.py *)

Module Ripples.

Record args := Args {
  debug : bool;
  dryRun : bool;
  ffmpegPath : option string;
  ffprobePath : option string;
  plot : bool;
  timeout : float;
}.

Definition colour : Type := float * float * float * float.
Definition comb : Type := Z * string * Z * colour.

(** Starting location (Tokyo Haneda) and finishing location (Helsinki
    Vantaa). *)
Definition lon : float := 139.779999.
Definition lat : float := 35.552299.
Definition finishLon : float := 24.963341.
Definition finishLat : float := 60.318363.

Definition combs : list comb :=
  [ (9, "110m", 116000, (1.0, 0.0, 0.0, 1.0)%float);
    (17, "50m", 116000 / 2, (0.0, 1.0, 0.0, 1.0)%float);
    (33, "10m", 116000 / 4, (0.0, 0.0, 1.0, 1.0)%float) ].

Definition spd : float := 500.0.

(** The output directory (lines 143-149). *)
Definition outDir : string :=
  Py.join "_"
    [ "nAng=" +:+ Py.join "," (map (λ c : comb, Py.format_d c.1.1.1) combs);
      "neRes=" +:+ Py.join "," (map (λ c : comb, c.1.1.2) combs);
      "prec=" +:+ Py.join "," (map (λ c : comb, Py.format_e Py.e2 (Py.float_of_Z c.1.2)) combs) ].

(** [f"lon={lon:+011.6f}_lat={lat:+010.6f}"] *)
Definition lonlat : string :=
  "lon=" +:+ Py.format_f Py.plus_011_f6 lon +:+ "_lat=" +:+ Py.format_f Py.plus_010_f6 lat.

(** The GFT command of one duration and combination (lines 168-188). With
    the sweep's first resolution, [gshhgRes = "c"]. *)
Definition cmd (python_version : string) (a : args) (dur : Z) (c : comb) : list string :=
  let '(nAng, neRes, prec, _) := c in
  let freqLand := (8 * 928000) / prec in
  let freqPlot := 928000 / prec in
  let freqSimp := 928000 / prec in
  [ "python" +:+ python_version; "-m"; "gft";
    Py.format_f Py.plus_f6 lon; Py.format_f Py.plus_f6 lat; Py.format_f Py.f1 spd;
    "--duration"; Py.format_f Py.f2 (Py.float_of_Z dur / 24.0)%float;
    "--freqLand"; Py.format_d freqLand;
    "--freqPlot"; Py.format_d freqPlot;
    "--freqSimp"; Py.format_d freqSimp;
    "--GSHHG-resolution"; "c";
    "--nAng"; Py.format_d nAng;
    "--NE-resolution"; neRes;
    "--precision"; Py.format_f Py.f1 (Py.float_of_Z prec) ]
  ++ (if debug a then ["--debug"] else [])
  ++ (if plot a then ["--plot"] else []).

(** The directory of a combination's limits (lines 214 and 268). *)
Definition dname (c : comb) : string :=
  let '(nAng, neRes, prec, _) := c in
  let freqLand := (8 * 928000) / prec in
  let freqSimp := 928000 / prec in
  "res=" +:+ neRes +:+ "_cons=2.00e+00_tol=1.00e-10/local=F_nAng="
  +:+ Py.format_d nAng +:+ "_prec=" +:+ Py.format_e Py.e2 (Py.float_of_Z prec)
  +:+ "/freqLand=" +:+ Py.format_d freqLand +:+ "_freqSimp=" +:+ Py.format_d freqSimp
  +:+ "_" +:+ lonlat +:+ "/limit".

(** The limit file of a combination at a distance in kilometres (lines
    259 and 271). *)
Definition fname (c : comb) (dist : Z) : string :=
  let istep := (1000 * dist) / c.1.2 - 1 in
  dname c +:+ "/istep=" +:+ Py.format_0d 6 (istep + 1) +:+ ".wkb.gz".

(** The frame of a distance (line 243). *)
Definition frame_name (dist : Z) : string :=
  outDir +:+ "/" +:+ lonlat +:+ "/dist=" +:+ Py.format_0d 5 dist +:+ "_Flight.png".

(** The land file next to a limit file (line 311). *)
Definition allLands_of (limit_file : string) : string :=
  OsPath.dirname (OsPath.dirname (OsPath.dirname limit_file)) +:+ "/allLands.wkb.gz".

(** The videos (lines 442 and 462). *)
Definition mp4_name : string := outDir +:+ "/" +:+ lonlat +:+ "_Flight.mp4".
Definition mp4_name_px (maxSize : Z) : string :=
  outDir +:+ "/" +:+ lonlat +:+ "_Flight" +:+ Py.format_0d 4 maxSize +:+ "px.mp4".

Definition maxSizes : list Z := [512; 1024; 2048].

(** What is plotted on one frame (lines 287-410). *)
Record figure (data : Type) := Figure {
  fig_lands : data;
  fig_limits : list (string * colour * data);
  fig_max_plane : option float;
  fig_title : string;
}.
Arguments Figure {data}.

Section main.
Context {data : Type}.
(** [sysconfig.get_python_version()] *)
Variable python_version : string.
(** [pyguymer3.MAXIMUM_VINCENTY] *)
Variable MAXIMUM_VINCENTY : float.
(** The PNG matplotlib saves for a figure, and what
    [pyguymer3.image.optimise_image] turns a file into. *)
Variable savefig : figure data → data.
Variable optimise : data → data.
(** The temporary file [pyguymer3.media.images2mp4] returns and the video
    it holds, from the frames' contents and the screen size. *)
Variable video_name : list string → option Z → string.
Variable video : list (option data) → option Z → data.
Variable unreadable : data.

(** Lines 150-153. *)
Definition make_dirs : script data unit :=
  found ← Script.exists_ outDir;
  (if negb found then Script.mkdir outDir else Script.ret ());;
  found ← Script.exists_ (outDir +:+ "/" +:+ lonlat);
  if negb found then Script.mkdir (outDir +:+ "/" +:+ lonlat) else Script.ret ().

(** One pass of the inner sweep loop (lines 165-201). *)
Definition sweep_step (a : args) (dur : Z) (c : comb) : script data unit :=
  let cmd := cmd python_version a dur c in
  Script.emit (EvPrint ("Running " +:+ quoted (Py.join " " cmd) +:+ " ..."));;
  if dryRun a then Script.ret () else Script.emit (EvRun cmd).

(** Lines 163-201. *)
Definition sweep (a : args) : script data unit :=
  Script.for_each (range 1 25) (λ dur, Script.for_each combs (sweep_step a dur)).

(** One pass of the loop that reports the distance flown so far (lines
    206-224). Indexing an empty glob raises, and so does [int] on a name
    whose six characters are no number. *)
Definition report_step (c : comb) : script data unit :=
  found ← Script.glob (dname c) "istep=??????.wkb.gz";
  fname ← Script.lift_option (last found);
  after_eq ← Script.lift_option (Str.split "=" (OsPath.basename fname) !! 1%nat);
  digits ← Script.lift_option (Str.split "." after_eq !! 0%nat);
  istep ← Script.lift_option (Str.py_int digits);
  let maxDist := Py.float_of_Z (istep * c.1.2) in
  let maxDur := (maxDist / (1852.0 * spd))%float in
  Script.emit (EvPrint (" > " +:+ Py.format_f Py.comma_f2 (0.001 * maxDist)%float
    +:+ " kilometres of flying is available (which is "
    +:+ Py.format_f Py.comma_f4 maxDur +:+ " hours).")).

(** One pass of the loop over combinations inside a frame (lines 254-276). *)
Definition collect_step (dist : Z) (fnames : list string) (c : comb) :
    script data (list string) :=
  let prec := c.1.2 in
  if negb ((1000 * dist) `mod` prec =? 0) then Script.ret fnames else
  found ← Script.exists_ (fname c dist);
  if negb found then Script.ret fnames else Script.ret (fnames ++ [fname c dist]).

(** Lines 331-351: load and label each limit. *)
Definition load_limit (acc : list (string * colour * data)) (cf : comb * string) :
    script data (list (string * colour * data)) :=
  let '((nAng, neRes, prec, color), fname) := cf in
  Script.emit (EvPrint (" > Loading " +:+ quoted fname +:+ " ..."));;
  limit ← Script.read unreadable fname;
  Script.ret (acc ++ [("nAng=" +:+ Py.format_d nAng +:+ ", res=" +:+ neRes +:+ ", prec="
                 +:+ Py.format_d prec, color, limit)]).

(** Lines 284-428: make, save and optimise the frame. *)
Definition render (a : args) (dist : Z) (frame : string) (fnames : list string) :
    script data unit :=
  Script.emit (EvPrint ("Making " +:+ quoted frame +:+ " ..."));;
  last_name ← Script.lift_option (last fnames);
  allLands ← Script.read unreadable (allLands_of last_name);
  limits ← fold_script load_limit (zip combs fnames) [];
  let reach := (1000.0 * Py.float_of_Z dist)%float in
  let maxPlane := if (reach <=? MAXIMUM_VINCENTY)%float then Some reach else None in
  let dur := (1000.0 * Py.float_of_Z dist / (1852.0 * spd))%float in
  let title := Py.format_comma_d 6 dist +:+ " km (" +:+ Py.format_f Py.f5_2 dur +:+ " hours)" in
  Script.write frame (savefig (Figure allLands limits maxPlane title));;
  Script.optimise optimise frame.

(** One pass of the loop over distances (lines 241-428); the result is the
    list [frames]. *)
Definition frame_step (a : args) (frames : list string) (dist : Z) :
    script data (list string) :=
  let frame := frame_name dist in
  found ← Script.exists_ frame;
  if (found : bool) then Script.ret (frames ++ [frame]) else
  fnames ← fold_script (collect_step dist) combs [];
  if negb (length (fnames : list string) =? length combs)%nat then Script.ret frames else
  render a dist frame fnames;;
  Script.ret (frames ++ [frame]).

(** [pyguymer3.media.images2mp4] followed by [shutil.move]. *)
Definition images2mp4 (frames : list string) (screen : option Z) : script data string :=
  λ w, let vname := video_name frames screen in
       (Some vname,
        World (<[vname := File (video (map (Fs.read (files w)) frames) screen)]> (files w))
              (trace w ++ [EvImages2mp4 frames screen])).

Definition move (src dst : string) : script data unit :=
  λ w, (Some (),
        World (match files w !! src with
               | Some n => <[dst := n]> (delete src (files w))
               | None => files w
               end)
              (trace w ++ [EvMove src dst])).

(** Lines 432-462. *)
Definition make_videos (frames : list string) : script data unit :=
  Script.emit (EvPrint ("Making " +:+ quoted mp4_name +:+ " ..."));;
  vname ← images2mp4 frames None;
  move vname mp4_name;;
  Script.for_each maxSizes (λ maxSize,
    Script.emit (EvPrint ("Making " +:+ quoted (mp4_name_px maxSize) +:+ " ..."));;
    vname ← images2mp4 frames (Some maxSize);
    move vname (mp4_name_px maxSize)).

Definition main (a : args) : script data unit :=
  make_dirs;;
  sweep a;;
  Script.for_each combs report_step;;
  frames ← fold_script (frame_step a) (range 1 (30000 + 1)) [];
  make_videos frames.

End main.

End Ripples.

(** ** gft/saveAllLands.py *)

Module SaveAllLands.

(** The default of the keyword argument [avoidCountries] (lines 9-14). *)
Definition avoidCountries_default : list string :=
  ["Baikonur"; "Iran"; "Russia"; "Ukraine"].

(** A record of the Natural Earth shapefile: its [NAME] attribute and its
    geometry. *)
Record record (geom : Type) := Record_ {
  NAME : string;
  geometry : geom;
}.
Arguments Record_ {geom}.
Arguments NAME {geom} r.
Arguments geometry {geom} r.

(** The arguments of [saveAllLands]. *)
Record params (geom : Type) := Params {
  wName : string;
  dname : string;
  avoidCountries : list string;
  debug : bool;
  dist : float;
  fill : float;
  fillSpace : string;
  local : bool;
  maxPlane : option geom;
  nAng : Z;
  nIter : Z;
  neRes : string;
  simp : float;
  tol : float;
}.
Arguments Params {geom}.
Arguments wName {geom} p.
Arguments dname {geom} p.
Arguments avoidCountries {geom} p.
Arguments debug {geom} p.
Arguments dist {geom} p.
Arguments fill {geom} p.
Arguments fillSpace {geom} p.
Arguments local {geom} p.
Arguments maxPlane {geom} p.
Arguments nAng {geom} p.
Arguments nIter {geom} p.
Arguments neRes {geom} p.
Arguments simp {geom} p.
Arguments tol {geom} p.

(** The pattern of the temporary files (line 204). *)
Definition tmp_pattern : string := "????.??????,???.??????,????.???????.wkb.gz".

Section saveAllLands.
Context {data geom : Type}.
(** cartopy: the shapefile of a resolution and its records. *)
Variable sfile : string → string.
Variable records : string → list (record geom).
(** shapely: centroid and area of a geometry, predicates and operations. *)
Variable centroid_x centroid_y area : geom → float.
Variable disjoint : geom → geom → bool.
Variable intersection : geom → geom → geom.
Variable unary_union : list geom → geom.
Variable simplify : geom → float → geom.
(** pyguymer3 and gst: [extract_polys geometry onlyValid repair], [buffer]
    with the settings of the call, [removeInteriorRings]. *)
Variable extract_polys : geom → bool → bool → list geom.
Variable buffer : geom → params geom → geom.
Variable removeInteriorRings : geom → geom.
(** The files: compressed WKB both ways, and GeoJSON. *)
Variable wkb_gz : geom → data.
Variable of_wkb_gz : data → geom.
Variable geojson : geom → data.
Variable unreadable : data.

(** Line 107. *)
Definition gName (p : params geom) : string :=
  Str.removesuffix ".wkb.gz" (wName p) +:+ ".geojson".

(** The temporary file of a record (line 130). *)
Definition tmpName (p : params geom) (r : record geom) : string :=
  dname p +:+ "/" +:+ Py.format_f Py.plus_011_f6 (centroid_x (geometry r))
  +:+ "," +:+ Py.format_f Py.plus_010_f6 (centroid_y (geometry r))
  +:+ "," +:+ Py.format_f Py.zero_012_f7 (area (geometry r)) +:+ ".wkb.gz".

(** Is the record one of the countries to avoid (line 126)? *)
Definition avoided (p : params geom) (r : record geom) : bool :=
  bool_decide (NAME r ∈ avoidCountries p).

(** One pass of the loop over the Polygons of a record (lines 140-182):
    clip to the reach of the plane, buffer, and add the Polygons. *)
Definition buffered (p : params geom) (poly : geom) : geom :=
  if (0.0 <? dist p)%float then buffer poly p else poly.

Definition add_poly (p : params geom) (polys : list geom) (poly : geom) : list geom :=
  match (if local p then maxPlane p else None) with
  | Some reach =>
      if disjoint reach poly then polys
      else polys ++ extract_polys (buffered p (intersection reach poly)) false false
  | None => polys ++ extract_polys (buffered p poly) false false
  end.

(** The land of a record (lines 137-182). *)
Definition record_polys (p : params geom) (r : record geom) : list geom :=
  foldl (add_poly p) [] (extract_polys (geometry r) true true).

(** One pass of the loop over records (lines 123-196). *)
Definition record_step (p : params geom) (r : record geom) : script data unit :=
  if negb (avoided p r) then Script.ret () else
  found ← Script.exists_ (tmpName p r);
  if (found : bool) then Script.ret () else
  Script.emit (EvPrint ("   > Making " +:+ quoted (tmpName p r) +:+ " ..."));;
  match record_polys p r with
  | [] => Script.emit (EvPrint "     > Skipped (no Polygons).")
  | polys => Script.write (tmpName p r) (wkb_gz (simplify (unary_union polys) (tol p)))
  end.

(** One pass of the loop over temporary files (lines 204-215). *)
Definition load_step (polys : list geom) (name : string) : script data (list geom) :=
  Script.emit (EvPrint (" > Loading " +:+ quoted name +:+ " ..."));;
  d ← Script.read unreadable name;
  Script.ret (polys ++ extract_polys (of_wkb_gz d) false false).

(** Lines 201-215. *)
Definition gather (p : params geom) : script data (list geom) :=
  names ← Script.glob (dname p) tmp_pattern;
  fold_script load_step names [].

(** The land that is saved (lines 224-245). *)
Definition united (p : params geom) (polys : list geom) : geom :=
  let u := removeInteriorRings (simplify (unary_union polys) (tol p)) in
  if (0.0 <? simp p)%float then removeInteriorRings (simplify u (simp p)) else u.

(** Lines 218-262. *)
Definition save (p : params geom) (polys : list geom) : script data bool :=
  match polys with
  | [] => Script.ret false
  | _ =>
      Script.write (wName p) (wkb_gz (united p polys));;
      Script.write (gName p) (geojson (united p polys));;
      Script.ret true
  end.

(** Lines 120-196: the temporary file of every record to avoid. *)
Definition make_tmp_files (p : params geom) : script data unit :=
  Script.emit (EvPrint (" > Loading " +:+ quoted (sfile (neRes p)) +:+ " ..."));;
  Script.for_each (records (neRes p)) (record_step p).

(** The function. With [debug], [pyguymer3.geo.check] inspects each
    geometry that is about to be saved; it returns nothing and is left
    out. *)
Definition saveAllLands (p : params geom) : script data bool :=
  make_tmp_files p;;
  polys ← gather p;
  save p polys.

End saveAllLands.

End SaveAllLands.

(** * Properties *)

(** ** Reasoning about scripts *)

Section script_facts.
Context {data : Type}.
Implicit Types (w : world data) (tr : list event) (ok : event → Prop).

(** [traced ok Q m]: whatever the world, [m] only appends events that
    satisfy [ok] to the trace, and a value it returns satisfies [Q]. *)
Definition traced {A} ok (Q : A → Prop) (m : script data A) : Prop :=
  ∀ w, ∃ tr, trace (m w).2 = trace w ++ tr ∧ Forall ok tr ∧
             ∀ a, (m w).1 = Some a → Q a.

Lemma traced_weaken {A} ok ok' (Q Q' : A → Prop) m :
  (∀ e, ok e → ok' e) → (∀ a, Q a → Q' a) → traced ok Q m → traced ok' Q' m.
Proof.
  intros Hok HQ Hm w. destruct (Hm w) as (tr & Htr & Hall & Hret).
  exists tr. split_and!; [done|by eapply Forall_impl|auto].
Qed.

Lemma traced_ret {A} ok (Q : A → Prop) a : Q a → traced ok Q (Script.ret a).
Proof.
  intros HQ w. exists []. rewrite app_nil_r. split_and!; [done|constructor|].
  by intros ? [= <-].
Qed.

Lemma traced_raise {A} ok (Q : A → Prop) : traced ok Q (@Script.raise data A).
Proof. intros w. exists []. rewrite app_nil_r. by split_and!. Qed.

Lemma traced_lift_option {A} ok (o : option A) :
  traced ok (λ a, o = Some a) (@Script.lift_option data A o).
Proof. destruct o; [by apply traced_ret|apply traced_raise]. Qed.

Lemma traced_bind {A B} ok (Q : A → Prop) (R : B → Prop) m (k : A → script data B) :
  traced ok Q m → (∀ a, Q a → traced ok R (k a)) → traced ok R (m ≫= k).
Proof.
  intros Hm Hk w. unfold mbind, script_bind, Script.bind.
  destruct (Hm w) as (tr & Htr & Hall & Hret).
  destruct (m w) as [[a|] w1]; simpl in *.
  - destruct (Hk a (Hret a eq_refl) w1) as (tr' & Htr' & Hall' & Hret').
    exists (tr ++ tr'). rewrite Htr', Htr, app_assoc.
    split_and!; [done|by apply Forall_app|done].
  - exists tr. by split_and!.
Qed.

Lemma traced_emit ok (Q : unit → Prop) e :
  ok e → Q () → traced ok Q (@Script.emit data e).
Proof.
  intros He HQ w. exists [e]. split_and!; [done|by repeat constructor|].
  by intros [] _.
Qed.

Lemma traced_exists ok p : traced ok (λ _, True) (@Script.exists_ data p).
Proof. intros w. exists []. rewrite app_nil_r. by split_and!. Qed.

Lemma traced_glob ok dir pat : traced ok (λ _, True) (@Script.glob data dir pat).
Proof. intros w. exists []. rewrite app_nil_r. by split_and!. Qed.

Lemma traced_read ok dflt p :
  ok (EvRead p) → traced ok (λ _, True) (@Script.read data dflt p).
Proof. intros He w. exists [EvRead p]. split_and!; [done|by repeat constructor|done]. Qed.

Lemma traced_write ok p d :
  ok (EvWrite p) → traced ok (λ _, True) (@Script.write data p d).
Proof. intros He w. exists [EvWrite p]. split_and!; [done|by repeat constructor|done]. Qed.

Lemma traced_mkdir ok p :
  ok (EvMkdir p) → traced ok (λ _, True) (@Script.mkdir data p).
Proof. intros He w. exists [EvMkdir p]. split_and!; [done|by repeat constructor|done]. Qed.

Lemma traced_optimise ok f p :
  ok (EvOptimise p) → traced ok (λ _, True) (@Script.optimise data f p).
Proof. intros He w. exists [EvOptimise p]. split_and!; [done|by repeat constructor|done]. Qed.

Lemma traced_for_each {A} ok (l : list A) body :
  (∀ x, x ∈ l → traced ok (λ _, True) (body x)) →
  traced ok (λ _, True) (@Script.for_each data A l body).
Proof.
  induction l as [|x l IH]; intros Hbody; simpl.
  - by apply traced_ret.
  - apply (traced_bind ok (λ _, True)); [apply Hbody; left|].
    intros _ _. apply IH. intros y Hy. apply Hbody. by right.
Qed.

Lemma traced_fold_script {A B} ok (I : B → Prop) (f : B → A → script data B) l b :
  I b → (∀ b x, x ∈ l → I b → traced ok I (f b x)) →
  traced ok I (fold_script f l b).
Proof.
  revert b. induction l as [|x l IH]; intros b Hb Hf; simpl.
  - by apply traced_ret.
  - apply (traced_bind ok I); [apply Hf; [left|done]|].
    intros b' Hb'. apply IH; [done|]. intros b'' y Hy. apply Hf. by right.
Qed.

(** A loop whose passes do nothing but emit events that do not depend on
    the world emits their concatenation. *)
Lemma for_each_emits {A} (l : list A) body (g : A → list event) :
  (∀ x w, body x w = (Some (), World (files w) (trace w ++ g x))) →
  ∀ w, @Script.for_each data A l body w
       = (Some (), World (files w) (trace w ++ concat (map g l))).
Proof.
  intros Hbody. induction l as [|x l IH]; intros w; simpl.
  - rewrite app_nil_r. by destruct w.
  - unfold Script.bind. rewrite Hbody, IH. simpl. by rewrite app_assoc.
Qed.

(** A loop whose passes all leave the world as it is. *)
Lemma for_each_skips {A} (l : list A) body w :
  (∀ x, x ∈ l → body x w = (Some (), w)) →
  @Script.for_each data A l body w = (Some (), w).
Proof.
  induction l as [|x l IH]; intros Hbody; simpl; [done|].
  unfold Script.bind. rewrite Hbody by left. apply IH.
  intros y Hy. apply Hbody. by right.
Qed.

End script_facts.

(** The projections of a trace distribute over concatenation. *)
Lemma runs_app tr1 tr2 : runs (tr1 ++ tr2) = runs tr1 ++ runs tr2.
Proof. apply omap_app. Qed.

Lemma mp4_calls_app tr1 tr2 : mp4_calls (tr1 ++ tr2) = mp4_calls tr1 ++ mp4_calls tr2.
Proof. apply omap_app. Qed.

Definition not_run (e : event) : Prop :=
  match e with EvRun _ => False | _ => True end.

Definition not_mp4 (e : event) : Prop :=
  match e with EvImages2mp4 _ _ => False | _ => True end.

Lemma runs_not_run tr : Forall not_run tr → runs tr = [].
Proof.
  induction 1 as [|e tr He _ IH]; [done|]. destruct e; simpl in *; done.
Qed.

Lemma mp4_calls_not_mp4 tr : Forall not_mp4 tr → mp4_calls tr = [].
Proof.
  induction 1 as [|e tr He _ IH]; [done|]. destruct e; simpl in *; done.
Qed.

(** Steps that solve [traced] goals for straight-line scripts. *)
Lemma traced_lift_option_any {data A} (ok : event → Prop) (o : option A) :
  traced ok (λ _, True) (@Script.lift_option data A o).
Proof. eapply traced_weaken; [done| |apply traced_lift_option]. done. Qed.

Ltac traced_go :=
  repeat match goal with
  | |- traced _ _ (_ ≫= _) => apply (traced_bind _ (λ _, True)); [|intros ? _]
  | |- traced _ _ (Script.ret _) => apply traced_ret; try done
  | |- traced _ _ (Script.emit _) => apply traced_emit; try done
  | |- traced _ _ (Script.exists_ _) => apply traced_exists
  | |- traced _ _ (Script.glob _ _) => apply traced_glob
  | |- traced _ _ (Script.read _ _) => apply traced_read; try done
  | |- traced _ _ (Script.write _ _) => apply traced_write; try done
  | |- traced _ _ (Script.mkdir _) => apply traced_mkdir; try done
  | |- traced _ _ (Script.optimise _ _) => apply traced_optimise; try done
  | |- traced _ _ (Script.lift_option _) => apply traced_lift_option_any
  | |- traced _ _ (if ?b then _ else _) => destruct b
  | |- traced _ _ (match ?x with _ => _ end) => destruct x
  end.

(** ** complexity.py: the events of a run *)

Module ComplexityFacts.
Import Complexity.

(** The events complexity.py may produce besides running GFT: messages,
    reading a combination's land and writing its image. *)
Definition ok (e : event) : Prop :=
  match e with
  | EvPrint _ => True
  | EvRead p => ∃ c, c ∈ combs ∧ p = fname c
  | EvWrite p | EvOptimise p => ∃ c, c ∈ combs ∧ p = png_name c
  | _ => False
  end.

(** The events of one pass of the sweep. *)
Definition sweep_events (python_version : string) (a : args) (c : comb) : list event :=
  EvPrint ("Running " +:+ quoted (Py.join " " (cmd python_version a c)) +:+ " ...")
  :: (if dryRun a then [] else [EvRun (cmd python_version a c)]).

Section facts.
Context {data : Type}.
Variable python_version : string.
Variable turbo : list rgb.
Variable polys_of : data → list polygon.
Variable png_of : list (list rgb) → list (list (float * float)) → data.
Variable optimise : data → data.
Variable unreadable : data.

Lemma complexity_sweep_step_eq a c (w : world data) :
  sweep_step python_version a c w
  = (Some (), World (files w) (trace w ++ sweep_events python_version a c)).
Proof.
  unfold sweep_step, sweep_events, mbind, script_bind, Script.bind, Script.emit.
  destruct (dryRun a); simpl; [done|]. by rewrite <- app_assoc.
Qed.

Lemma complexity_sweep_eq a (w : world data) :
  Script.for_each combs (sweep_step python_version a) w
  = (Some (), World (files w)
       (trace w ++ concat (map (sweep_events python_version a) combs))).
Proof. apply for_each_emits. intros. apply complexity_sweep_step_eq. Qed.

Lemma complexity_sweep_runs a :
  runs (concat (map (sweep_events python_version a) combs))
  = if dryRun a then [] else map (cmd python_version a) combs.
Proof. unfold sweep_events. by destruct (dryRun a). Qed.

Lemma survey_step_traced a c :
  c ∈ combs →
  traced ok (λ _, True)
    (survey_step (data := data) turbo polys_of png_of optimise unreadable a c).
Proof.
  intros Hc. unfold survey_step.
  traced_go; simpl; eauto.
Qed.

Lemma survey_traced a :
  traced ok (λ _, True)
    (Script.for_each combs
       (survey_step (data := data) turbo polys_of png_of optimise unreadable a)).
Proof. apply traced_for_each. intros c Hc. by apply survey_step_traced. Qed.

(** The trace of a run: the sweep's events, then events of the survey. *)
Lemma complexity_trace a (w : world data) :
  ∃ tr, trace (main python_version turbo polys_of png_of optimise unreadable a w).2
        = trace w ++ concat (map (sweep_events python_version a) combs) ++ tr
        ∧ Forall ok tr.
Proof.
  unfold main, mbind, script_bind, Script.bind. rewrite complexity_sweep_eq.
  set (w1 := World (files w) _).
  destruct (survey_traced a w1) as (tr & Htr & Hall & _).
  exists tr. rewrite Htr. subst w1. cbn [trace]. by rewrite <- app_assoc.
Qed.

Lemma complexity_ok_not_run e : ok e → not_run e.
Proof. by destruct e. Qed.

(** The commands a run passes to [subprocess.run], in order. *)
Lemma complexity_runs a fs :
  runs (trace (run (main python_version turbo polys_of png_of optimise unreadable a) fs).2)
  = if dryRun a then [] else map (cmd python_version a) combs.
Proof.
  unfold run. destruct (complexity_trace a (World fs [])) as (tr & -> & Hall).
  cbn [trace app]. rewrite runs_app, complexity_sweep_runs, (runs_not_run tr), app_nil_r; [done|].
  eapply Forall_impl; [done|]. apply complexity_ok_not_run.
Qed.

End facts.
End ComplexityFacts.

(** ** ripples_flight.py: the events of a run *)

Module RipplesFacts.
Import Ripples.

(** The events ripples_flight.py may produce besides running GFT and
    making the videos. *)
Definition ok (e : event) : Prop :=
  match e with
  | EvPrint _ => True
  | EvMkdir p => p = outDir ∨ p = outDir +:+ "/" +:+ lonlat
  | EvRead p =>
      ∃ c dist, c ∈ combs ∧ (p = fname c dist ∨ p = allLands_of (fname c dist))
  | EvWrite p | EvOptimise p => ∃ dist, p = frame_name dist
  | _ => False
  end.

(** The events of one pass of the sweep. *)
Definition sweep_events (python_version : string) (a : args) (dur : Z) (c : comb) :
    list event :=
  EvPrint ("Running " +:+ quoted (Py.join " " (cmd python_version a dur c)) +:+ " ...")
  :: (if dryRun a then [] else [EvRun (cmd python_version a dur c)]).

(** All commands of the sweep, in the order they are built. *)
Definition built (python_version : string) (a : args) : list (list string) :=
  concat (map (λ dur, map (cmd python_version a dur) combs) (range 1 25)).

(** Is the limit of a combination at a distance there (lines 257-273)? *)
Definition available {data} (fs : gmap string (node data)) (dist : Z) (c : comb) : bool :=
  ((1000 * dist) `mod` c.1.2 =? 0) && Fs.exists_ fs (fname c dist).

(** The events of the videos' making. *)
Definition video_events (video_name : list string → option Z → string)
    (frames : list string) : list event :=
  [ EvPrint ("Making " +:+ quoted mp4_name +:+ " ...");
    EvImages2mp4 frames None;
    EvMove (video_name frames None) mp4_name ]
  ++ concat (map (λ maxSize,
       [ EvPrint ("Making " +:+ quoted (mp4_name_px maxSize) +:+ " ...");
         EvImages2mp4 frames (Some maxSize);
         EvMove (video_name frames (Some maxSize)) (mp4_name_px maxSize) ]) maxSizes).

Section facts.
Context {data : Type}.
Variable python_version : string.
Variable MAXIMUM_VINCENTY : float.
Variable savefig : figure data → data.
Variable optimise : data → data.
Variable unreadable : data.

Lemma make_dirs_traced : traced ok (λ _, True) (make_dirs (data := data)).
Proof. unfold make_dirs. traced_go; simpl; auto. Qed.

Lemma make_dirs_total (w : world data) : (make_dirs w).1 = Some ().
Proof.
  unfold make_dirs, mbind, script_bind, Script.bind, Script.exists_, Script.mkdir, Script.ret.
  simpl. destruct (Fs.exists_ (files w) outDir); simpl;
    by destruct (Fs.exists_ _ _).
Qed.

Lemma ripples_sweep_step_eq a dur c (w : world data) :
  sweep_step python_version a dur c w
  = (Some (), World (files w) (trace w ++ sweep_events python_version a dur c)).
Proof.
  unfold sweep_step, sweep_events, mbind, script_bind, Script.bind, Script.emit.
  destruct (dryRun a); simpl; [done|]. by rewrite <- app_assoc.
Qed.

Lemma ripples_sweep_eq a (w : world data) :
  sweep python_version a w
  = (Some (), World (files w)
       (trace w ++ concat (map (λ dur, concat (map (sweep_events python_version a dur) combs))
                             (range 1 25)))).
Proof.
  unfold sweep. apply for_each_emits. intros dur w'.
  apply for_each_emits. intros. apply ripples_sweep_step_eq.
Qed.

Lemma runs_concat {A} (g : A → list event) l :
  runs (concat (map g l)) = concat (map (λ x, runs (g x)) l).
Proof.
  induction l as [|x l IH]; [done|]. simpl. by rewrite runs_app, IH.
Qed.

Lemma ripples_sweep_runs_dur a dur :
  runs (concat (map (sweep_events python_version a dur) combs))
  = if dryRun a then [] else map (cmd python_version a dur) combs.
Proof. unfold sweep_events. by destruct (dryRun a). Qed.

Lemma ripples_sweep_runs a :
  runs (concat (map (λ dur, concat (map (sweep_events python_version a dur) combs))
                  (range 1 25)))
  = if dryRun a then [] else built python_version a.
Proof.
  rewrite runs_concat. unfold built.
  rewrite (map_ext _ _ (ripples_sweep_runs_dur a)).
  destruct (dryRun a); [|done].
  induction (range 1 25) as [|dur l IH]; [done|]. by rewrite map_cons, concat_cons, IH.
Qed.

Lemma report_traced :
  traced ok (λ _, True) (Script.for_each combs (report_step (data := data))).
Proof.
  apply traced_for_each. intros c _. unfold report_step. traced_go.
Qed.

(** The limits a frame needs: those of the combinations that are there. *)
Lemma collect_eq dist l acc (w : world data) :
  fold_script (collect_step dist) l acc w
  = (Some (acc ++ map (λ c, fname c dist) (filter (λ c, available (files w) dist c = true) l)), w).
Proof.
  revert acc. induction l as [|c l IH]; intros acc; simpl.
  - by rewrite app_nil_r.
  - assert (collect_step dist acc c w
            = (Some (if available (files w) dist c then acc ++ [fname c dist] else acc), w))
      as Hstep.
    { unfold collect_step, available, mbind, script_bind, Script.bind, Script.exists_,
        Script.ret.
      destruct (_ =? 0); simpl; [|done]. by destruct (Fs.exists_ _ _). }
    unfold mbind, script_bind, Script.bind. rewrite Hstep, IH, filter_cons.
    case_decide as Hav.
    + rewrite Hav. simpl. by rewrite <- app_assoc.
    + apply not_true_is_false in Hav. by rewrite Hav.
Qed.

Lemma filter_all_length {A} (P : A → Prop) `{∀ x, Decision (P x)} (l : list A) :
  length (filter P l) = length l ↔ Forall P l.
Proof.
  induction l as [|x l IH]; [by split; [constructor|]|].
  rewrite filter_cons. destruct (decide (P x)); simpl.
  - rewrite Forall_cons. split; [intros [= Hl]; split; [done|by apply IH]|].
    intros [_ Hl]. f_equal. by apply IH.
  - pose proof (length_filter P l). split; [lia|]. by intros [? _]%Forall_cons.
Qed.

Lemma filter_all {A} (P : A → Prop) `{∀ x, Decision (P x)} (l : list A) :
  Forall P l → filter P l = l.
Proof.
  induction 1 as [|x l Hx _ IH]; [done|].
  by rewrite filter_cons, decide_True, IH.
Qed.

(** The events and the result of loading the limits (lines 331-351). *)
Definition load_events (cf : comb * string) : list event :=
  [EvPrint (" > Loading " +:+ quoted cf.2 +:+ " ..."); EvRead cf.2].

Definition labelled (fs : gmap string (node data)) (cf : comb * string) :
    string * colour * data :=
  let '((nAng, neRes, prec, color), fname) := cf in
  ("nAng=" +:+ Py.format_d nAng +:+ ", res=" +:+ neRes +:+ ", prec=" +:+ Py.format_d prec,
   color, default unreadable (Fs.read fs fname)).

Lemma load_limits_eq l acc (w : world data) :
  fold_script (load_limit unreadable) l acc w
  = (Some (acc ++ map (labelled (files w)) l),
     World (files w) (trace w ++ concat (map load_events l))).
Proof.
  revert acc w. induction l as [|[[[[nAng neRes] prec] color] fname] l IH]; intros acc w; simpl.
  - rewrite !app_nil_r. by destruct w.
  - unfold mbind, script_bind, Script.bind, load_limit at 1.
    unfold mbind, script_bind, Script.bind, Script.emit, Script.read, Script.ret. simpl.
    rewrite IH. simpl. by rewrite <- !app_assoc.
Qed.

(** The figure of a frame and the events of its making (lines 284-428). *)
Definition figure_of (fs : gmap string (node data)) (dist : Z) (fnames : list string)
    (last_name : string) : figure data :=
  let reach := (1000.0 * Py.float_of_Z dist)%float in
  Figure (default unreadable (Fs.read fs (allLands_of last_name)))
    (map (labelled fs) (zip combs fnames))
    (if (reach <=? MAXIMUM_VINCENTY)%float then Some reach else None)
    (Py.format_comma_d 6 dist +:+ " km ("
     +:+ Py.format_f Py.f5_2 (1000.0 * Py.float_of_Z dist / (1852.0 * spd))%float
     +:+ " hours)").

Definition render_events (frame : string) (fnames : list string) (last_name : string) :
    list event :=
  [EvPrint ("Making " +:+ quoted frame +:+ " ..."); EvRead (allLands_of last_name)]
  ++ concat (map load_events (zip combs fnames))
  ++ [EvWrite frame; EvOptimise frame].

Definition optimised (n : node data) : node data :=
  match n with File d => File (optimise d) | Dir => Dir end.

Lemma render_eq a dist frame fnames last_name (w : world data) :
  last fnames = Some last_name →
  render MAXIMUM_VINCENTY savefig optimise unreadable a dist frame fnames w
  = (Some (),
     World (alter optimised frame
              (<[frame := File (savefig (figure_of (files w) dist fnames last_name))]> (files w)))
           (trace w ++ render_events frame fnames last_name)).
Proof.
  intros Hlast.
  unfold render, mbind, script_bind, Script.bind, Script.emit, Script.read,
    Script.write, Script.optimise.
  rewrite Hlast. cbn [Script.lift_option Script.ret files trace].
  rewrite load_limits_eq. cbn [files trace].
  unfold render_events, figure_of. by rewrite <- !app_assoc.
Qed.

(** What a pass of the loop over distances does, case by case. *)
Lemma frame_step_cases a frames dist (w : world data) :
  let frame := frame_name dist in
  let fnames := map (λ c, fname c dist) combs in
  frame_step MAXIMUM_VINCENTY savefig optimise unreadable a frames dist w
  = if Fs.exists_ (files w) frame then (Some (frames ++ [frame]), w)
    else if forallb (available (files w) dist) combs then
      (Some (frames ++ [frame]),
       (render MAXIMUM_VINCENTY savefig optimise unreadable a dist frame fnames w).2)
    else (Some frames, w).
Proof.
  intros frame fnames. unfold frame_step, mbind, script_bind.
  fold frame. unfold Script.bind at 1, Script.exists_ at 1. cbv beta iota.
  destruct (Fs.exists_ (files w) frame); [done|].
  unfold Script.bind at 1. rewrite collect_eq. cbv beta iota. rewrite app_nil_l.
  destruct (forallb (available (files w) dist) combs) eqn:Hall.
  - rewrite forallb_forall in Hall.
    rewrite filter_all.
    2:{ apply Forall_forall. intros c Hc. by apply Hall, list_elem_of_In. }
    fold fnames. replace (length fnames =? length combs)%nat with true by done.
    cbv beta iota. cbn [negb]. unfold Script.bind.
    rewrite (render_eq a dist frame fnames (fname (33, "10m", 116000 / 4,
      (0.0, 0.0, 1.0, 1.0)%float) dist)) by done.
    done.
  - assert (length (filter (λ c, available (files w) dist c = true) combs) ≠ length combs)
      as Hlen.
    { rewrite filter_all_length. intros HF.
      assert (forallb (available (files w) dist) combs = true) as Htrue; [|congruence].
      apply forallb_forall. intros c Hc.
      rewrite Forall_forall in HF. by apply HF, list_elem_of_In. }
    rewrite length_map. apply Nat.eqb_neq in Hlen. rewrite Hlen. done.
Qed.

Lemma frame_exists_false (fs : gmap string (node data)) p :
  Fs.exists_ fs p = false → fs !! p = None.
Proof.
  unfold Fs.exists_. intros H%bool_decide_eq_false.
  destruct (fs !! p) eqn:E; [|done]. destruct H. by eexists.
Qed.

Lemma fname_from_combs dist :
  Forall (λ n, ∃ c, c ∈ combs ∧ n = fname c dist) (map (λ c, fname c dist) combs).
Proof.
  apply Forall_forall. intros n (c & -> & Hc)%list_elem_of_fmap. eauto.
Qed.

Lemma ok_read_limit c dist : c ∈ combs → ok (EvRead (fname c dist)).
Proof. intros. simpl. eauto. Qed.

Lemma ok_read_lands c dist : c ∈ combs → ok (EvRead (allLands_of (fname c dist))).
Proof. intros. simpl. eauto. Qed.

(** A pass appends at most its own frame, emits admissible events only and
    keeps every file that was there. *)
Lemma frame_step_spec a frames dist (w : world data) :
  ∃ (b : bool) tr w',
    frame_step MAXIMUM_VINCENTY savefig optimise unreadable a frames dist w
    = (Some (frames ++ if b then [frame_name dist] else []), w')
    ∧ trace w' = trace w ++ tr ∧ Forall ok tr ∧ files w ⊆ files w'.
Proof.
  rewrite frame_step_cases.
  destruct (Fs.exists_ (files w) (frame_name dist)) eqn:Hex.
  { exists true, [], w. rewrite app_nil_r. by split_and!. }
  destruct (forallb _ combs).
  - rewrite (render_eq a dist _ _ (fname (33, "10m", 116000 / 4,
      (0.0, 0.0, 1.0, 1.0)%float) dist)) by done.
    eexists true, _, _. split_and!; [done|done| |].
    + unfold render_events.
      apply Forall_app; split; [|apply Forall_app; split].
      * repeat constructor. apply ok_read_lands. set_solver.
      * change (zip combs (map (λ c, fname c dist) combs))
          with (map (λ c, (c, fname c dist)) combs).
        apply Forall_concat, Forall_fmap, Forall_fmap, Forall_forall.
        intros c Hc. repeat constructor. by apply ok_read_limit.
      * repeat constructor; simpl; eauto.
    + cbn [files]. rewrite alter_insert_eq. apply insert_subseteq.
      by apply frame_exists_false.
  - exists false, [], w. rewrite !app_nil_r. by split_and!.
Qed.

Lemma frames_loop_spec a l frames (w : world data) :
  ∃ ds tr w',
    fold_script (frame_step MAXIMUM_VINCENTY savefig optimise unreadable a) l frames w
    = (Some (frames ++ map frame_name ds), w')
    ∧ ds `sublist_of` l
    ∧ trace w' = trace w ++ tr ∧ Forall ok tr ∧ files w ⊆ files w'.
Proof.
  revert frames w. induction l as [|dist l IH]; intros frames w; simpl.
  - exists [], [], w. rewrite !app_nil_r. by split_and!.
  - destruct (frame_step_spec a frames dist w) as (b & tr & w1 & Hstep & Htr & Hok & Hfs).
    destruct (IH (frames ++ if b then [frame_name dist] else []) w1)
      as (ds & tr' & w' & Hloop & Hsub & Htr' & Hok' & Hfs').
    unfold mbind, script_bind, Script.bind. rewrite Hstep, Hloop.
    exists ((if b then [dist] else []) ++ ds), (tr ++ tr'), w'.
    split_and!.
    + rewrite <- app_assoc. by destruct b.
    + destruct b; simpl; [by apply sublist_skip|by apply sublist_cons].
    + by rewrite Htr', Htr, app_assoc.
    + by apply Forall_app.
    + by etrans.
Qed.

(** The temporary file [pyguymer3.media.images2mp4] returns and the video
    it holds. *)
Variable video_name : list string → option Z → string.
Variable video : list (option data) → option Z → data.

Lemma make_videos_eq frames (w : world data) :
  ∃ fs', make_videos video_name video frames w
         = (Some (), World fs' (trace w ++ video_events video_name frames)).
Proof.
  unfold make_videos, mbind, script_bind, Script.bind, Script.emit, images2mp4, move.
  cbn [Script.for_each maxSizes files trace].
  unfold Script.bind, Script.emit, images2mp4, move, Script.ret.
  cbn [files trace]. eexists. unfold video_events.
  cbn [concat map maxSizes app]. by rewrite <- !app_assoc.
Qed.

(** The events of the whole sweep. *)
Definition sweep_trace (a : args) : list event :=
  concat (map (λ dur, concat (map (sweep_events python_version a dur) combs)) (range 1 25)).

(** The trace of a run: directories, the sweep, the report and the frames,
    and, unless the report raised, the videos of the frames of an
    increasing selection of distances. *)
Lemma ripples_spec a fs :
  ∃ tr1 tr2 o w',
    run (main python_version MAXIMUM_VINCENTY savefig optimise video_name video
           unreadable a) fs = (o, w')
    ∧ Forall ok tr1 ∧ Forall ok tr2 ∧
    match o with
    | Some _ =>
        ∃ ds, ds `sublist_of` range 1 (30000 + 1)
              ∧ trace w' = tr1 ++ sweep_trace a ++ tr2
                           ++ video_events video_name (map frame_name ds)
    | None => trace w' = tr1 ++ sweep_trace a ++ tr2
    end.
Proof.
  unfold run, main, mbind, script_bind. unfold Script.bind at 1.
  destruct (make_dirs_traced (World fs [])) as (tr1 & Htr1 & Hok1 & _).
  pose proof (make_dirs_total (World fs [])) as Htot.
  destruct (make_dirs (World fs [])) as [[[]|] w1]; [|done]. cbn [snd trace app] in Htr1.
  unfold Script.bind at 1. rewrite ripples_sweep_eq. fold (sweep_trace a).
  set (w2 := World (files w1) _).
  unfold Script.bind at 1.
  destruct (report_traced w2) as (tr2 & Htr2 & Hok2 & _).
  destruct (Script.for_each combs report_step w2) as [[[]|] w3]; cbn [snd] in Htr2.
  - unfold Script.bind at 1.
    destruct (frames_loop_spec a (range 1 (30000 + 1)) [] w3)
      as (ds & tr3 & w4 & -> & Hsub & Htr3 & Hok3 & _).
    destruct (make_videos_eq (map frame_name ds) w4) as (fs' & Hvid).
    rewrite app_nil_l, Hvid.
    eexists tr1, (tr2 ++ tr3), _, _. split_and!; [done|done|by apply Forall_app|].
    exists ds. split; [done|]. cbn [trace].
    rewrite Htr3, Htr2. subst w2. cbn [trace]. rewrite Htr1.
    by rewrite <- !app_assoc.
  - eexists tr1, tr2, _, _. split_and!; [done..|].
    rewrite Htr2. subst w2. cbn [trace]. rewrite Htr1. by rewrite <- !app_assoc.
Qed.

Lemma ripples_ok_not_run e : ok e → not_run e.
Proof. by destruct e. Qed.

Lemma ripples_ok_not_mp4 e : ok e → not_mp4 e.
Proof. by destruct e. Qed.

Lemma sweep_no_mp4 a : mp4_calls (sweep_trace a) = [].
Proof.
  apply mp4_calls_not_mp4. unfold sweep_trace.
  apply Forall_concat, Forall_fmap, Forall_forall. intros dur _.
  apply Forall_concat, Forall_fmap, Forall_forall. intros c _.
  unfold sweep_events. destruct (dryRun a); by repeat constructor.
Qed.

Lemma video_no_runs frames : runs (video_events video_name frames) = [].
Proof. done. Qed.

Lemma video_mp4_calls frames :
  mp4_calls (video_events video_name frames)
  = [(frames, None); (frames, Some 512); (frames, Some 1024); (frames, Some 2048)].
Proof. done. Qed.

(** The commands a run passes to [subprocess.run], in order. *)
Lemma ripples_runs a fs :
  runs (trace (run (main python_version MAXIMUM_VINCENTY savefig optimise video_name video
                      unreadable a) fs).2)
  = if dryRun a then [] else built python_version a.
Proof.
  destruct (ripples_spec a fs) as (tr1 & tr2 & o & w' & -> & Hok1 & Hok2 & Hr).
  assert (runs tr1 = []) as E1.
  { apply runs_not_run. eapply Forall_impl; [done|apply ripples_ok_not_run]. }
  assert (runs tr2 = []) as E2.
  { apply runs_not_run. eapply Forall_impl; [done|apply ripples_ok_not_run]. }
  cbn [snd]. destruct o as [[]|].
  - destruct Hr as (ds & _ & ->).
    rewrite !runs_app, E1, E2, video_no_runs. unfold sweep_trace.
    by rewrite ripples_sweep_runs, !app_nil_r.
  - rewrite Hr, !runs_app, E1, E2. unfold sweep_trace.
    by rewrite ripples_sweep_runs, !app_nil_r.
Qed.

End facts.
End RipplesFacts.

(** ** saveAllLands: the passes over records and temporary files *)

Module SaveAllLandsFacts.
Import SaveAllLands.

Section facts.
Context {data geom : Type}.
Variable sfile : string → string.
Variable records : string → list (record geom).
Variable centroid_x centroid_y area : geom → float.
Variable disjoint : geom → geom → bool.
Variable intersection : geom → geom → geom.
Variable unary_union : list geom → geom.
Variable simplify : geom → float → geom.
Variable extract_polys : geom → bool → bool → list geom.
Variable buffer : geom → params geom → geom.
Variable removeInteriorRings : geom → geom.
Variable wkb_gz : geom → data.
Variable of_wkb_gz : data → geom.
Variable geojson : geom → data.
Variable unreadable : data.

Abbreviation tmpName := (tmpName centroid_x centroid_y area).
Abbreviation record_polys := (record_polys disjoint intersection extract_polys buffer).
Abbreviation record_step :=
  (record_step (data := data) centroid_x centroid_y area disjoint intersection
     unary_union simplify extract_polys buffer wkb_gz).
Abbreviation make_tmp_files :=
  (make_tmp_files (data := data) sfile records centroid_x centroid_y area disjoint
     intersection unary_union simplify extract_polys buffer wkb_gz).
Abbreviation gather := (gather (data := data) extract_polys of_wkb_gz unreadable).
Abbreviation united := (united unary_union simplify removeInteriorRings).
Abbreviation save := (save (data := data) unary_union simplify removeInteriorRings wkb_gz geojson).
Abbreviation saveAllLands :=
  (saveAllLands (data := data) sfile records centroid_x centroid_y area disjoint
     intersection unary_union simplify extract_polys buffer removeInteriorRings
     wkb_gz of_wkb_gz geojson unreadable).

(** The message that starts the work on a record (line 134). *)
Definition making (p : params geom) (r : record geom) : event :=
  EvPrint ("   > Making " +:+ quoted (tmpName p r) +:+ " ...").

(** The world after the work on a record (lines 134-196). *)
Definition made (p : params geom) (r : record geom) (w : world data) : world data :=
  match record_polys p r with
  | [] => World (files w) (trace w ++ [making p r; EvPrint "     > Skipped (no Polygons)."])
  | polys =>
      World (<[tmpName p r := File (wkb_gz (simplify (unary_union polys) (tol p)))]> (files w))
            (trace w ++ [making p r; EvWrite (tmpName p r)])
  end.

(** A record is worked on when it is to be avoided and its temporary
    file is not there yet; otherwise the pass changes nothing. *)
Lemma record_step_cases p r (w : world data) :
  record_step p r w
  = if avoided p r && negb (Fs.exists_ (files w) (tmpName p r))
    then (Some (), made p r w) else (Some (), w).
Proof.
  unfold SaveAllLands.record_step, made, making, mbind, script_bind.
  destruct (avoided p r); [|done]. cbn [negb andb].
  unfold Script.bind at 1, Script.exists_ at 1. cbv beta iota.
  destruct (Fs.exists_ (files w) (tmpName p r)); [done|]. cbn [negb].
  unfold Script.bind, Script.emit, Script.write. cbn [files trace].
  destruct (record_polys p r); cbn [files trace]; by rewrite <- app_assoc.
Qed.

(** The events a pass over the records may produce, and what it keeps. *)
Definition tmp_ok (p : params geom) (e : event) : Prop :=
  match e with
  | EvPrint _ => True
  | EvWrite n => ∃ r, r ∈ records (neRes p) ∧ avoided p r = true ∧ n = tmpName p r
  | _ => False
  end.

Lemma tmp_exists_false (fs : gmap string (node data)) n :
  Fs.exists_ fs n = false → fs !! n = None.
Proof.
  unfold Fs.exists_. intros H%bool_decide_eq_false.
  destruct (fs !! n) eqn:E; [|done]. destruct H. by eexists.
Qed.

Lemma record_step_spec p r (w : world data) :
  r ∈ records (neRes p) →
  ∃ tr w', record_step p r w = (Some (), w')
           ∧ trace w' = trace w ++ tr ∧ Forall (tmp_ok p) tr ∧ files w ⊆ files w'.
Proof.
  intros Hr. rewrite record_step_cases.
  destruct (avoided p r) eqn:Hav; cbn [andb].
  2:{ exists [], w. rewrite app_nil_r. by split_and!. }
  destruct (Fs.exists_ (files w) (tmpName p r)) eqn:Hex; cbn [negb].
  { exists [], w. rewrite app_nil_r. by split_and!. }
  unfold made. destruct (record_polys p r) as [|poly polys].
  - eexists _, _. split_and!; [done|done|by repeat constructor|done].
  - eexists _, _. split_and!; [done|done| |].
    + repeat constructor. simpl. eauto.
    + cbn [files]. by apply insert_subseteq, tmp_exists_false.
Qed.

Lemma records_loop_spec p l (w : world data) :
  (∀ r, r ∈ l → r ∈ records (neRes p)) →
  ∃ tr w', Script.for_each l (record_step p) w = (Some (), w')
           ∧ trace w' = trace w ++ tr ∧ Forall (tmp_ok p) tr ∧ files w ⊆ files w'.
Proof.
  revert w. induction l as [|r l IH]; intros w Hl; simpl.
  - exists [], w. rewrite app_nil_r. by split_and!.
  - destruct (record_step_spec p r w) as (tr & w1 & Hstep & Htr & Hok & Hfs).
    { apply Hl. left. }
    destruct (IH w1) as (tr' & w' & Hloop & Htr' & Hok' & Hfs').
    { intros r' Hr'. apply Hl. by right. }
    unfold Script.bind. rewrite Hstep, Hloop.
    exists (tr ++ tr'), w'. split_and!; [done| |by apply Forall_app|by etrans].
    by rewrite Htr', Htr, app_assoc.
Qed.

Lemma make_tmp_files_spec p (w : world data) :
  ∃ tr w', make_tmp_files p w = (Some (), w')
           ∧ trace w' = trace w ++ tr ∧ Forall (tmp_ok p) tr ∧ files w ⊆ files w'.
Proof.
  unfold SaveAllLands.make_tmp_files, mbind, script_bind.
  unfold Script.bind at 1, Script.emit at 1. cbv beta iota.
  set (e := EvPrint _). set (w0 := World (files w) _).
  destruct (records_loop_spec p (records (neRes p)) w0) as (tr & w' & -> & Htr & Hok & Hfs);
    [done|].
  exists (e :: tr), w'. split_and!; [done| |by constructor|done].
  rewrite Htr. subst w0. cbn [trace]. by rewrite <- app_assoc.
Qed.

(** The Polygons the temporary files yield, file by file in sorted order
    (lines 204-215). *)
Definition yields (fs : gmap string (node data)) (name : string) : list geom :=
  extract_polys (of_wkb_gz (default unreadable (Fs.read fs name))) false false.

Definition load_events (name : string) : list event :=
  [EvPrint (" > Loading " +:+ quoted name +:+ " ..."); EvRead name].

Lemma load_loop_eq names acc (w : world data) :
  fold_script (load_step extract_polys of_wkb_gz unreadable) names acc w
  = (Some (acc ++ concat (map (yields (files w)) names)),
     World (files w) (trace w ++ concat (map load_events names))).
Proof.
  revert acc w. induction names as [|name names IH]; intros acc w; simpl.
  - rewrite !app_nil_r. by destruct w.
  - unfold mbind, script_bind, Script.bind, load_step at 1.
    unfold mbind, script_bind, Script.bind, Script.emit, Script.read, Script.ret.
    cbn [files trace]. rewrite IH. cbn [files trace]. unfold yields.
    by rewrite <- !app_assoc.
Qed.

Lemma gather_eq p (w : world data) :
  let names := Fs.sorted_glob (files w) (dname p) tmp_pattern in
  gather p w
  = (Some (concat (map (yields (files w)) names)),
     World (files w) (trace w ++ concat (map load_events names))).
Proof.
  intros names. unfold SaveAllLands.gather, mbind, script_bind.
  unfold Script.bind, Script.glob. cbv beta iota. by rewrite load_loop_eq.
Qed.

Lemma save_eq p polys (w : world data) :
  save p polys w
  = match polys with
    | [] => (Some false, w)
    | _ => (Some true,
            World (<[gName p := File (geojson (united p polys))]>
                     (<[wName p := File (wkb_gz (united p polys))]> (files w)))
                  (trace w ++ [EvWrite (wName p); EvWrite (gName p)]))
    end.
Proof.
  unfold SaveAllLands.save. destruct polys; [done|].
  unfold mbind, script_bind, Script.bind, Script.write, Script.ret. cbn [files trace].
  by rewrite <- app_assoc.
Qed.

Lemma writes_app tr1 tr2 : writes (tr1 ++ tr2) = writes tr1 ++ writes tr2.
Proof. apply omap_app. Qed.



End facts.
End SaveAllLandsFacts.

(** ** Binary64 arithmetic: signs and bounds *)

Module FloatFacts.

(** A float that is NaN or has its sign bit clear. *)
Definition nonneg_sf (x : spec_float) : Prop :=
  match x with
  | S754_nan => True
  | S754_zero s | S754_infinity s | S754_finite s _ _ => s = false
  end.

Lemma binary_round_aux_nonneg mx ex lx :
  nonneg_sf (binary_round_aux prec emax false mx ex lx).
Proof.
  unfold binary_round_aux.
  destruct (shr_fexp prec emax mx ex lx) as [mrs' e'].
  destruct (shr_fexp prec emax _ e' loc_Exact) as [mrs'' e''].
  destruct (shr_m mrs''); simpl; [done| |done].
  by destruct (e'' <=? emax - prec).
Qed.

Lemma binary_round_nonneg mx ex : nonneg_sf (binary_round prec emax false mx ex).
Proof.
  unfold binary_round. destruct (shl_align _ _ _). apply binary_round_aux_nonneg.
Qed.

Lemma binary_normalize_nonneg z e : 0 ≤ z → nonneg_sf (binary_normalize prec emax z e false).
Proof.
  destruct z; simpl; [done| |lia]. intros _. apply binary_round_nonneg.
Qed.

Lemma SFldexp_nonneg x e : nonneg_sf x → nonneg_sf (SFldexp prec emax x e).
Proof.
  destruct x as [s|s| |s m ex]; simpl; try done.
  intros ->. apply binary_round_nonneg.
Qed.

Lemma SF2Prim_nonneg x : nonneg_sf x → nonneg_sf (Prim2SF (SF2Prim x)).
Proof.
  destruct x as [s|s| |s m e]; simpl; try (intros ->); try done.
  rewrite Z_ldexp_spec. apply SFldexp_nonneg.
  rewrite of_uint63_spec. apply binary_normalize_nonneg.
  apply Uint63.to_Z_bounded.
Qed.

Lemma float_of_Z_nonneg z : 0 ≤ z → nonneg_sf (Prim2SF (Py.float_of_Z z)).
Proof.
  intros. apply SF2Prim_nonneg, binary_normalize_nonneg. done.
Qed.

Lemma SFmul_nonneg x y : nonneg_sf x → nonneg_sf y → nonneg_sf (SFmul prec emax x y).
Proof.
  destruct x as [s|s| |s m e], y as [s'|s'| |s' m' e']; simpl; try done;
    try (by intros -> ->).
  intros -> ->. apply binary_round_aux_nonneg.
Qed.

Lemma SFdiv_nonneg x s m e : nonneg_sf x → s = false →
  nonneg_sf (SFdiv prec emax x (S754_finite s m e)).
Proof.
  destruct x as [s'|s'| |s' m' e']; simpl; try done; try (by intros -> ->).
  intros -> ->. destruct (SFdiv_core_binary _ _ _ _ _ _) as [[mz ez] lz].
  apply binary_round_aux_nonneg.
Qed.

Lemma digits2_pos_bound m : Z.pos m < 2 ^ Z.pos (digits2_pos m).
Proof.
  induction m as [m IH|m IH|]; cbn [digits2_pos]; [| |done].
  - rewrite Pos2Z.inj_succ, Z.pow_succ_r by lia. lia.
  - rewrite Pos2Z.inj_succ, Z.pow_succ_r by lia. lia.
Qed.

Lemma valid_mantissa_bound s m e :
  valid_binary (S754_finite s m e) = true → Z.pos m < 2 ^ 53.
Proof.
  cbn [SpecFloat.valid_binary]. unfold bounded, canonical_mantissa, fexp.
  intros [Hc _]%andb_true_iff. apply Z.eqb_eq in Hc.
  pose proof (digits2_pos_bound m) as Hd.
  assert (Z.pos (digits2_pos m) ≤ 53) as Hle.
  { unfold prec, SpecFloat.emin, emax in Hc. lia. }
  eapply Z.lt_le_trans; [exact Hd|]. apply Z.pow_le_mono_r; lia.
Qed.

Lemma rne_div_bounds n d K :
  0 ≤ n → 0 < d → n < K * d → 0 ≤ Py.rne_div n d ≤ K.
Proof.
  intros Hn Hd HK. unfold Py.rne_div.
  assert (0 ≤ n / d) by (apply Z.div_pos; lia).
  assert (n / d < K) by (apply Z.div_lt_upper_bound; lia).
  destruct (2 * (n `mod` d) ?= d); [destruct (Z.even (n / d))|..]; lia.
Qed.

Lemma SFltb_finite_nonneg m e m0 e0 :
  SFltb (S754_finite false m e) (S754_finite false m0 e0) = true →
  e < e0 ∨ (e = e0 ∧ Z.pos m < Z.pos m0).
Proof.
  unfold SFltb, SFcompare.
  destruct (Z.compare_spec e e0) as [-> | He | He]; [|by left|discriminate].
  change (PosDef.Pos.compare_cont Eq m m0) with (m ?= m0)%positive.
  destruct (Pos.compare_spec m m0) as [?|Hm|?]; try discriminate.
  intros _. right. split; [done|]. lia.
Qed.

(** The integer nearest to a binary64 [m * 2^e] that is below [K * 2^-p]. *)
Lemma finite_below_rounds m e K p :
  Z.pos m < 2 ^ 53 → 0 < K → 0 < p →
  e < - p ∨ (e = - p ∧ Z.pos m < K * 2 ^ p) →
  2 ^ 53 ≤ K * 2 ^ (p + 1) →
  0 ≤ Py.rne_div (Py.mag_num m e) (Py.mag_den e) ≤ K.
Proof.
  intros Hm HK Hp Hcmp Hbig. unfold Py.mag_num, Py.mag_den.
  assert (e < 0) as He by lia.
  rewrite (Z.max_l (- e) 0), (Z.max_r e 0) by lia.
  rewrite Z.pow_0_r, Z.mul_1_r.
  assert (0 < 2 ^ (- e)) as Hpos by (apply Z.pow_pos_nonneg; lia).
  apply rne_div_bounds; [lia|lia|].
  destruct Hcmp as [Hlt | [-> Hlt]].
  - assert (2 ^ (p + 1) ≤ 2 ^ (- e)) as Hle by (apply Z.pow_le_mono_r; lia).
    assert (K * 2 ^ (p + 1) ≤ K * 2 ^ (- e)) by (apply Z.mul_le_mono_nonneg_l; lia).
    lia.
  - rewrite Z.opp_involutive. lia.
Qed.

Lemma round_below_255 v :
  nonneg_sf (Prim2SF v) → (v <? 255.0)%float = true →
  ∃ k, Flt.round v = Some k ∧ 0 ≤ k ≤ 255.
Proof.
  intros Hs Hlt. rewrite ltb_spec in Hlt.
  pose proof (Prim2SF_valid v) as Hv.
  unfold Flt.round.
  destruct (Prim2SF v) as [s|s| |s m e]; cbn [nonneg_sf] in Hs; subst.
  - exists 0. split; [reflexivity|lia].
  - discriminate Hlt.
  - discriminate Hlt.
  - apply valid_mantissa_bound in Hv.
    change (Prim2SF 255.0) with (S754_finite false (255 * 2 ^ 45) (-45)) in Hlt.
    apply SFltb_finite_nonneg in Hlt.
    eexists. split; [reflexivity|].
    apply (finite_below_rounds m e 255 45); [done|done|done| |].
    + rewrite Pos2Z.inj_mul, Pos2Z.inj_pow in Hlt. exact Hlt.
    + change (2 ^ 53) with (128 * 2 ^ (45 + 1)).
      apply Z.mul_le_mono_nonneg_r; [|done].
      apply Z.pow_nonneg. done.
Qed.

Lemma colour_index_bounds count :
  0 < count → ∃ k, Complexity.colour_index count = Some k ∧ 0 ≤ k ≤ 255.
Proof.
  intros Hc. unfold Complexity.colour_index, Flt.min.
  set (v := (255.0 * Py.float_of_Z count / 66.0)%float).
  destruct (v <? 255.0)%float eqn:Hlt.
  - destruct (round_below_255 v) as (k & Hk & Hb); [|done|].
    + unfold v. rewrite div_spec, mul_spec.
      change (Prim2SF 66.0) with (S754_finite false 4644337115725824 (-46)).
      apply SFdiv_nonneg; [|done].
      apply SFmul_nonneg; [reflexivity|]. apply float_of_Z_nonneg. lia.
    + exists k. split; [done|]. lia.
  - exists 255. split; [by vm_compute|lia].
Qed.

End FloatFacts.

(** ** complexity.py: the histogram array *)

Module HistFacts.
Import Complexity.

(** An array of [rows] rows of [cols] cells. *)
Definition shaped {A} (rows cols : Z) (arr : list (list A)) : Prop :=
  Z.of_nat (length arr) = rows ∧ Forall (λ row, Z.of_nat (length row) = cols) arr.

Lemma py_index_in_range n i :
  0 ≤ i < Z.of_nat n → py_index n i = Some (Z.to_nat i).
Proof. intros. unfold py_index. by rewrite bool_decide_eq_true_2. Qed.

Lemma get2_shaped {A} rows cols (arr : list (list A)) i j :
  shaped rows cols arr → 0 ≤ i < rows → 0 ≤ j < cols →
  ∃ row v, arr !! Z.to_nat i = Some row ∧ row !! Z.to_nat j = Some v
           ∧ get2 arr i j = Some v.
Proof.
  intros [Hrows Hcols] Hi Hj.
  destruct (lookup_lt_is_Some_2 arr (Z.to_nat i)) as [row Hrow]; [lia|].
  assert (Z.of_nat (length row) = cols) as Hlen.
  { rewrite Forall_forall in Hcols. apply Hcols. by eapply list_elem_of_lookup_2. }
  destruct (lookup_lt_is_Some_2 row (Z.to_nat j)) as [v Hv]; [lia|].
  exists row, v. split_and!; [done..|].
  unfold get2, get1. rewrite py_index_in_range by lia. simpl. rewrite Hrow. simpl.
  rewrite py_index_in_range by lia. simpl. done.
Qed.

Lemma set2_shaped {A} rows cols (arr : list (list A)) i j v :
  shaped rows cols arr → 0 ≤ i < rows → 0 ≤ j < cols →
  ∃ arr', set2 arr i j v = Some arr' ∧ shaped rows cols arr'
          ∧ ∀ i' j', 0 ≤ i' < rows → 0 ≤ j' < cols →
              get2 arr' i' j' = if decide (i' = i ∧ j' = j) then Some v else get2 arr i' j'.
Proof.
  intros Hsh Hi Hj.
  destruct (get2_shaped rows cols arr i j Hsh Hi Hj) as (row & v0 & Hrow & Hv0 & _).
  destruct Hsh as [Hrows Hcols].
  assert (Z.of_nat (length row) = cols) as Hlen.
  { rewrite Forall_forall in Hcols. apply Hcols. by eapply list_elem_of_lookup_2. }
  exists (<[Z.to_nat i := <[Z.to_nat j := v]> row]> arr).
  assert (shaped rows cols (<[Z.to_nat i := <[Z.to_nat j := v]> row]> arr)) as Hsh'.
  { split; [by rewrite length_insert|].
    apply Forall_insert; [done|]. by rewrite length_insert. }
  split_and!; [|done|].
  - unfold set2. rewrite py_index_in_range by lia. simpl. rewrite Hrow. simpl.
    rewrite py_index_in_range by lia. done.
  - intros i' j' Hi' Hj'.
    destruct (get2_shaped rows cols _ i' j' Hsh' Hi' Hj') as (row' & v' & Hrow' & Hv' & ->).
    destruct (get2_shaped rows cols arr i' j' (conj Hrows Hcols) Hi' Hj')
      as (row'' & v'' & Hrow'' & Hv'' & ->).
    destruct (decide (Z.to_nat i' = Z.to_nat i)) as [Ei|Ei].
    + rewrite Ei, list_lookup_insert_eq in Hrow' by lia. simplify_eq.
      rewrite Ei, Hrow in Hrow''. simplify_eq.
      destruct (decide (Z.to_nat j' = Z.to_nat j)) as [Ej|Ej].
      * rewrite Ej, list_lookup_insert_eq in Hv' by lia. simplify_eq.
        rewrite decide_True by lia. done.
      * rewrite list_lookup_insert_ne in Hv' by done.
        rewrite decide_False by lia. congruence.
    + rewrite list_lookup_insert_ne in Hrow' by done.
      rewrite decide_False by lia. congruence.
Qed.


Lemma pixel_range c iLat iLon :
  pixel c = Some (iLat, iLon) → 0 ≤ iLat < nLat ∧ 0 ≤ iLon < nLon.
Proof.
  unfold pixel, nLat, nLon. intros H.
  destruct (Flt.floor _) as [fLon|]; [|by simplify_option_eq].
  destruct (Flt.floor _) as [fLat|]; [|by simplify_option_eq].
  simplify_option_eq. lia.
Qed.

Lemma zeros_shaped : shaped nLat nLon zeros.
Proof.
  split; [done|]. unfold zeros. apply Forall_replicate. done.
Qed.

Lemma zeros_get2 i j : 0 ≤ i < nLat → 0 ≤ j < nLon → get2 zeros i j = Some 0.
Proof.
  intros Hi Hj.
  destruct (get2_shaped nLat nLon zeros i j zeros_shaped Hi Hj)
    as (row & v & Hrow & Hv & ->).
  unfold zeros in Hrow. apply lookup_replicate in Hrow as [-> _].
  apply lookup_replicate in Hv as [-> _]. done.
Qed.

(** The number of coordinates of a list that fall into a cell. *)
Definition hits (cs : list coord) (iLat iLon : Z) : Z :=
  Z.of_nat (length (filter (λ c, pixel c = Some (iLat, iLon)) cs)).

Lemma hits_cons c cs iLat iLon :
  hits (c :: cs) iLat iLon
  = (if decide (pixel c = Some (iLat, iLon)) then 1 else 0) + hits cs iLat iLon.
Proof.
  unfold hits. rewrite filter_cons. case_decide; simpl; lia.
Qed.

Lemma hits_bounds cs iLat iLon : 0 ≤ hits cs iLat iLon ≤ Z.of_nat (length cs).
Proof. unfold hits. pose proof (length_filter (λ c, pixel c = Some (iLat, iLon)) cs). lia. Qed.

(** One coordinate: the cell of its pixel goes up by one, modulo [2^64]. *)
Lemma count_coord_spec h c :
  shaped nLat nLon h → is_Some (pixel c) →
  ∃ h', count_coord h c = Some h' ∧ shaped nLat nLon h'
        ∧ ∀ i j n, 0 ≤ i < nLat → 0 ≤ j < nLon →
            get2 h i j = Some (n `mod` 2 ^ 64) →
            get2 h' i j
            = Some ((n + if decide (pixel c = Some (i, j)) then 1 else 0) `mod` 2 ^ 64).
Proof.
  intros Hsh [[iLat iLon] Hpx].
  destruct (pixel_range _ _ _ Hpx) as [HiLat HiLon].
  destruct (get2_shaped _ _ h iLat iLon Hsh HiLat HiLon) as (row & v & _ & _ & Hget).
  destruct (set2_shaped _ _ h iLat iLon ((v + 1) `mod` 2 ^ 64) Hsh HiLat HiLon)
    as (h' & Hset & Hsh' & Hget').
  exists h'. split_and!; [|done|].
  - unfold count_coord. rewrite Hpx. simpl. rewrite Hget. simpl. exact Hset.
  - intros i j n Hi Hj Hn. rewrite Hget' by done. rewrite Hpx.
    destruct (decide (i = iLat ∧ j = iLon)) as [[-> ->]|Hne].
    + rewrite decide_True by done. rewrite Hget in Hn. injection Hn as ->.
      by rewrite Zplus_mod_idemp_l.
    + rewrite decide_False by naive_solver. by rewrite Hn, Z.add_0_r.
Qed.

Lemma count_coords_spec cs h :
  shaped nLat nLon h → Forall (λ c, is_Some (pixel c)) cs →
  ∃ h', fold_opt count_coord cs h = Some h' ∧ shaped nLat nLon h'
        ∧ ∀ i j n, 0 ≤ i < nLat → 0 ≤ j < nLon →
            get2 h i j = Some (n `mod` 2 ^ 64) →
            get2 h' i j = Some ((n + hits cs i j) `mod` 2 ^ 64).
Proof.
  intros Hsh Hcs. revert h Hsh.
  induction Hcs as [|c cs Hc _ IH]; intros h Hsh.
  - exists h. split_and!; [done..|]. intros i j n _ _ Hn.
    by rewrite Hn, Z.add_0_r.
  - destruct (count_coord_spec h c Hsh Hc) as (h1 & Hstep & Hsh1 & Hget1).
    destruct (IH h1 Hsh1) as (h' & Hfold & Hsh' & Hget').
    exists h'. split_and!; [|done|].
    + simpl. rewrite Hstep. simpl. exact Hfold.
    + intros i j n Hi Hj Hn. rewrite hits_cons, Z.add_assoc.
      apply Hget'; [done..|]. by apply Hget1.
Qed.

Lemma fold_opt_app {A B} (f : B → A → option B) l1 l2 b :
  fold_opt f (l1 ++ l2) b = fold_opt f l1 b ≫= fold_opt f l2.
Proof.
  revert b. induction l1 as [|x l1 IH]; intros b; simpl; [done|].
  destruct (f b x); simpl; [apply IH|done].
Qed.

(** The loop over Polygons is a loop over all their ring coordinates. *)
Lemma histArr_flat polys h :
  fold_opt (λ h p, fold_opt count_coord (exterior p) h) polys h
  = fold_opt count_coord (concat (map exterior polys)) h.
Proof.
  revert h. induction polys as [|p polys IH]; intros h; simpl; [done|].
  rewrite fold_opt_app. destruct (fold_opt count_coord (exterior p) h); simpl; [apply IH|done].
Qed.

End HistFacts.

(** ** Lists of distances *)

Lemma sublist_Forall {A} (P : A → Prop) (l1 l2 : list A) :
  l1 `sublist_of` l2 → Forall P l2 → Forall P l1.
Proof.
  intros Hsub Hall. apply Forall_forall. intros x Hx.
  rewrite Forall_forall in Hall. by eapply Hall, elem_of_sublist.
Qed.

Lemma sublist_StronglySorted {A} (R : relation A) (l1 l2 : list A) :
  l1 `sublist_of` l2 → StronglySorted R l2 → StronglySorted R l1.
Proof.
  induction 1 as [|x l1 l2 Hsub IH|x l1 l2 Hsub IH]; intros Hs.
  - constructor.
  - apply StronglySorted_cons in Hs as [Hx Hs].
    constructor; [by apply IH|by eapply sublist_Forall].
  - apply StronglySorted_cons in Hs as [_ Hs]. by apply IH.
Qed.

Lemma seqZ_StronglySorted m n : StronglySorted Z.lt (seqZ m n).
Proof.
  destruct (decide (n ≤ 0)) as [Hn|Hn].
  { rewrite seqZ_nil by done. constructor. }
  rewrite <- (Z2Nat.id n) by lia. generalize (Z.to_nat n). clear n Hn.
  intros k. revert m. induction k as [|k IH]; intros m; [constructor|].
  rewrite seqZ_cons by lia. rewrite Nat2Z.inj_succ, Z.pred_succ.
  constructor; [apply IH|].
  apply Forall_forall. intros x Hx%elem_of_seqZ. lia.
Qed.

Lemma StronglySorted_lt_NoDup (l : list Z) : StronglySorted Z.lt l → NoDup l.
Proof.
  induction 1 as [|x l _ IH Hx]; constructor; [|done].
  intros Hin. rewrite Forall_forall in Hx. specialize (Hx x Hin). lia.
Qed.

(** * The specification's claims *)

(** The argument that follows a flag on a command line. *)
Fixpoint arg_after (flag : string) (cmd : list string) : option string :=
  match cmd with
  | [] => None
  | x :: rest => if String.eqb x flag then head rest else arg_after flag rest
  end.




(** The duration and the angle count of a command of ripples_flight.py,
    which tell its commands apart. *)
Definition dur_and_nAng (cmd : list string) : option string * option string :=
  (arg_after "--duration" cmd, arg_after "--nAng" cmd).

Section claims.
Context {data : Type}.
Variable python_version : string.
Variable turbo : list Complexity.rgb.
Variable polys_of : data → list polygon.
Variable png_of : list (list Complexity.rgb) → list (list (float * float)) → data.
Variable optimise : data → data.
Variable unreadable : data.
Variable MAXIMUM_VINCENTY : float.
Variable savefig : Ripples.figure data → data.
Variable video_name : list string → option Z → string.
Variable video : list (option data) → option Z → data.

Abbreviation complexity_main :=
  (Complexity.main python_version turbo polys_of png_of optimise unreadable).
Abbreviation ripples_main :=
  (Ripples.main python_version MAXIMUM_VINCENTY savefig optimise video_name video unreadable).
Abbreviation frame_step :=
  (Ripples.frame_step MAXIMUM_VINCENTY savefig optimise unreadable).

Lemma complexity_built_nodup a :
  NoDup (map (Complexity.cmd python_version a) Complexity.combs).
Proof.
  apply (NoDup_fmap_1 (arg_after "--nAng")).
  apply (bool_decide_unpack _). by vm_compute.
Qed.

Lemma ripples_built_nodup a : NoDup (RipplesFacts.built python_version a).
Proof.
  apply (NoDup_fmap_1 dur_and_nAng).
  apply (bool_decide_unpack _). by vm_compute.
Qed.

(** C1: with [--dry-run] neither script passes anything to
    [subprocess.run]; without it, the commands passed are exactly the
    commands built, in the order they are built: one per combination in
    complexity.py, one per pair of a duration and a combination in
    ripples_flight.py, and no two of them alike, so each is run once. *)
Theorem dry_run_skips_gft (ca : Complexity.args) (ra : Ripples.args)
    (fs : gmap string (node data)) :
  runs (trace (run (complexity_main ca) fs).2)
  = (if Complexity.dryRun ca then []
     else map (Complexity.cmd python_version ca) Complexity.combs)
  ∧ runs (trace (run (ripples_main ra) fs).2)
    = (if Ripples.dryRun ra then []
       else concat (map (λ dur, map (Ripples.cmd python_version ra dur) Ripples.combs)
                      (range 1 25)))
  ∧ NoDup (map (Complexity.cmd python_version ca) Complexity.combs)
  ∧ NoDup (concat (map (λ dur, map (Ripples.cmd python_version ra dur) Ripples.combs)
                     (range 1 25))).
Proof.
  split_and!.
  - apply ComplexityFacts.complexity_runs.
  - apply RipplesFacts.ripples_runs.
  - apply complexity_built_nodup.
  - apply ripples_built_nodup.
Qed.






Lemma fname_istep c dist :
  Ripples.fname c dist
  = Ripples.dname c +:+ "/istep=" +:+ Py.format_0d 6 ((1000 * dist) `div` c.1.2) +:+ ".wkb.gz".
Proof. unfold Ripples.fname. by rewrite Z.sub_add. Qed.


End claims.

Section land_claims.
Context {data geom : Type}.
Variable sfile : string → string.
Variable records : string → list (SaveAllLands.record geom).
Variable centroid_x centroid_y area : geom → float.
Variable disjoint : geom → geom → bool.
Variable intersection : geom → geom → geom.
Variable unary_union : list geom → geom.
Variable simplify : geom → float → geom.
Variable extract_polys : geom → bool → bool → list geom.
Variable buffer : geom → SaveAllLands.params geom → geom.
Variable removeInteriorRings : geom → geom.
Variable wkb_gz : geom → data.
Variable of_wkb_gz : data → geom.
Variable geojson : geom → data.
Variable unreadable : data.
Variable MAXIMUM_VINCENTY : float.
Variable savefig : Ripples.figure data → data.
Variable optimise : data → data.

Abbreviation tmpName := (SaveAllLands.tmpName centroid_x centroid_y area).
Abbreviation record_step :=
  (SaveAllLands.record_step (data := data) centroid_x centroid_y area disjoint
     intersection unary_union simplify extract_polys buffer wkb_gz).
Abbreviation make_tmp_files_of recs :=
  (SaveAllLands.make_tmp_files (data := data) sfile recs centroid_x centroid_y area
     disjoint intersection unary_union simplify extract_polys buffer wkb_gz).
Abbreviation saveAllLands_of recs :=
  (SaveAllLands.saveAllLands (data := data) sfile recs centroid_x centroid_y area
     disjoint intersection unary_union simplify extract_polys buffer
     removeInteriorRings wkb_gz of_wkb_gz geojson unreadable).
Abbreviation yields := (SaveAllLandsFacts.yields extract_polys of_wkb_gz unreadable).
Abbreviation united := (SaveAllLands.united unary_union simplify removeInteriorRings).
Abbreviation land_frame_step :=
  (Ripples.frame_step MAXIMUM_VINCENTY savefig optimise unreadable).

Lemma record_step_keeps p r (w : world data) :
  ∃ w', record_step p r w = (Some (), w') ∧ files w ⊆ files w'.
Proof.
  rewrite SaveAllLandsFacts.record_step_cases.
  destruct (SaveAllLands.avoided p r); cbn [andb]; [|by exists w].
  destruct (Fs.exists_ (files w) (tmpName p r)) eqn:Hex; cbn [negb]; [by exists w|].
  eexists. split; [done|]. unfold SaveAllLandsFacts.made.
  destruct (SaveAllLands.record_polys _ _ _ _ p r); cbn [files]; [done|].
  by apply insert_subseteq, SaveAllLandsFacts.tmp_exists_false.
Qed.

Lemma records_loop_keeps p rs (w : world data) :
  files w ⊆ files (Script.for_each rs (record_step p) w).2.
Proof.
  revert w. induction rs as [|r rs IH]; intros w; simpl; [done|].
  destruct (record_step_keeps p r w) as (w1 & Hstep & Hfs).
  unfold Script.bind. rewrite Hstep. etrans; [done|apply IH].
Qed.

Lemma frames_loop_keeps ra ds frames (w : world data) :
  files w ⊆ files (fold_script (land_frame_step ra) ds frames w).2.
Proof.
  destruct (RipplesFacts.frames_loop_spec MAXIMUM_VINCENTY savefig optimise
              unreadable ra ds frames w)
    as (ds' & tr & w' & -> & _ & _ & _ & Hfs).
  done.
Qed.

(** C2: a pass that finds its output file there (the temporary file of a
    record in saveAllLands, the frame of a distance in ripples_flight.py)
    computes nothing, writes nothing and leaves the world as it is; the
    frame is listed all the same. Over the whole of either loop, every
    file that is there stays as it is. *)
Theorem existing_outputs_are_kept (p : SaveAllLands.params geom)
    (r : SaveAllLands.record geom) (ra : Ripples.args) (frames : list string)
    (dist : Z) (w : world data) :
  (Fs.exists_ (files w) (tmpName p r) = true → record_step p r w = (Some (), w))
  ∧ (Fs.exists_ (files w) (Ripples.frame_name dist) = true →
     land_frame_step ra frames dist w = (Some (frames ++ [Ripples.frame_name dist]), w))
  ∧ (∀ rs, files w ⊆ files (Script.for_each rs (record_step p) w).2)
  ∧ (∀ ds, files w ⊆ files (fold_script (land_frame_step ra) ds frames w).2).
Proof.
  split_and!.
  - intros Hex. rewrite SaveAllLandsFacts.record_step_cases, Hex.
    by rewrite andb_false_r.
  - intros Hex. by rewrite RipplesFacts.frame_step_cases, Hex.
  - intros rs. apply records_loop_keeps.
  - intros ds. apply frames_loop_keeps.
Qed.


(** A pass works on a record when it announces the making of the
    record's temporary file (line 134); what follows is the record's
    land being extracted, clipped, buffered and saved. *)
Definition processes (p : SaveAllLands.params geom) (r : SaveAllLands.record geom)
    (fs : gmap string (node data)) : Prop :=
  SaveAllLandsFacts.making centroid_x centroid_y area p r
  ∈ trace (run (record_step p r) fs).2.

Lemma avoided_iff (p : SaveAllLands.params geom) (r : SaveAllLands.record geom) :
  SaveAllLands.avoided p r = true ↔ SaveAllLands.NAME r ∈ SaveAllLands.avoidCountries p.
Proof. unfold SaveAllLands.avoided. apply bool_decide_eq_true. Qed.

Lemma processes_iff p r fs :
  processes p r fs
  ↔ SaveAllLands.NAME r ∈ SaveAllLands.avoidCountries p ∧ Fs.exists_ fs (tmpName p r) = false.
Proof.
  unfold processes, run. rewrite SaveAllLandsFacts.record_step_cases, <- avoided_iff.
  cbn [files]. destruct (SaveAllLands.avoided p r); cbn [andb].
  2:{ cbn [snd trace]. split; [by intros ?%elem_of_nil|by intros [? _]]. }
  destruct (Fs.exists_ fs (tmpName p r)); cbn [negb snd].
  { cbn [trace]. split; [by intros ?%elem_of_nil|by intros [_ ?]]. }
  split; [done|]. intros _. unfold SaveAllLandsFacts.made.
  destruct (SaveAllLands.record_polys _ _ _ _ p r); cbn [trace app]; left.
Qed.

Lemma records_loop_filter p rs (w : world data) :
  Script.for_each rs (record_step p) w
  = Script.for_each
      (filter (λ r, SaveAllLands.NAME r ∈ SaveAllLands.avoidCountries p) rs)
      (record_step p) w.
Proof.
  revert w. induction rs as [|r rs IH]; intros w; [done|].
  rewrite filter_cons. case_decide as Hav.
  - cbn [Script.for_each]. unfold Script.bind.
    destruct (record_step p r w) as [[[]|] w1]; [apply IH|done].
  - cbn [Script.for_each]. unfold Script.bind.
    rewrite SaveAllLandsFacts.record_step_cases.
    rewrite <- avoided_iff in Hav. apply not_true_is_false in Hav. rewrite Hav.
    cbn [andb]. apply IH.
Qed.

(** C9, as the code has it: a record is worked on if and only if its NAME
    is one of [avoidCountries] (by default Baikonur, Iran, Russia and
    Ukraine) and its temporary file is not there yet. The pass over a
    record of any other country changes nothing, and such records
    contribute nothing: with them left out of the shapefile, saveAllLands
    does and returns the same. *)
Theorem avoided_records_are_processed (p : SaveAllLands.params geom)
    (r : SaveAllLands.record geom) (fs : gmap string (node data)) :
  SaveAllLands.avoidCountries_default = ["Baikonur"; "Iran"; "Russia"; "Ukraine"]
  ∧ (processes p r fs
     ↔ SaveAllLands.NAME r ∈ SaveAllLands.avoidCountries p
       ∧ Fs.exists_ fs (tmpName p r) = false)
  ∧ (SaveAllLands.NAME r ∉ SaveAllLands.avoidCountries p →
     ∀ w, record_step p r w = (Some (), w))
  ∧ (∀ w, saveAllLands_of records p w
          = saveAllLands_of
              (λ res, filter (λ r, SaveAllLands.NAME r ∈ SaveAllLands.avoidCountries p)
                        (records res)) p w).
Proof.
  split_and!; [done|apply processes_iff|..].
  - intros Hav w. rewrite SaveAllLandsFacts.record_step_cases.
    rewrite <- avoided_iff in Hav. apply not_true_is_false in Hav. by rewrite Hav.
  - intros w. unfold SaveAllLands.saveAllLands, SaveAllLands.make_tmp_files.
    unfold mbind, script_bind. unfold Script.bind at 1 2 5 6.
    unfold Script.emit. by rewrite records_loop_filter.
Qed.

End land_claims.

(** ** The rasterisation of complexity.py *)

(** [math.floor] is defined on every float that is neither NaN nor
    infinite. *)
Lemma floor_defined (x : float) : is_finite x = true → is_Some (Flt.floor x).
Proof.
  unfold is_finite. intros [Hnan Hinf]%negb_true_iff%orb_false_iff.
  unfold Flt.floor, Prim2SF. rewrite Hnan, Hinf.
  destruct (is_zero x); [by eexists|].
  destruct (Z.frexp x) as [r e]. destruct (shr_fexp _ _ _ _ _) as [mrs e'].
  destruct (shr_m mrs); by eexists.
Qed.

(** The two quotients of lines 162-163. *)
Definition qLon (c : coord) : float := ((c.1 + 180.0) / Complexity.dLon)%float.
Definition qLat (c : coord) : float := ((90.0 - c.2) / Complexity.dLat)%float.

(** A coordinate that [math.floor] accepts: both quotients are finite. *)
Definition locatable (c : coord) : Prop :=
  is_finite (qLon c) = true ∧ is_finite (qLat c) = true.

Lemma pixel_defined (c : coord) : locatable c → is_Some (Complexity.pixel c).
Proof.
  intros [[fLon HLon]%floor_defined [fLat HLat]%floor_defined].
  unfold Complexity.pixel. fold (qLon c) (qLat c). rewrite HLon, HLat. by eexists.
Qed.

(** The cell of a coordinate in the specification's words: the floors of
    [(lon + 180) / 10] and [(90 - lat) / 10], clamped to [0, 35] and
    [0, 17]. *)
Definition clamp (lo hi x : Z) : Z := Z.max lo (Z.min hi x).

Definition in_cell (iLat iLon : Z) (c : coord) : Prop :=
  clamp 0 35 <$> Flt.floor ((c.1 + 180.0) / 10.0)%float = Some iLon
  ∧ clamp 0 17 <$> Flt.floor ((90.0 - c.2) / 10.0)%float = Some iLat.

Global Instance in_cell_dec iLat iLon c : Decision (in_cell iLat iLon c).
Proof. unfold in_cell. apply _. Defined.

Lemma pixel_in_cell c iLat iLon :
  Complexity.pixel c = Some (iLat, iLon) ↔ in_cell iLat iLon c.
Proof.
  unfold Complexity.pixel, in_cell, clamp, Complexity.dLon, Complexity.dLat,
    Complexity.nLon, Complexity.nLat.
  destruct (Flt.floor ((c.1 + 180) / 10)%float) as [fLon|],
    (Flt.floor ((90 - c.2) / 10)%float) as [fLat|]; csimpl.
  - split; [by intros [= <- <-]|by intros [[= <-] [= <-]]].
  - split; [done|by intros [_ ?]].
  - split; [done|by intros [? _]].
  - split; [done|by intros [? _]].
Qed.

Lemma hits_in_cell cs iLat iLon :
  HistFacts.hits cs iLat iLon = Z.of_nat (length (filter (in_cell iLat iLon) cs)).
Proof.
  unfold HistFacts.hits. f_equal. induction cs as [|c cs IH]; [done|].
  rewrite !filter_cons.
  destruct (decide (Complexity.pixel c = Some (iLat, iLon))) as [H|H].
  - rewrite decide_True by (by apply pixel_in_cell). simpl. by rewrite IH.
  - rewrite decide_False by (by rewrite <- pixel_in_cell). done.
Qed.

(** C6: for Polygons whose ring coordinates [math.floor] accepts (fewer
    than [2^64] of them, the range of a cell), the histogram array is
    computed and its entry at [(iLat, iLon)] is the number of exterior-ring
    coordinates, over all Polygons, that fall into that cell; a cell that
    receives none holds zero. *)
Theorem histArr_counts_coordinates (polys : list polygon) :
  let cs := concat (map exterior polys) in
  Forall locatable cs → Z.of_nat (length cs) < 2 ^ 64 →
  ∃ h, Complexity.histArr polys = Some h
       ∧ ∀ iLat iLon, 0 ≤ iLat < 18 → 0 ≤ iLon < 36 →
           get2 h iLat iLon = Some (Z.of_nat (length (filter (in_cell iLat iLon) cs)))
           ∧ (Forall (λ c, ¬ in_cell iLat iLon c) cs → get2 h iLat iLon = Some 0).
Proof.
  intros cs Hcs Hlen.
  destruct (HistFacts.count_coords_spec cs Complexity.zeros HistFacts.zeros_shaped)
    as (h & Hfold & _ & Hget).
  { eapply Forall_impl; [done|]. apply pixel_defined. }
  exists h. split; [unfold Complexity.histArr; by rewrite HistFacts.histArr_flat|].
  intros iLat iLon HiLat HiLon.
  assert (get2 h iLat iLon = Some (Z.of_nat (length (filter (in_cell iLat iLon) cs))))
    as Hcell.
  { rewrite (Hget iLat iLon 0 HiLat HiLon) by (by apply HistFacts.zeros_get2).
    rewrite Z.add_0_l, Z.mod_small, hits_in_cell; [done|].
    pose proof (HistFacts.hits_bounds cs iLat iLon). lia. }
  split; [done|]. intros Hnone. rewrite Hcell. do 2 f_equal.
  clear -Hnone. induction Hnone as [|c cs Hc _ IH]; [done|].
  by rewrite filter_cons, decide_False.
Qed.

(** C8: every index the rasterisation computes is in bounds. For a
    locatable coordinate the pixel is computed, [iLat] is in [0, 17] and
    [iLon] in [0, 35], so the increment of the 18 by 36 array succeeds; no
    pixel that is computed at all is outside; and for every count of a
    non-empty unsigned 64-bit cell the colour index is computed and in
    [0, 255], so the look-up in a table of 256 colours succeeds. *)
Theorem indices_in_bounds (c : coord) (count : Z) (h : list (list Z))
    (turbo : list Complexity.rgb) :
  (locatable c →
   ∃ iLat iLon, Complexity.pixel c = Some (iLat, iLon)
                ∧ 0 ≤ iLat ≤ 17 ∧ 0 ≤ iLon ≤ 35
                ∧ (HistFacts.shaped Complexity.nLat Complexity.nLon h →
                   is_Some (Complexity.count_coord h c)))
  ∧ (∀ iLat iLon, Complexity.pixel c = Some (iLat, iLon) →
       0 ≤ iLat ≤ 17 ∧ 0 ≤ iLon ≤ 35)
  ∧ (0 < count < 2 ^ 64 →
     ∃ k, Complexity.colour_index count = Some k ∧ 0 ≤ k ≤ 255
          ∧ (length turbo = 256%nat → is_Some (get1 turbo k))).
Proof.
  split_and!.
  - intros Hc. destruct (pixel_defined c Hc) as [[iLat iLon] Hpx].
    destruct (HistFacts.pixel_range _ _ _ Hpx) as [HiLat HiLon].
    unfold Complexity.nLat, Complexity.nLon in *.
    exists iLat, iLon. split_and!; [done|lia..|].
    intros Hsh. destruct (HistFacts.count_coord_spec h c Hsh) as (h' & -> & _); [|done].
    by eexists.
  - intros iLat iLon Hpx. destruct (HistFacts.pixel_range _ _ _ Hpx) as [HiLat HiLon].
    unfold Complexity.nLat, Complexity.nLon in *. lia.
  - intros [Hpos _]. destruct (FloatFacts.colour_index_bounds count Hpos) as (k & Hk & Hb).
    exists k. split_and!; [done|lia..|].
    intros Hlen. unfold get1. rewrite HistFacts.py_index_in_range by lia.
    simpl. apply lookup_lt_is_Some. lia.
Qed.

(** ** Paths *)

Lemma chars_app (s1 s2 : string) : Str.chars (s1 +:+ s2) = Str.chars s1 ++ Str.chars s2.
Proof. induction s1 as [|c s1 IH]; [done|]. simpl. by rewrite <- IH. Qed.

Lemma text_chars (s : string) : Str.text (Str.chars s) = s.
Proof. apply String.string_of_list_ascii_of_string. Qed.

Lemma string_app_assoc (s1 s2 s3 : string) : (s1 +:+ s2) +:+ s3 = s1 +:+ s2 +:+ s3.
Proof.
  induction s1 as [|c s1 IH]; [done|].
  change (String c ((s1 +:+ s2) +:+ s3) = String c (s1 +:+ s2 +:+ s3)). by rewrite IH.
Qed.

(** A text without a slash. *)
Definition no_slash (s : string) : Prop := Forall (λ c, c ≠ OsPath.slash) (Str.chars s).

Lemma no_slash_app s1 s2 : no_slash s1 → no_slash s2 → no_slash (s1 +:+ s2).
Proof. unfold no_slash. rewrite chars_app. apply Forall_app_2. Qed.

Lemma no_slash_literal s :
  forallb (λ c, negb (Str.eqb_char c OsPath.slash)) (Str.chars s) = true → no_slash s.
Proof.
  intros H. apply Forall_forall. intros c Hc%list_elem_of_In Heq.
  apply (proj1 (forallb_forall _ _) H) in Hc. subst c. done.
Qed.

Lemma no_slash_pretty_N_go (x : N) (s : string) : no_slash s → no_slash (pretty_N_go x s).
Proof.
  revert s. induction (N.lt_wf_0 x) as [x _ IH]; intros s Hs.
  destruct (decide (x = 0)%N) as [->|Hx]; [by rewrite pretty_N_go_0|].
  rewrite pretty_N_go_step by lia. apply IH; [apply N.div_lt; lia|].
  constructor; [|done]. unfold pretty_N_char. by repeat case_match.
Qed.

Lemma no_slash_pretty (z : Z) : no_slash (pretty z).
Proof.
  assert (∀ p : positive, no_slash (pretty p)) as Hpos.
  { intros p. unfold pretty, pretty_positive, pretty, pretty_N.
    case_decide; [by apply no_slash_literal|]. apply no_slash_pretty_N_go. constructor. }
  destruct z as [|p|p]; [by apply no_slash_literal|apply Hpos|].
  change (pretty (Z.neg p)) with ("-" +:+ pretty p).
  apply no_slash_app; [by apply no_slash_literal|apply Hpos].
Qed.

Lemma no_slash_repeat n : no_slash (Py.str_repeat "0" n).
Proof. induction n as [|n IH]; [constructor|]. by constructor. Qed.

Lemma no_slash_format_0d width z : no_slash (Py.format_0d width z).
Proof.
  unfold Py.format_0d, Py.zero_pad, Py.rjust, Py.sign_of.
  apply no_slash_app; [destruct (z <? 0); by apply no_slash_literal|].
  apply no_slash_app; [apply no_slash_repeat|apply no_slash_pretty].
Qed.

Lemma cut_rev_no_slash l1 l2 tail :
  Forall (λ c, c ≠ OsPath.slash) l1 →
  OsPath.cut_rev (l1 ++ OsPath.slash :: l2) tail
  = (rev (OsPath.slash :: l2), rev l1 ++ tail).
Proof.
  intros Hl1. revert tail. induction Hl1 as [|c l1 Hc _ IH]; intros tail; [done|].
  cbn [app OsPath.cut_rev]. unfold Str.eqb_char.
  rewrite (proj2 (Ascii.eqb_neq c OsPath.slash)) by done.
  rewrite IH. cbn [rev]. by rewrite <- app_assoc.
Qed.

(** [os.path.dirname] takes the last component off a path. *)
Lemma dirname_join (d name : string) (c : ascii) :
  no_slash name → last (Str.chars d) = Some c → c ≠ OsPath.slash →
  OsPath.dirname (d +:+ "/" +:+ name) = d.
Proof.
  intros Hname [l Hl]%last_Some Hc.
  unfold OsPath.dirname, OsPath.cut.
  rewrite !chars_app. change (Str.chars "/") with [OsPath.slash].
  assert (OsPath.cut_rev (rev (Str.chars d ++ [OsPath.slash] ++ Str.chars name)) []
          = (Str.chars d ++ [OsPath.slash], Str.chars name)) as ->.
  { rewrite !rev_app_distr. cbn [rev app]. rewrite <- app_assoc. cbn [app].
    rewrite cut_rev_no_slash by (by apply Forall_rev).
    cbn [rev]. by rewrite !rev_involutive, app_nil_r. }
  cbn [fst]. rewrite rev_app_distr. cbn [rev app OsPath.rstrip_slash_rev].
  unfold Str.eqb_char at 1. rewrite Ascii.eqb_refl.
  rewrite Hl at 1. rewrite rev_app_distr. cbn [rev app OsPath.rstrip_slash_rev].
  unfold Str.eqb_char. rewrite (proj2 (Ascii.eqb_neq c OsPath.slash)) by done.
  cbn [rev]. rewrite rev_involutive, <- Hl. apply text_chars.
Qed.

(** The path of a limit file in the specification's words:
    [res={neRes}_cons=2.00e+00_tol=1.00e-10/local=F_nAng={nAng}_prec={prec:.2e}/]
    [freqLand={freqLand}_freqSimp={freqSimp}_lon={lon:+011.6f}_lat={lat:+010.6f}/]
    [limit/istep={istep:06d}.wkb.gz]. *)
Definition limit_path (neRes : string) (nAng prec freqLand freqSimp : Z)
    (lon lat : float) (istep : Z) : string :=
  "res=" +:+ neRes +:+ "_cons=2.00e+00_tol=1.00e-10/local=F_nAng=" +:+ Py.format_d nAng
  +:+ "_prec=" +:+ Py.format_e Py.e2 (Py.float_of_Z prec)
  +:+ "/freqLand=" +:+ Py.format_d freqLand +:+ "_freqSimp=" +:+ Py.format_d freqSimp
  +:+ "_lon=" +:+ Py.format_f Py.plus_011_f6 lon
  +:+ "_lat=" +:+ Py.format_f Py.plus_010_f6 lat
  +:+ "/limit/istep=" +:+ Py.format_0d 6 istep +:+ ".wkb.gz".

(** The path of the land of a resolution, angle count and precision. *)
Definition lands_path (neRes : string) (nAng prec : Z) : string :=
  "res=" +:+ neRes +:+ "_cons=2.00e+00_tol=1.00e-10/local=F_nAng=" +:+ Py.format_d nAng
  +:+ "_prec=" +:+ Py.format_e Py.e2 (Py.float_of_Z prec) +:+ "/allLands.wkb.gz".

(** The limit file of a combination of ripples_flight.py at a step. *)
Definition limit_path_of (c : Ripples.comb) (istep : Z) : string :=
  limit_path c.1.1.2 c.1.1.1 c.1.2 ((8 * 928000) `div` c.1.2) (928000 `div` c.1.2)
    Ripples.lon Ripples.lat istep.

Lemma fname_limit_path c dist :
  Ripples.fname c dist = limit_path_of c ((1000 * dist) `div` c.1.2).
Proof.
  rewrite fname_istep. destruct c as [[[nAng neRes] prec] color].
  unfold limit_path_of, limit_path, Ripples.dname, Ripples.lonlat. cbn [fst snd].
  by rewrite !string_app_assoc.
Qed.

Lemma complexity_fname_lands_path c :
  Complexity.fname c = lands_path c.1.1.2 c.1.1.1 c.1.2.
Proof.
  destruct c as [[[nAng neRes] prec] color].
  unfold Complexity.fname, Complexity.dname, lands_path. cbn [fst snd].
  by rewrite !string_app_assoc.
Qed.

Lemma allLands_lands_path c dist :
  c ∈ Ripples.combs →
  Ripples.allLands_of (Ripples.fname c dist) = lands_path c.1.1.2 c.1.1.1 c.1.2.
Proof.
  intros Hc. unfold Ripples.allLands_of. rewrite fname_istep.
  assert (∀ d name,
            OsPath.dirname (d +:+ "/istep=" +:+ name)
            = OsPath.dirname (d +:+ "/" +:+ "istep=" +:+ name)) as E by done.
  rewrite E. clear E.
  assert (no_slash ("istep=" +:+ Py.format_0d 6 ((1000 * dist) `div` c.1.2) +:+ ".wkb.gz"))
    as Hname.
  { apply no_slash_app; [by apply no_slash_literal|].
    apply no_slash_app; [apply no_slash_format_0d|by apply no_slash_literal]. }
  revert Hname. generalize ("istep=" +:+ Py.format_0d 6 ((1000 * dist) `div` c.1.2) +:+ ".wkb.gz").
  intros name Hname.
  repeat (apply elem_of_cons in Hc as [->|Hc]);
    [..|by apply elem_of_nil in Hc];
    by rewrite (dirname_join _ name "t").
Qed.

(** Events that touch no file of the scripts' input and output. *)
Definition no_io (e : event) : Prop :=
  match e with EvRead _ | EvWrite _ => False | _ => True end.

Lemma reads_app tr1 tr2 : reads (tr1 ++ tr2) = reads tr1 ++ reads tr2.
Proof. apply omap_app. Qed.

Lemma reads_no_io tr : Forall no_io tr → reads tr = [].
Proof. induction 1 as [|e tr He _ IH]; [done|]. by destruct e. Qed.

Lemma writes_no_io tr : Forall no_io tr → writes tr = [].
Proof. induction 1 as [|e tr He _ IH]; [done|]. by destruct e. Qed.

Lemma reads_Forall (ok : event → Prop) (P : string → Prop) tr :
  (∀ p, ok (EvRead p) → P p) → Forall ok tr → Forall P (reads tr).
Proof.
  intros HP. induction 1 as [|e tr He _ IH]; [constructor|].
  destruct e; simpl; auto.
Qed.

Lemma writes_Forall (ok : event → Prop) (P : string → Prop) tr :
  (∀ p, ok (EvWrite p) → P p) → Forall ok tr → Forall P (writes tr).
Proof.
  intros HP. induction 1 as [|e tr He _ IH]; [constructor|].
  destruct e; simpl; auto.
Qed.

Section path_claims.
Context {data : Type}.
Variable python_version : string.
Variable turbo : list Complexity.rgb.
Variable polys_of : data → list polygon.
Variable png_of : list (list Complexity.rgb) → list (list (float * float)) → data.
Variable optimise : data → data.
Variable unreadable : data.
Variable MAXIMUM_VINCENTY : float.
Variable savefig : Ripples.figure data → data.
Variable video_name : list string → option Z → string.
Variable video : list (option data) → option Z → data.

Lemma complexity_sweep_no_io a :
  Forall no_io (concat (map (ComplexityFacts.sweep_events python_version a) Complexity.combs)).
Proof.
  apply Forall_concat, Forall_fmap, Forall_forall. intros c _.
  unfold ComplexityFacts.sweep_events. destruct (Complexity.dryRun a); by repeat constructor.
Qed.

Lemma ripples_sweep_no_io a : Forall no_io (RipplesFacts.sweep_trace python_version a).
Proof.
  apply Forall_concat, Forall_fmap, Forall_forall. intros dur _.
  apply Forall_concat, Forall_fmap, Forall_forall. intros c _.
  unfold RipplesFacts.sweep_events. destruct (Ripples.dryRun a); by repeat constructor.
Qed.

Lemma video_no_io frames : Forall no_io (RipplesFacts.video_events video_name frames).
Proof. by repeat constructor. Qed.

Lemma ripples_trace_io (ra : Ripples.args) (fs : gmap string (node data)) :
  Forall (λ e, RipplesFacts.ok e ∨ no_io e)
    (trace (run (Ripples.main python_version MAXIMUM_VINCENTY savefig optimise
                   video_name video unreadable ra) fs).2).
Proof.
  destruct (RipplesFacts.ripples_spec python_version MAXIMUM_VINCENTY savefig optimise
              unreadable video_name video ra fs)
    as (tr1 & tr2 & o & w' & -> & Hok1 & Hok2 & Hr).
  assert (∀ tr, Forall RipplesFacts.ok tr → Forall (λ e, RipplesFacts.ok e ∨ no_io e) tr)
    as Hl by (intros tr Htr; eapply Forall_impl; [exact Htr|]; tauto).
  assert (∀ tr, Forall no_io tr → Forall (λ e, RipplesFacts.ok e ∨ no_io e) tr)
    as Hr' by (intros tr Htr; eapply Forall_impl; [exact Htr|]; tauto).
  pose proof (ripples_sweep_no_io ra) as Hsweep.
  cbn [snd]. destruct o as [u|].
  - destruct Hr as (ds & _ & ->). pose proof (video_no_io (map Ripples.frame_name ds)).
    rewrite !Forall_app. split_and!; auto.
  - rewrite Hr, !Forall_app. split_and!; auto.
Qed.

(** C7: the files the scripts read and write are addressed by fixed
    functions of their parameters. The limit file of a combination and a
    distance is the specification's template filled in with the
    combination's resolution, angle count and precision, the frequencies
    derived from the precision, the starting point and the step index; the
    land file of a combination is the template of its resolution, angle
    count and precision, whether complexity.py builds it or
    ripples_flight.py derives it from a limit file. Every path a run
    reads is one of these for one of the three combinations, and every
    path it writes is the image of a combination or the frame of a
    distance. Equal parameters give equal paths. *)
Theorem paths_follow_convention (ca : Complexity.args) (ra : Ripples.args)
    (fs : gmap string (node data)) :
  (∀ c dist, Ripples.fname c dist = limit_path_of c ((1000 * dist) `div` c.1.2))
  ∧ (∀ c : Complexity.comb, Complexity.fname c = lands_path c.1.1.2 c.1.1.1 c.1.2)
  ∧ (∀ c dist, c ∈ Ripples.combs →
       Ripples.allLands_of (Ripples.fname c dist) = lands_path c.1.1.2 c.1.1.1 c.1.2)
  ∧ Forall (λ p, ∃ c : Complexity.comb,
                   c ∈ Complexity.combs ∧ p = lands_path c.1.1.2 c.1.1.1 c.1.2)
      (reads (trace (run (Complexity.main python_version turbo polys_of png_of optimise
                            unreadable ca) fs).2))
  ∧ Forall (λ p, ∃ c : Complexity.comb, c ∈ Complexity.combs ∧ p = Complexity.png_name c)
      (writes (trace (run (Complexity.main python_version turbo polys_of png_of optimise
                             unreadable ca) fs).2))
  ∧ Forall (λ p, ∃ c : Ripples.comb,
                   c ∈ Ripples.combs
                   ∧ (p = lands_path c.1.1.2 c.1.1.1 c.1.2
                      ∨ ∃ istep, p = limit_path_of c istep))
      (reads (trace (run (Ripples.main python_version MAXIMUM_VINCENTY savefig optimise
                            video_name video unreadable ra) fs).2))
  ∧ Forall (λ p, ∃ dist, p = Ripples.frame_name dist)
      (writes (trace (run (Ripples.main python_version MAXIMUM_VINCENTY savefig optimise
                             video_name video unreadable ra) fs).2))
  ∧ (∀ neRes nAng prec freqLand freqSimp lon lat istep
       neRes' nAng' prec' freqLand' freqSimp' lon' lat' istep',
       (neRes, nAng, prec, freqLand, freqSimp, lon, lat, istep)
       = (neRes', nAng', prec', freqLand', freqSimp', lon', lat', istep') →
       limit_path neRes nAng prec freqLand freqSimp lon lat istep
       = limit_path neRes' nAng' prec' freqLand' freqSimp' lon' lat' istep').
Proof.
  split_and!.
  - apply fname_limit_path.
  - apply complexity_fname_lands_path.
  - apply allLands_lands_path.
  - unfold run.
    destruct (ComplexityFacts.complexity_trace python_version turbo polys_of png_of
                optimise unreadable ca (World fs [])) as (tr & -> & Hok).
    cbn [trace app]. rewrite reads_app, (reads_no_io _ (complexity_sweep_no_io ca)).
    eapply reads_Forall; [|done]. intros p (c & Hc & ->).
    exists c. split; [done|apply complexity_fname_lands_path].
  - unfold run.
    destruct (ComplexityFacts.complexity_trace python_version turbo polys_of png_of
                optimise unreadable ca (World fs [])) as (tr & -> & Hok).
    cbn [trace app].
    rewrite SaveAllLandsFacts.writes_app, (writes_no_io _ (complexity_sweep_no_io ca)).
    eapply writes_Forall; [|done]. by intros p Hp.
  - pose proof (ripples_trace_io ra fs) as Hall.
    eapply reads_Forall; [|exact Hall]. intros p [(c & dist & Hc & [-> | ->]) | []].
    + exists c. split; [done|]. right. eexists. apply fname_limit_path.
    + exists c. split; [done|]. left. by apply allLands_lands_path.
  - pose proof (ripples_trace_io ra fs) as Hall.
    eapply writes_Forall; [|exact Hall]. by intros p [Hp | []].
  - intros. by simplify_eq.
Qed.

End path_claims.

(** ** Worked examples *)

Module Examples.

(** A stand-in for the libraries: a geometry is the list of its Polygons'
    numbers, a file holds such a list. *)
Definition geom : Type := list Z.
Definition data : Type := list Z.

Definition centroid_x (g : geom) : float := Py.float_of_Z (default 0 (head g)).
Definition centroid_y (g : geom) : float := 55.75%float.
Definition area (g : geom) : float := Py.float_of_Z (Z.of_nat (length g)).
Definition disjoint (reach g : geom) : bool := false.
Definition intersection (reach g : geom) : geom := g.
Definition unary_union (gs : list geom) : geom := concat gs.
Definition simplify (g : geom) (tol : float) : geom := g.
Definition extract_polys (g : geom) (onlyValid repair : bool) : list geom := map (λ x, [x]) g.
Definition buffer (g : geom) (p : SaveAllLands.params geom) : geom := g.
Definition removeInteriorRings (g : geom) : geom := g.
Definition wkb_gz (g : geom) : data := g.
Definition of_wkb_gz (d : data) : geom := d.
Definition geojson (g : geom) : data := g.
Definition unreadable : data := [].
Definition savefig (f : Ripples.figure data) : data := [Z.of_nat (length (Ripples.fig_limits data f))].
Definition optimise (d : data) : data := d.

Definition sfile (res : string) : string := "ne_" +:+ res +:+ "_admin_0_countries.shp".

Definition russia : SaveAllLands.record geom := SaveAllLands.Record_ "Russia" [1; 2].
Definition france : SaveAllLands.record geom := SaveAllLands.Record_ "France" [3].

Definition records (res : string) : list (SaveAllLands.record geom) := [russia; france].

Definition params : SaveAllLands.params geom :=
  SaveAllLands.Params "out/allLands.wkb.gz" "out/allLands" SaveAllLands.avoidCountries_default
    false 0.0 1.0 "" false None 9 100 "110m" 0.0 1.0e-10.

Definition ripples_args : Ripples.args := Ripples.Args false true None None false 60.0.


(** The three limit files of a distance. *)
Definition limit_files (dist : Z) : gmap string (node data) :=
  list_to_map (map (λ c, (Ripples.fname c dist, File [dist])) Ripples.combs).

(** The temporary file of Russia, already there. *)
Definition russia_done : gmap string (node data) :=
  {[ SaveAllLands.tmpName centroid_x centroid_y area params russia := File [1; 2] ]}.

(** The empty disk. *)
Definition empty_disk : gmap string (node data) := ∅.

Abbreviation record_step :=
  (SaveAllLands.record_step (data := data) centroid_x centroid_y area disjoint intersection
     unary_union simplify extract_polys buffer wkb_gz).
Abbreviation saveAllLands :=
  (SaveAllLands.saveAllLands (data := data) sfile records centroid_x centroid_y area disjoint
     intersection unary_union simplify extract_polys buffer removeInteriorRings wkb_gz
     of_wkb_gz geojson unreadable).
Abbreviation frame_step := (Ripples.frame_step 1.0e7 savefig optimise unreadable).
Abbreviation tmpName := (SaveAllLands.tmpName centroid_x centroid_y area).

End Examples.

(** Whether the stand-in's pass works on a record. *)
Definition works_on (r : SaveAllLands.record Examples.geom)
    (fs : gmap string (node Examples.data)) : Prop :=
  processes (data := Examples.data) Examples.centroid_x Examples.centroid_y Examples.area
    Examples.disjoint Examples.intersection Examples.unary_union Examples.simplify
    Examples.extract_polys Examples.buffer Examples.wkb_gz Examples.params r fs.


(** Four coordinates in three cells. *)
Lemma histArr_counts_coordinates_witness :
  let polys := [Polygon [(0.5, 0.5); (15.0, -20.0); (0.7, 0.2)]%float;
                Polygon [(-180.0, 90.0)]%float] in
  Forall locatable (concat (map exterior polys))
  ∧ Z.of_nat (length (concat (map exterior polys))) < 2 ^ 64
  ∧ ∃ h, Complexity.histArr polys = Some h
         ∧ get2 h 8 18 = Some 2 ∧ get2 h 11 19 = Some 1 ∧ get2 h 0 0 = Some 1
         ∧ get2 h 5 5 = Some 0.
Proof.
  intros polys.
  assert (Forall locatable (concat (map exterior polys))) as Hloc.
  { repeat constructor. }
  assert (Z.of_nat (length (concat (map exterior polys))) < 2 ^ 64) as Hlen by reflexivity.
  split; [exact Hloc|]. split; [exact Hlen|].
  destruct (histArr_counts_coordinates polys Hloc Hlen) as (h & Hh & Hget).
  exists h. split; [exact Hh|].
  split_and!.
  - destruct (Hget 8 18) as [-> _]; [lia|lia|]. vm_compute. reflexivity.
  - destruct (Hget 11 19) as [-> _]; [lia|lia|]. vm_compute. reflexivity.
  - destruct (Hget 0 0) as [-> _]; [lia|lia|]. vm_compute. reflexivity.
  - destruct (Hget 5 5) as [_ H5]; [lia|lia|]. apply H5.
    repeat constructor; intros [H1 H2]; vm_compute in H1; discriminate H1.
Defined.



(** A disk that holds the temporary file of Russia and the frame of 5 km. *)
Lemma existing_outputs_are_kept_witness :
  let w := World (<[Ripples.frame_name 5 := File [5]]> Examples.russia_done) [] in
  Fs.exists_ (files w) (Examples.tmpName Examples.params Examples.russia) = true
  ∧ Fs.exists_ (files w) (Ripples.frame_name 5) = true
  ∧ Examples.record_step Examples.params Examples.russia w = (Some (), w)
  ∧ Examples.frame_step Examples.ripples_args [] 5 w = (Some [Ripples.frame_name 5], w).
Proof.
  intros w.
  assert (Fs.exists_ (files w) (Examples.tmpName Examples.params Examples.russia) = true) as Htmp
    by (vm_compute; reflexivity).
  assert (Fs.exists_ (files w) (Ripples.frame_name 5) = true) as Hframe
    by (vm_compute; reflexivity).
  destruct (existing_outputs_are_kept Examples.centroid_x Examples.centroid_y Examples.area
              Examples.disjoint Examples.intersection Examples.unary_union Examples.simplify
              Examples.extract_polys Examples.buffer Examples.wkb_gz Examples.unreadable
              1.0e7 Examples.savefig Examples.optimise Examples.params Examples.russia
              Examples.ripples_args [] 5 w) as (Hrec & Hfr & _).
  split_and!; [exact Htmp|exact Hframe|exact (Hrec Htmp)|exact (Hfr Hframe)].
Defined.


(** The largest and the smallest finite float as a coordinate, and the
    largest count of a cell. *)
Lemma indices_in_bounds_witness :
  let c : coord := (1.7976931348623157e308, -1.7976931348623157e308)%float in
  locatable c
  ∧ 0 < 2 ^ 64 - 1 < 2 ^ 64
  ∧ HistFacts.shaped Complexity.nLat Complexity.nLon Complexity.zeros
  ∧ (∃ iLat iLon, Complexity.pixel c = Some (iLat, iLon)
                  ∧ 0 ≤ iLat ≤ 17 ∧ 0 ≤ iLon ≤ 35
                  ∧ is_Some (Complexity.count_coord Complexity.zeros c))
  ∧ (∃ k, Complexity.colour_index (2 ^ 64 - 1) = Some k ∧ 0 ≤ k ≤ 255
          ∧ is_Some (get1 (replicate 256 (0, 0, 0)) k)).
Proof.
  intros c.
  assert (locatable c) as Hloc by (split; vm_compute; reflexivity).
  assert (0 < 2 ^ 64 - 1 < 2 ^ 64) as Hcount by (split; reflexivity).
  pose proof HistFacts.zeros_shaped as Hshaped.
  destruct (indices_in_bounds c (2 ^ 64 - 1) Complexity.zeros (replicate 256 (0, 0, 0)))
    as (Hpx & _ & Hcol).
  split; [exact Hloc|]. split; [exact Hcount|]. split; [exact Hshaped|]. split.
  - destruct (Hpx Hloc) as (iLat & iLon & Hp & HiLat & HiLon & Hinc).
    exists iLat, iLon. exact (conj Hp (conj HiLat (conj HiLon (Hinc Hshaped)))).
  - destruct (Hcol Hcount) as (k & Hk & Hb & Hget).
    exists k. exact (conj Hk (conj Hb (Hget eq_refl))).
Defined.

(** On an empty disk Russia is worked on and France is not. *)
Lemma avoided_records_are_processed_witness :
  SaveAllLands.NAME Examples.russia ∈ SaveAllLands.avoidCountries Examples.params
  ∧ Fs.exists_ Examples.empty_disk
      (Examples.tmpName Examples.params Examples.russia) = false
  ∧ works_on Examples.russia Examples.empty_disk
  ∧ (SaveAllLands.NAME Examples.france ∉ SaveAllLands.avoidCountries Examples.params)
  ∧ run (Examples.record_step Examples.params Examples.france) Examples.empty_disk
    = (Some (), World Examples.empty_disk []).
Proof.
  assert (SaveAllLands.NAME Examples.russia ∈ SaveAllLands.avoidCountries Examples.params)
    as Hin by (apply (bool_decide_unpack _); vm_compute; exact I).
  assert (Fs.exists_ Examples.empty_disk
            (Examples.tmpName Examples.params Examples.russia) = false)
    as Hnew by (vm_compute; reflexivity).
  assert (SaveAllLands.NAME Examples.france ∉ SaveAllLands.avoidCountries Examples.params)
    as Hout by (apply (bool_decide_unpack _); vm_compute; exact I).
  destruct (avoided_records_are_processed Examples.sfile Examples.records Examples.centroid_x
              Examples.centroid_y Examples.area Examples.disjoint Examples.intersection
              Examples.unary_union Examples.simplify Examples.extract_polys Examples.buffer
              Examples.removeInteriorRings Examples.wkb_gz Examples.of_wkb_gz
              Examples.geojson Examples.unreadable Examples.params Examples.russia Examples.empty_disk)
    as (_ & Hiff & _).
  destruct (avoided_records_are_processed Examples.sfile Examples.records Examples.centroid_x
              Examples.centroid_y Examples.area Examples.disjoint Examples.intersection
              Examples.unary_union Examples.simplify Examples.extract_polys Examples.buffer
              Examples.removeInteriorRings Examples.wkb_gz Examples.of_wkb_gz
              Examples.geojson Examples.unreadable Examples.params Examples.france Examples.empty_disk)
    as (_ & _ & Hskip & _).
  split_and!; [exact Hin|exact Hnew| |exact Hout|exact (Hskip Hout _)].
  apply Hiff. split; [exact Hin|exact Hnew].
Defined.

(** The claim as worded fails on a record to avoid whose temporary file
    is there: Russia is in the list, yet the pass does not work on it and
    leaves the world as it is. *)
Lemma avoided_record_not_processed :
  SaveAllLands.NAME Examples.russia ∈ SaveAllLands.avoidCountries Examples.params
  ∧ ¬ works_on Examples.russia Examples.russia_done
  ∧ run (Examples.record_step Examples.params Examples.russia) Examples.russia_done
    = (Some (), World Examples.russia_done [])
  ∧ ¬ (works_on Examples.russia Examples.russia_done
       ↔ SaveAllLands.NAME Examples.russia ∈ SaveAllLands.avoidCountries Examples.params).
Proof.
  assert (SaveAllLands.NAME Examples.russia ∈ SaveAllLands.avoidCountries Examples.params)
    as Hin by (apply (bool_decide_unpack _); vm_compute; exact I).
  assert (¬ works_on Examples.russia Examples.russia_done) as Hnot.
  { unfold works_on. rewrite processes_iff. intros [_ Hex].
    vm_compute in Hex. discriminate Hex. }
  split_and!; [exact Hin|exact Hnot|vm_compute; reflexivity|].
  intros Hiff. apply Hnot, Hiff, Hin.
Qed.

(** * Further properties of the scripts *)

(** ** Step numbers in file names *)

Module NameFacts.

(** A text of decimal digits. *)
Definition digits (l : list ascii) : Prop := Forall (λ c, Str.is_digit c = true) l.

Lemma pretty_N_char_digit (x : N) : Str.is_digit (pretty_N_char x) = true.
Proof. unfold pretty_N_char. by repeat case_match. Qed.

Lemma pretty_N_char_val (x : N) :
  (x < 10)%N → Str.digit_val (pretty_N_char x) = Z.of_N x.
Proof.
  intros Hx.
  assert (x = 0 ∨ x = 1 ∨ x = 2 ∨ x = 3 ∨ x = 4 ∨ x = 5 ∨ x = 6 ∨ x = 7 ∨ x = 8 ∨ x = 9)%N
    as Hcases by lia.
  destruct_or!; subst x; reflexivity.
Qed.

Lemma digits_pretty_N_go (x : N) (s : string) :
  digits (Str.chars s) → digits (Str.chars (pretty_N_go x s)).
Proof.
  revert s. induction (N.lt_wf_0 x) as [x _ IH]; intros s Hs.
  destruct (decide (x = 0)%N) as [->|Hx]; [by rewrite pretty_N_go_0|].
  rewrite pretty_N_go_step by lia. apply IH; [apply N.div_lt; lia|].
  constructor; [apply pretty_N_char_digit|done].
Qed.

Lemma pretty_nonneg (z : Z) :
  0 ≤ z → pretty z = if decide (z = 0) then "0" else pretty_N_go (Z.to_N z) "".
Proof.
  intros Hz. destruct z as [|p|p]; [done| |lia].
  rewrite decide_False by lia.
  unfold pretty at 1, pretty_Z, pretty, pretty_positive, pretty, pretty_N.
  by rewrite decide_False by lia.
Qed.

Lemma digits_pretty (z : Z) : 0 ≤ z → digits (Str.chars (pretty z)).
Proof.
  intros Hz. rewrite pretty_nonneg by done. case_decide.
  - by repeat constructor.
  - apply digits_pretty_N_go. constructor.
Qed.

(** Reading back the digits that [pretty] writes. *)
Lemma parse_pretty_N_go (x : N) (s : string) (b : bool) :
  (0 < x)%N →
  Str.parse_digits (Str.chars (pretty_N_go x s)) 0 b
  = Str.parse_digits (Str.chars s) (Z.of_N x) true.
Proof.
  revert s b. induction (N.lt_wf_0 x) as [x _ IH]; intros s b Hx.
  rewrite pretty_N_go_step by done.
  pose proof (N.mod_lt x 10) as Hmod.
  pose proof (N.div_mod x 10) as Hdiv.
  destruct (decide (x `div` 10 = 0)%N) as [E|E].
  - rewrite E, pretty_N_go_0. cbn [Str.chars String.list_ascii_of_string Str.parse_digits].
    rewrite pretty_N_char_digit, pretty_N_char_val by lia. f_equal. lia.
  - rewrite IH by (try apply N.div_lt; lia).
    cbn [Str.chars String.list_ascii_of_string Str.parse_digits].
    rewrite pretty_N_char_digit, pretty_N_char_val by lia. f_equal. lia.
Qed.

Lemma parse_pretty (z : Z) (b : bool) :
  0 ≤ z → Str.parse_digits (Str.chars (pretty z)) 0 b = Some z.
Proof.
  intros Hz. rewrite pretty_nonneg by done. case_decide as E; [by subst|].
  rewrite parse_pretty_N_go by lia. cbn. f_equal. lia.
Qed.

Lemma parse_app_digits l1 l2 acc b :
  digits l1 → l1 ≠ [] →
  ∃ acc', Str.parse_digits (l1 ++ l2) acc b = Str.parse_digits l2 acc' true.
Proof.
  intros Hl1. revert acc b. induction Hl1 as [|c l1 Hc Hl1 IH]; intros acc b Hne; [done|].
  cbn [app Str.parse_digits]. rewrite Hc.
  destruct l1 as [|c' l1]; [by eexists|]. by apply IH.
Qed.

Lemma parse_zeros n l b :
  Str.parse_digits (Str.chars (Py.str_repeat "0" n) ++ l) 0 b
  = Str.parse_digits l 0 (if n is O then b else true).
Proof.
  revert b. induction n as [|n IH]; intros b; [done|].
  cbn [Py.str_repeat Str.chars String.list_ascii_of_string app Str.parse_digits].
  change (Str.is_digit "0") with true. cbv iota.
  change (10 * 0 + Str.digit_val "0") with 0.
  fold (Str.chars (Py.str_repeat "0" n)). rewrite IH. by destruct n.
Qed.

Lemma digits_not_space c : Str.is_digit c = true → Str.is_space c = false.
Proof.
  unfold Str.is_digit, Str.is_space. intros [H1 H2]%andb_true_iff.
  apply N.leb_le in H1, H2.
  apply orb_false_iff. split; apply andb_false_iff.
  - right. apply N.leb_gt. lia.
  - right. apply N.leb_gt. lia.
Qed.

Lemma lstrip_digits l : digits l → Str.lstrip l = l.
Proof. intros [|c l' Hc _]; [done|]. simpl. by rewrite digits_not_space. Qed.

Lemma strip_digits l : digits l → Str.strip l = l.
Proof.
  intros Hl. unfold Str.strip. rewrite (lstrip_digits l Hl).
  rewrite lstrip_digits; [apply rev_involutive|]. by apply Forall_rev.
Qed.

Lemma digits_repeat n : digits (Str.chars (Py.str_repeat "0" n)).
Proof. induction n as [|n IH]; [constructor|]. by constructor. Qed.

Lemma digits_format_0d width z : 0 ≤ z → digits (Str.chars (Py.format_0d width z)).
Proof.
  intros Hz. unfold Py.format_0d, Py.zero_pad, Py.rjust, Py.sign_of.
  rewrite (proj2 (Z.ltb_ge z 0)) by done. rewrite Z.abs_eq by done.
  rewrite !chars_app. apply Forall_app_2; [constructor|].
  apply Forall_app_2; [apply digits_repeat|by apply digits_pretty].
Qed.

(** [int] reads back what [:0{width}d] writes. *)
Lemma py_int_format_0d width z : 0 ≤ z → Str.py_int (Py.format_0d width z) = Some z.
Proof.
  intros Hz. pose proof (digits_format_0d width z Hz) as Hd.
  unfold Str.py_int. rewrite strip_digits by done.
  revert Hd. unfold Py.format_0d, Py.zero_pad, Py.rjust, Py.sign_of.
  rewrite (proj2 (Z.ltb_ge z 0)) by done. rewrite Z.abs_eq by done.
  cbn [String.length Nat.sub]. rewrite Nat.sub_0_r.
  change ("" +:+ ?s) with s. rewrite chars_app.
  set (n := (width - String.length (pretty z))%nat).
  intros Hd.
  assert (Str.parse_digits (Str.chars (Py.str_repeat "0" n) ++ Str.chars (pretty z)) 0 false
          = Some z) as Hparse.
  { rewrite parse_zeros. apply parse_pretty. done. }
  destruct (Str.chars (Py.str_repeat "0" n) ++ Str.chars (pretty z)) as [|c l] eqn:El.
  { done. }
  apply Forall_cons in Hd as [Hc _].
  assert (Str.eqb_char c "-" = false ∧ Str.eqb_char c "+" = false) as [-> ->]; [|done].
  unfold Str.eqb_char. split; apply Ascii.eqb_neq; intros ->; done.
Qed.


Lemma split_go_none sep l cur :
  Forall (λ c, c ≠ sep) l → Str.split_go sep l cur = [Str.text (rev cur ++ l)].
Proof.
  intros Hl. revert cur. induction Hl as [|c l Hc _ IH]; intros cur.
  - by rewrite app_nil_r.
  - cbn [Str.split_go]. unfold Str.eqb_char. rewrite (proj2 (Ascii.eqb_neq c sep)) by done.
    rewrite IH. cbn [rev]. by rewrite <- app_assoc.
Qed.

Lemma split_go_first sep l1 l2 cur :
  Forall (λ c, c ≠ sep) l1 →
  Str.split_go sep (l1 ++ sep :: l2) cur
  = Str.text (rev cur ++ l1) :: Str.split_go sep l2 [].
Proof.
  intros Hl. revert cur. induction Hl as [|c l Hc _ IH]; intros cur.
  - cbn [app Str.split_go]. unfold Str.eqb_char. rewrite Ascii.eqb_refl.
    by rewrite app_nil_r.
  - cbn [app Str.split_go]. unfold Str.eqb_char.
    rewrite (proj2 (Ascii.eqb_neq c sep)) by done.
    rewrite IH. cbn [rev]. by rewrite <- app_assoc.
Qed.

Lemma chars_without sep l :
  forallb (λ c, negb (Str.eqb_char c sep)) l = true → Forall (λ c, c ≠ sep) l.
Proof.
  intros H. apply Forall_forall. intros c Hc%list_elem_of_In Heq.
  apply (proj1 (forallb_forall _ _) H) in Hc. subst c.
  unfold Str.eqb_char in Hc. by rewrite Ascii.eqb_refl in Hc.
Qed.

Lemma digit_is_not c (sep : ascii) :
  Str.is_digit sep = false → Str.is_digit c = true → c ≠ sep.
Proof. by intros Hsep Hc ->; congruence. Qed.

(** [os.path.basename] gives the last component of a path. *)
Lemma basename_join (d name : string) :
  no_slash name → OsPath.basename (d +:+ "/" +:+ name) = name.
Proof.
  intros Hname. unfold OsPath.basename, OsPath.cut.
  rewrite !chars_app, !rev_app_distr.
  change (rev (Str.chars "/")) with [OsPath.slash]. rewrite <- app_assoc.
  cbn [app]. rewrite cut_rev_no_slash by (by apply Forall_rev).
  cbn [snd]. rewrite rev_involutive, app_nil_r. apply text_chars.
Qed.

(** The limit file of a combination at a step, as the frame loop names it
    (line 271). *)
Definition step_file (c : Ripples.comb) (istep : Z) : string :=
  Ripples.dname c +:+ "/istep=" +:+ Py.format_0d 6 istep +:+ ".wkb.gz".

(** The step number the report loop reads off a file name (line 218). *)
Definition step_of (fname : string) : option Z :=
  after_eq ← Str.split "=" (OsPath.basename fname) !! 1%nat;
  digits ← Str.split "." after_eq !! 0%nat;
  Str.py_int digits.

Lemma step_of_step_file c istep : 0 ≤ istep → step_of (step_file c istep) = Some istep.
Proof.
  intros Hi. unfold step_of, step_file.
  change (Ripples.dname c +:+ "/istep=" +:+ Py.format_0d 6 istep +:+ ".wkb.gz")
    with (Ripples.dname c +:+ "/" +:+ ("istep=" +:+ Py.format_0d 6 istep +:+ ".wkb.gz")).
  rewrite basename_join.
  2:{ apply no_slash_app; [by apply no_slash_literal|].
      apply no_slash_app; [apply no_slash_format_0d|by apply no_slash_literal]. }
  pose proof (digits_format_0d 6 istep Hi) as Hd.
  assert (Forall (λ c, c ≠ "="%char) (Str.chars (Py.format_0d 6 istep +:+ ".wkb.gz"))) as Hne.
  { rewrite chars_app. apply Forall_app_2.
    - eapply Forall_impl; [exact Hd|]. intros a Ha. by apply digit_is_not.
    - by apply chars_without. }
  assert (Str.split "=" ("istep=" +:+ Py.format_0d 6 istep +:+ ".wkb.gz")
          = ["istep"; Py.format_0d 6 istep +:+ ".wkb.gz"]) as ->.
  { unfold Str.split.
    change (Str.chars ("istep=" +:+ Py.format_0d 6 istep +:+ ".wkb.gz"))
      with (Str.chars "istep" ++ "="%char :: Str.chars (Py.format_0d 6 istep +:+ ".wkb.gz")).
    rewrite split_go_first by (by apply chars_without).
    rewrite split_go_none by done. cbn [rev app]. by rewrite !text_chars. }
  cbn [lookup list_lookup mbind option_bind].
  assert (Str.split "." (Py.format_0d 6 istep +:+ ".wkb.gz") !! 0%nat
          = Some (Py.format_0d 6 istep)) as ->.
  { unfold Str.split. rewrite chars_app.
    change (Str.chars ".wkb.gz") with ("."%char :: Str.chars "wkb.gz").
    rewrite split_go_first.
    2:{ eapply Forall_impl; [exact Hd|]. intros a Ha. by apply digit_is_not. }
    cbn [lookup list_lookup rev app]. by rewrite text_chars. }
  cbn [mbind option_bind]. by apply py_int_format_0d.
Qed.


(** *** The order of zero-padded numbers *)

(** The number a list of digits stands for. *)
Fixpoint value (l : list ascii) : Z :=
  match l with
  | [] => 0
  | c :: l' => Str.digit_val c * 10 ^ Z.of_nat (length l') + value l'
  end.

Lemma digit_val_range c : Str.is_digit c = true → 0 ≤ Str.digit_val c ≤ 9.
Proof.
  unfold Str.is_digit, Str.digit_val. intros [H1 H2]%andb_true_iff.
  apply N.leb_le in H1, H2. lia.
Qed.

Lemma value_range l : digits l → 0 ≤ value l < 10 ^ Z.of_nat (length l).
Proof.
  induction 1 as [|c l Hc _ IH]; [done|].
  cbn [value length]. rewrite Nat2Z.inj_succ, Z.pow_succ_r by lia.
  apply digit_val_range in Hc. nia.
Qed.

Lemma parse_value l acc b :
  digits l → l ≠ [] →
  Str.parse_digits l acc b = Some (acc * 10 ^ Z.of_nat (length l) + value l).
Proof.
  intros Hl. revert acc b. induction Hl as [|c l Hc Hl IH]; intros acc b Hne; [done|].
  cbn [Str.parse_digits value length]. rewrite Hc.
  destruct l as [|c' l].
  - cbn. f_equal. lia.
  - rewrite IH by done. f_equal.
    rewrite (Nat2Z.inj_succ (length (c' :: l))), Z.pow_succ_r by lia. lia.
Qed.

Lemma compare_app_same (p s t : string) : ((p +:+ s) ?= (p +:+ t))%string = (s ?= t)%string.
Proof.
  induction p as [|a p IH]; [done|].
  change ((String a (p +:+ s) ?= String a (p +:+ t))%string = (s ?= t)%string).
  cbn [String.compare]. unfold Ascii.compare at 1. by rewrite N.compare_refl.
Qed.

Lemma compare_digit c d :
  Ascii.compare c d = (Str.digit_val c ?= Str.digit_val d).
Proof.
  unfold Ascii.compare, Str.digit_val.
  destruct (N.compare_spec (N_of_ascii c) (N_of_ascii d)); symmetry;
    [apply Z.compare_eq_iff|apply Z.compare_lt_iff|apply Z.compare_gt_iff]; lia.
Qed.

(** Texts of as many digits compare as their numbers do: this is what the
    zeros of [:06d] are for. *)
Lemma compare_digits (a b : list ascii) (q : string) :
  digits a → digits b → length a = length b →
  ((Str.text a +:+ q) ?= (Str.text b +:+ q))%string = (value a ?= value b).
Proof.
  intros Ha. revert b. induction Ha as [|c a Hc Ha IH]; intros b Hb Hlen.
  - destruct b; [|done]. cbn. rewrite (compare_app_same "" q q).
    clear. induction q as [|x q IH]; [done|]. cbn [String.compare].
    unfold Ascii.compare. by rewrite N.compare_refl.
  - destruct Hb as [|d b Hd Hb]; [done|]. injection Hlen as Hlen.
    change ((String c (Str.text a +:+ q) ?= String d (Str.text b +:+ q))%string
            = (value (c :: a) ?= value (d :: b))).
    cbn [String.compare value]. rewrite compare_digit, Hlen.
    pose proof (value_range a Ha) as Ra. pose proof (value_range b Hb) as Rb.
    rewrite Hlen in Ra.
    apply digit_val_range in Hc, Hd.
    assert (0 < 10 ^ Z.of_nat (length b)) as Hpow by (apply Z.pow_pos_nonneg; lia).
    destruct (Z.compare_spec (Str.digit_val c) (Str.digit_val d)) as [E|E|E].
    + rewrite E, IH by done. symmetry.
      destruct (Z.compare_spec (value a) (value b));
        [apply Z.compare_eq_iff|apply Z.compare_lt_iff|apply Z.compare_gt_iff]; lia.
    + symmetry. apply Z.compare_lt_iff. nia.
    + symmetry. apply Z.compare_gt_iff. nia.
Qed.

(** The length of what [pretty] writes. *)
Lemma length_pretty_N_go (x : N) (s : string) (k : nat) :
  (x < 10 ^ N.of_nat k)%N →
  (String.length (pretty_N_go x s) ≤ String.length s + k)%nat.
Proof.
  revert x s. induction k as [|k IH]; intros x s Hx.
  - assert (x = 0%N) as -> by (cbn in Hx; lia). rewrite pretty_N_go_0. lia.
  - destruct (decide (x = 0)%N) as [->|Hne]; [rewrite pretty_N_go_0; lia|].
    rewrite pretty_N_go_step by lia.
    etrans; [apply IH|cbn [String.length]; lia].
    rewrite Nat2N.inj_succ, N.pow_succ_r' in Hx.
    apply N.Div0.div_lt_upper_bound. lia.
Qed.

Lemma length_pretty (z : Z) (k : nat) :
  0 ≤ z < 10 ^ Z.of_nat k → (0 < k)%nat → (String.length (pretty z) ≤ k)%nat.
Proof.
  intros Hz Hk. rewrite pretty_nonneg by lia. case_decide; [cbn; lia|].
  apply (length_pretty_N_go _ "" k).
  apply N2Z.inj_lt. rewrite Z2N.id by lia.
  rewrite N2Z.inj_pow, nat_N_Z. lia.
Qed.

Lemma length_chars s : length (Str.chars s) = String.length s.
Proof. induction s as [|c s IH]; [done|]. cbn. by rewrite <- IH. Qed.

Lemma length_repeat c n : String.length (Py.str_repeat c n) = n.
Proof. induction n as [|n IH]; [done|]. cbn. by rewrite IH. Qed.

Lemma string_length_app s t : String.length (s +:+ t) = (String.length s + String.length t)%nat.
Proof. induction s as [|c s IH]; [done|]. cbn. by rewrite <- IH. Qed.

Lemma length_format_0d (width : nat) z :
  0 ≤ z < 10 ^ Z.of_nat width → (0 < width)%nat →
  String.length (Py.format_0d width z) = width.
Proof.
  intros Hz Hw. pose proof (length_pretty z width Hz Hw) as Hlen.
  unfold Py.format_0d, Py.zero_pad, Py.rjust, Py.sign_of.
  rewrite (proj2 (Z.ltb_ge z 0)) by lia. rewrite Z.abs_eq by lia.
  cbn [String.length Nat.sub]. rewrite Nat.sub_0_r. change ("" +:+ ?s) with s.
  rewrite string_length_app, length_repeat. lia.
Qed.

Lemma value_format_0d width z : 0 ≤ z → value (Str.chars (Py.format_0d width z)) = z.
Proof.
  intros Hz. pose proof (digits_format_0d width z Hz) as Hd.
  assert (Str.chars (Py.format_0d width z) ≠ []) as Hne.
  { intros E. pose proof (py_int_format_0d width z Hz) as Hint.
    unfold Str.py_int in Hint. by rewrite strip_digits, E in Hint. }
  pose proof (py_int_format_0d width z Hz) as Hint.
  unfold Str.py_int in Hint. rewrite strip_digits in Hint by done.
  destruct (Str.chars (Py.format_0d width z)) as [|c l] eqn:El; [done|].
  apply Forall_cons in Hd as Hd'. destruct Hd' as [Hc _].
  assert (Str.eqb_char c "-" = false ∧ Str.eqb_char c "+" = false) as [E1 E2].
  { unfold Str.eqb_char. split; apply Ascii.eqb_neq; intros ->; done. }
  rewrite E1, E2, parse_value in Hint by done. injection Hint as Hint.
  cbn [value]. rewrite Z.mul_0_l in Hint. lia.
Qed.

(** Limit files of one combination are ordered as their step numbers are. *)
Lemma step_file_le c n1 n2 :
  0 ≤ n1 < 10 ^ 6 → 0 ≤ n2 < 10 ^ 6 →
  String.le (step_file c n1) (step_file c n2) ↔ n1 ≤ n2.
Proof.
  intros H1 H2. unfold String.le, String.leb, step_file.
  rewrite !compare_app_same.
  rewrite <- (text_chars (Py.format_0d 6 n1)), <- (text_chars (Py.format_0d 6 n2)).
  rewrite compare_digits.
  - rewrite !value_format_0d by lia.
    destruct (Z.compare_spec n1 n2); split; (done || lia).
  - apply digits_format_0d. lia.
  - apply digits_format_0d. lia.
  - rewrite !length_chars, !length_format_0d; [done|exact H2|lia|exact H1|lia].
Qed.

(** *** Different numbers, different names *)

Lemma format_0d_inj width n1 n2 :
  0 ≤ n1 → 0 ≤ n2 → Py.format_0d width n1 = Py.format_0d width n2 → n1 = n2.
Proof.
  intros H1 H2 E. pose proof (py_int_format_0d width n1 H1) as E1.
  rewrite E, py_int_format_0d in E1 by done. by injection E1.
Qed.

Lemma app_inv_tail_string (s1 s2 t : string) : s1 +:+ t = s2 +:+ t → s1 = s2.
Proof.
  intros E. apply (f_equal Str.chars) in E. rewrite !chars_app in E.
  apply app_inv_tail in E. rewrite <- (text_chars s1), <- (text_chars s2). by rewrite E.
Qed.

Lemma step_file_inj c n1 n2 :
  0 ≤ n1 → 0 ≤ n2 → step_file c n1 = step_file c n2 → n1 = n2.
Proof.
  intros H1 H2 E. unfold step_file in E.
  do 2 apply (inj (String.app _)) in E.
  apply app_inv_tail_string in E. by apply (format_0d_inj 6).
Qed.

Lemma frame_name_inj d1 d2 :
  0 ≤ d1 → 0 ≤ d2 → Ripples.frame_name d1 = Ripples.frame_name d2 → d1 = d2.
Proof.
  intros H1 H2 E. unfold Ripples.frame_name in E.
  do 4 apply (inj (String.app _)) in E.
  apply app_inv_tail_string in E. by apply (format_0d_inj 5).
Qed.

End NameFacts.

(** ** Globbing *)

Module GlobFacts.
Section glob.
Context {data : Type}.
Implicit Types fs : gmap string (node data).

Lemma elem_of_sorted_glob fs dir pat p :
  p ∈ Fs.sorted_glob fs dir pat ↔ is_Some (fs !! p) ∧ OsPath.glob_match dir pat p = true.
Proof.
  unfold Fs.sorted_glob.
  rewrite merge_sort_Permutation, list_elem_of_filter, elem_of_elements, elem_of_dom. tauto.
Qed.

Lemma sorted_glob_sorted fs dir pat : StronglySorted String.le (Fs.sorted_glob fs dir pat).
Proof. apply StronglySorted_merge_sort; apply _. Qed.

Lemma sorted_glob_NoDup fs dir pat : NoDup (Fs.sorted_glob fs dir pat).
Proof.
  unfold Fs.sorted_glob. rewrite merge_sort_Permutation.
  apply NoDup_filter, NoDup_elements.
Qed.

(** What a glob finds depends on the matching paths only. *)
Lemma sorted_glob_ext fs fs' dir pat :
  (∀ p, OsPath.glob_match dir pat p = true → is_Some (fs !! p) ↔ is_Some (fs' !! p)) →
  Fs.sorted_glob fs dir pat = Fs.sorted_glob fs' dir pat.
Proof.
  intros Hsame. apply (StronglySorted_unique String.le); [apply sorted_glob_sorted..|].
  apply NoDup_Permutation; [apply sorted_glob_NoDup..|].
  intros p. rewrite !elem_of_sorted_glob. specialize (Hsame p). tauto.
Qed.

Lemma sorted_glob_insert fs dir pat p n :
  OsPath.glob_match dir pat p = false →
  Fs.sorted_glob (<[p := n]> fs) dir pat = Fs.sorted_glob fs dir pat.
Proof.
  intros Hp. apply sorted_glob_ext. intros q Hq.
  rewrite lookup_insert_ne; [done|]. intros ->. congruence.
Qed.


End glob.

(** The last element of a sorted list is a greatest one. *)
Lemma last_greatest {A} (R : relation A) `{!Reflexive R} (l : list A) (x : A) :
  StronglySorted R l → last l = Some x → ∀ y, y ∈ l → R y x.
Proof.
  induction 1 as [|z l Hl IH Hz]; intros Hlast y Hy; [done|].
  destruct l as [|z' l].
  - injection Hlast as <-. apply list_elem_of_singleton in Hy as ->. done.
  - change (last (z :: z' :: l)) with (last (z' :: l)) in Hlast.
    apply elem_of_cons in Hy as [->|Hy]; [|by apply IH].
    rewrite Forall_forall in Hz. apply Hz. apply last_Some_elem_of in Hlast. done.
Qed.

End GlobFacts.

(** ** ripples_flight.py: the report of the distance flown so far *)

Module ReportFacts.
Import Ripples NameFacts.

(** The pattern of line 217. *)
Definition pattern : string := "istep=??????.wkb.gz".

(** The message of line 224 for a step number. *)
Definition report_message (c : comb) (istep : Z) : string :=
  let maxDist := Py.float_of_Z (istep * c.1.2) in
  let maxDur := (maxDist / (1852.0 * spd))%float in
  " > " +:+ Py.format_f Py.comma_f2 (0.001 * maxDist)%float
  +:+ " kilometres of flying is available (which is "
  +:+ Py.format_f Py.comma_f4 maxDur +:+ " hours).".

Lemma fnmatch_wild l r q :
  OsPath.fnmatch (l ++ r) (replicate (length l) "?"%char ++ q) = OsPath.fnmatch r q.
Proof. induction l as [|c l IH]; [done|]. cbn. exact IH. Qed.

Lemma glob_match_step_file c n :
  0 ≤ n < 10 ^ 6 → OsPath.glob_match (dname c) pattern (step_file c n) = true.
Proof.
  intros Hn. unfold OsPath.glob_match, step_file.
  change (dname c +:+ "/istep=" +:+ Py.format_0d 6 n +:+ ".wkb.gz")
    with (dname c +:+ "/" +:+ ("istep=" +:+ Py.format_0d 6 n +:+ ".wkb.gz")).
  rewrite <- string_app_assoc, (chars_app (dname c +:+ "/")).
  rewrite take_app_length, drop_app_length.
  rewrite bool_decide_eq_true_2 by done. cbn [andb].
  assert (no_slash ("istep=" +:+ Py.format_0d 6 n +:+ ".wkb.gz")) as Hname.
  { apply no_slash_app; [by apply no_slash_literal|].
    apply no_slash_app; [apply no_slash_format_0d|by apply no_slash_literal]. }
  rewrite bool_decide_eq_true_2.
  2:{ intros Hin. unfold no_slash in Hname. rewrite Forall_forall in Hname.
      by apply (Hname _ Hin). }
  cbn [andb].
  change (Str.chars ("istep=" +:+ Py.format_0d 6 n +:+ ".wkb.gz"))
    with (Str.chars "istep=" ++ Str.chars (Py.format_0d 6 n +:+ ".wkb.gz")).
  rewrite chars_app. cbn [Str.chars String.list_ascii_of_string app OsPath.is_hidden negb andb].
  change (OsPath.fnmatch
            ("i" :: "s" :: "t" :: "e" :: "p" :: "=" ::
             String.list_ascii_of_string (Py.format_0d 6 n) ++ Str.chars ".wkb.gz")%char
            (Str.chars pattern) = true).
  assert (length (String.list_ascii_of_string (Py.format_0d 6 n)) = 6%nat) as Hlen.
  { change (length (Str.chars (Py.format_0d 6 n)) = 6%nat). rewrite length_chars.
    apply length_format_0d; [exact Hn|lia]. }
  change (Str.chars pattern)
    with (Str.chars "istep=" ++ replicate 6 "?"%char ++ Str.chars ".wkb.gz").
  cbn [Str.chars String.list_ascii_of_string app OsPath.fnmatch].
  unfold Str.eqb_char. cbn [Ascii.eqb Bool.eqb orb andb].
  rewrite <- Hlen at 2. rewrite fnmatch_wild. reflexivity.
Qed.

Section report.
Context {data : Type}.
Implicit Types (w : world data) (fs : gmap string (node data)).

(** A pass of the report loop: it raises when the directory holds no
    limit file or the name of the last one holds no number, and prints the
    distance of the last one otherwise. *)
Lemma report_step_eq c w :
  report_step c w
  = match last (Fs.sorted_glob (files w) (dname c) pattern) ≫= step_of with
    | Some istep =>
        (Some (), World (files w) (trace w ++ [EvPrint (report_message c istep)]))
    | None => (None, w)
    end.
Proof.
  unfold report_step, step_of, mbind at 1 2 3 4 5, script_bind, Script.bind, Script.glob.
  fold pattern.
  destruct (last (Fs.sorted_glob (files w) (dname c) pattern)) as [fname|]; [|done].
  cbn [Script.lift_option Script.ret mbind option_bind].
  destruct (Str.split "=" (OsPath.basename fname) !! 1%nat) as [after_eq|]; [|done].
  cbn [Script.lift_option Script.ret mbind option_bind].
  destruct (Str.split "." after_eq !! 0%nat) as [digits|]; [|done].
  cbn [Script.lift_option Script.ret mbind option_bind].
  by destruct (Str.py_int digits).
Qed.


Lemma exists_lookup fs p : Fs.exists_ fs p = true ↔ is_Some (fs !! p).
Proof. unfold Fs.exists_. apply bool_decide_eq_true. Qed.

(** The last file of the sorted glob, when the pattern matches step files
    only. *)
Lemma last_step_file c fs :
  (∀ p, is_Some (fs !! p) → OsPath.glob_match (dname c) pattern p = true →
        ∃ n, 0 ≤ n < 10 ^ 6 ∧ p = step_file c n) →
  (∃ n, 0 ≤ n < 10 ^ 6 ∧ Fs.exists_ fs (step_file c n) = true) →
  ∃ m, 0 ≤ m < 10 ^ 6 ∧ Fs.exists_ fs (step_file c m) = true
       ∧ (∀ n, 0 ≤ n < 10 ^ 6 → Fs.exists_ fs (step_file c n) = true → n ≤ m)
       ∧ last (Fs.sorted_glob fs (dname c) pattern) = Some (step_file c m).
Proof.
  intros Hconv (n0 & Hn0 & Hex0).
  assert (∀ n, 0 ≤ n < 10 ^ 6 → Fs.exists_ fs (step_file c n) = true →
            step_file c n ∈ Fs.sorted_glob fs (dname c) pattern) as Hin.
  { intros n Hn Hex. apply GlobFacts.elem_of_sorted_glob.
    split; [by apply exists_lookup|by apply glob_match_step_file]. }
  destruct (last (Fs.sorted_glob fs (dname c) pattern)) as [p|] eqn:Hlast.
  2:{ apply last_None in Hlast. specialize (Hin n0 Hn0 Hex0).
      rewrite Hlast in Hin. by apply elem_of_nil in Hin. }
  pose proof (last_Some_elem_of _ _ Hlast) as Hp.
  apply GlobFacts.elem_of_sorted_glob in Hp as [Hp Hmatch].
  destruct (Hconv p Hp Hmatch) as (m & Hm & ->).
  exists m. split_and!; [lia|lia|by apply exists_lookup| |done].
  intros n Hn Hex. apply (step_file_le c n m); [done|done|].
  apply (GlobFacts.last_greatest String.le (Fs.sorted_glob fs (dname c) pattern));
    [apply GlobFacts.sorted_glob_sorted|exact Hlast|by apply Hin].
Qed.

End report.
End ReportFacts.

Section report_properties.
Context {data : Type}.

(** X1: the report loop of ripples_flight.py finds the greatest step. In
    a directory where the pattern [istep=??????.wkb.gz] matches nothing
    but limit files named as the frame loop names them, and at least one,
    the pass prints the distance of the file with the greatest step
    number: the zeros of [:06d] make the sorted names end with it, and
    [int] reads the number back. *)
Theorem report_finds_latest_step (c : Ripples.comb) (w : world data) :
  (∀ p, is_Some (files w !! p) →
        OsPath.glob_match (Ripples.dname c) ReportFacts.pattern p = true →
        ∃ n, 0 ≤ n < 10 ^ 6 ∧ p = NameFacts.step_file c n) →
  (∃ n, 0 ≤ n < 10 ^ 6 ∧ Fs.exists_ (files w) (NameFacts.step_file c n) = true) →
  ∃ m, 0 ≤ m < 10 ^ 6
       ∧ Fs.exists_ (files w) (NameFacts.step_file c m) = true
       ∧ (∀ n, 0 ≤ n < 10 ^ 6 →
            Fs.exists_ (files w) (NameFacts.step_file c n) = true → n ≤ m)
       ∧ Ripples.report_step c w
         = (Some (), World (files w)
                       (trace w ++ [EvPrint (ReportFacts.report_message c m)])).
Proof.
  intros Hconv Hsome.
  destruct (ReportFacts.last_step_file c (files w) Hconv Hsome)
    as (m & Hm & Hex & Hmax & Hlast).
  exists m. split_and!; [lia|lia|done|done|].
  rewrite ReportFacts.report_step_eq, Hlast. cbn [mbind option_bind].
  rewrite NameFacts.step_of_step_file by lia. done.
Qed.

End report_properties.

(** ** ripples_flight.py: a run without limit files *)

Module StartFacts.
Import Ripples.

(** The directories of lines 150-153. *)
Definition frame_dir : string := outDir +:+ "/" +:+ lonlat.

Section start.
Context {data : Type}.
Implicit Types (w : world data) (fs : gmap string (node data)).

(** The file system and the events of lines 150-153. *)
Definition with_dir fs (p : string) : gmap string (node data) :=
  if Fs.exists_ fs p then fs else <[p := Dir]> fs.

Definition mkdir_events fs (p : string) : list event :=
  if Fs.exists_ fs p then [] else [EvMkdir p].

Lemma make_dirs_eq w :
  make_dirs w
  = (Some (),
     World (with_dir (with_dir (files w) outDir) frame_dir)
       (trace w ++ mkdir_events (files w) outDir
        ++ mkdir_events (with_dir (files w) outDir) frame_dir)).
Proof.
  unfold make_dirs, mbind, script_bind, Script.bind, Script.exists_, Script.mkdir,
    Script.ret, with_dir, mkdir_events.
  fold frame_dir. destruct w as [fs tr]. cbn [files trace].
  destruct (Fs.exists_ fs outDir); cbn [negb files trace].
  - destruct (Fs.exists_ fs frame_dir); cbn [negb files trace app];
      by rewrite ?app_nil_r.
  - destruct (Fs.exists_ (<[outDir := Dir]> fs) frame_dir); cbn [negb files trace app];
      by rewrite <- ?app_assoc, ?app_nil_r.
Qed.



End start.
End StartFacts.

(** Events that touch no file and make no video. *)
Definition quiet (e : event) : Prop :=
  match e with
  | EvPrint _ | EvRun _ | EvMkdir _ => True
  | _ => False
  end.

Lemma quiet_writes tr : Forall quiet tr → writes tr = [].
Proof. induction 1 as [|e tr He _ IH]; [done|]. by destruct e. Qed.



Module StopFacts.
Import Ripples.

Section stop.
Context {data : Type}.
Implicit Types (w : world data) (fs : gmap string (node data)).



End stop.
End StopFacts.

Section ripples_properties.
Context {data : Type}.
Variable python_version : string.
Variable MAXIMUM_VINCENTY : float.
Variable savefig : Ripples.figure data → data.
Variable optimise : data → data.
Variable video_name : list string → option Z → string.
Variable video : list (option data) → option Z → data.
Variable unreadable : data.

Abbreviation the_main :=
  (Ripples.main python_version MAXIMUM_VINCENTY savefig optimise video_name video unreadable).



(** X4: no two distances share a frame and no two steps of a
    combination share a limit file, so nothing the frame loop writes
    replaces another frame; and the list of frames ripples_flight.py
    gives to [images2mp4] names every file once. *)
Theorem frames_are_distinct_files (a : Ripples.args) (fs : gmap string (node data)) :
  (∀ d1 d2, 0 ≤ d1 → 0 ≤ d2 → Ripples.frame_name d1 = Ripples.frame_name d2 → d1 = d2)
  ∧ (∀ c d1 d2, 0 < c.1.2 → 0 ≤ d1 → 0 ≤ d2 →
       (1000 * d1) `mod` c.1.2 = 0 → (1000 * d2) `mod` c.1.2 = 0 →
       Ripples.fname c d1 = Ripples.fname c d2 → d1 = d2)
  ∧ Forall (λ call, NoDup call.1) (mp4_calls (trace (run (the_main a) fs).2)).
Proof.
  split_and!.
  - apply NameFacts.frame_name_inj.
  - intros c d1 d2 Hprec H1 H2 Hm1 Hm2 E. rewrite !fname_istep in E.
    apply NameFacts.step_file_inj in E; [|by apply Z.div_pos; lia..].
    pose proof (Z.div_mod (1000 * d1) c.1.2) as E1.
    pose proof (Z.div_mod (1000 * d2) c.1.2) as E2. nia.
  - destruct (RipplesFacts.ripples_spec python_version MAXIMUM_VINCENTY savefig optimise
                unreadable video_name video a fs)
      as (tr1 & tr2 & o & w' & -> & Hok1 & Hok2 & Hr).
    assert (mp4_calls tr1 = []) as E1.
    { apply mp4_calls_not_mp4. eapply Forall_impl; [done|apply RipplesFacts.ripples_ok_not_mp4]. }
    assert (mp4_calls tr2 = []) as E2.
    { apply mp4_calls_not_mp4. eapply Forall_impl; [done|apply RipplesFacts.ripples_ok_not_mp4]. }
    cbn [snd]. destruct o as [[]|].
    + destruct Hr as (ds & Hsub & ->).
      rewrite !mp4_calls_app, E1, E2, RipplesFacts.sweep_no_mp4.
      rewrite RipplesFacts.video_mp4_calls. cbn [app].
      assert (NoDup (map Ripples.frame_name ds)) as Hnd.
      { assert (StronglySorted Z.lt ds) as Hsorted.
        { eapply sublist_StronglySorted; [done|]. apply seqZ_StronglySorted. }
        assert (Forall (λ d, 1 ≤ d) ds) as Hpos.
        { eapply sublist_Forall; [done|]. apply Forall_forall.
          intros d Hd%elem_of_seqZ. lia. }
        rewrite Forall_forall in Hpos.
        apply NoDup_fmap_2_strong; [|by apply StronglySorted_lt_NoDup].
        intros d1 d2 Hd1 Hd2. apply NameFacts.frame_name_inj.
        - specialize (Hpos d1 Hd1). lia.
        - specialize (Hpos d2 Hd2). lia. }
      by repeat constructor.
    + rewrite Hr, !mp4_calls_app, E1, E2, RipplesFacts.sweep_no_mp4. constructor.
Qed.

(** The legend entry of a combination (line 350). *)
Definition legend (c : Ripples.comb) : string :=
  "nAng=" +:+ Py.format_d c.1.1.1 +:+ ", res=" +:+ c.1.1.2 +:+ ", prec=" +:+ Py.format_d c.1.2.

(** X5: what a rendered frame shows (lines 284-428 of
    ripples_flight.py). When the frame of a distance is not there and the
    three limits are due and can be read, as can the land next to the last
    of them, the frame that is saved is the optimised figure of that land,
    the limit of each combination in its own colour under its own legend
    entry, in the order of the combinations, the reach of the plane if the
    distance is within [MAXIMUM_VINCENTY], and the title of the distance
    and its duration; no other file changes and the frame is listed. *)
Theorem frame_is_the_figure (a : Ripples.args) (frames : list string) (dist : Z)
    (fs : gmap string (node data)) (lands : data) (limit : Ripples.comb → data) :
  Fs.exists_ fs (Ripples.frame_name dist) = false →
  (∀ c : Ripples.comb, c ∈ Ripples.combs →
     (1000 * dist) `mod` c.1.2 = 0 ∧ Fs.read fs (Ripples.fname c dist) = Some (limit c)) →
  Fs.read fs (Ripples.allLands_of
                (Ripples.fname (33, "10m", 116000 / 4, (0.0, 0.0, 1.0, 1.0)%float) dist))
  = Some lands →
  let r := run (Ripples.frame_step MAXIMUM_VINCENTY savefig optimise unreadable a
                  frames dist) fs in
  let reach := (1000.0 * Py.float_of_Z dist)%float in
  r.1 = Some (frames ++ [Ripples.frame_name dist])
  ∧ Fs.read (files r.2) (Ripples.frame_name dist)
    = Some (optimise (savefig
        (Ripples.Figure lands
           (map (λ c : Ripples.comb, (legend c, c.2, limit c)) Ripples.combs)
           (if (reach <=? MAXIMUM_VINCENTY)%float then Some reach else None)
           (Py.format_comma_d 6 dist +:+ " km ("
            +:+ Py.format_f Py.f5_2 (reach / (1852.0 * Ripples.spd))%float
            +:+ " hours)"))))
  ∧ ∀ p, p ≠ Ripples.frame_name dist → files r.2 !! p = fs !! p.
Proof.
  intros Hnew Hlimits Hlands r reach. subst r. unfold run.
  rewrite RipplesFacts.frame_step_cases. cbn [files]. rewrite Hnew.
  assert (forallb (RipplesFacts.available fs dist) Ripples.combs = true) as ->.
  { apply forallb_forall. intros c Hc%list_elem_of_In.
    destruct (Hlimits c Hc) as [Hmod Hread]. unfold RipplesFacts.available.
    apply andb_true_iff. split; [by apply Z.eqb_eq|].
    apply ReportFacts.exists_lookup. unfold Fs.read in Hread.
    destruct (fs !! Ripples.fname c dist); [by eexists|done]. }
  rewrite (RipplesFacts.render_eq _ _ _ _ a dist _ _
             (Ripples.fname (33, "10m", 116000 / 4, (0.0, 0.0, 1.0, 1.0)%float) dist))
    by done.
  cbn [fst snd files trace]. split_and!; [done| |].
  - unfold Fs.read. rewrite lookup_alter_eq, lookup_insert_eq.
    cbn [fmap option_fmap option_map RipplesFacts.optimised].
    do 3 f_equal. unfold RipplesFacts.figure_of. rewrite Hlands. cbn [default from_option].
    fold reach. f_equal.
    change (zip Ripples.combs (map (λ c, Ripples.fname c dist) Ripples.combs))
      with (map (λ c, (c, Ripples.fname c dist)) Ripples.combs).
    rewrite map_map. apply map_ext_in. intros c Hc%list_elem_of_In.
    destruct (Hlimits c Hc) as [_ Hread].
    destruct c as [[[nAng neRes] prec] color]. unfold RipplesFacts.labelled, legend.
    cbn [fst snd]. by rewrite Hread.
  - intros p Hp. by rewrite lookup_alter_ne, lookup_insert_ne.
Qed.

End ripples_properties.

(** ** complexity.py: the outlines drawn on the image *)

Module RingFacts.

Lemma ltb_leb (x y : float) : (x <? y)%float = true → (x <=? y)%float = true.
Proof.
  rewrite ltb_spec, leb_spec. unfold SFltb, SFleb.
  by destruct (SFcompare (Prim2SF x) (Prim2SF y)) as [[]|].
Qed.

(** [max(lo, min(hi, v))] lies between [lo] and [hi] whatever [v] is, not
    a number included, when [lo <= hi]. *)
Lemma clamp_between (lo hi v : float) :
  (lo <=? lo)%float = true → (hi <=? hi)%float = true → (lo <=? hi)%float = true →
  let x := Flt.max lo (Flt.min hi v) in
  (lo <=? x)%float = true ∧ (x <=? hi)%float = true.
Proof.
  intros Hlo Hhi Hle. unfold Flt.max, Flt.min.
  destruct (v <? hi)%float eqn:Hv.
  - destruct (lo <? v)%float eqn:Hl; [|done].
    split; by apply ltb_leb.
  - destruct (lo <? hi)%float eqn:Hl; [|done].
    split; [by apply ltb_leb|done].
Qed.

End RingFacts.

(** X6: the outline of a Polygon is drawn inside the image (lines 223-224
    of complexity.py): whatever the coordinate, infinite or not a number
    included, its position is computed without an exception and lies
    within [0, 3600] across and [0, 1800] down. *)
Theorem outline_is_inside_image (c : coord) :
  let p := Complexity.ring_px c in
  (0.0 <=? p.1)%float = true ∧ (p.1 <=? 3600.0)%float = true
  ∧ (0.0 <=? p.2)%float = true ∧ (p.2 <=? 1800.0)%float = true.
Proof.
  intros p. subst p. unfold Complexity.ring_px. cbn [fst snd].
  change (Py.float_of_Z (Complexity.nLon * Complexity.scale)) with 3600.0%float.
  change (Py.float_of_Z (Complexity.nLat * Complexity.scale)) with 1800.0%float.
  split; [|split]; [..|split]; apply RingFacts.clamp_between; reflexivity.
Qed.

(** ** complexity.py: more on the histogram *)

Module CountFacts.
Import Complexity HistFacts.

Lemma zero_not_infinite (x : float) : is_zero x = true → is_infinity x = false.
Proof.
  unfold is_zero, is_infinity. rewrite !FloatAxioms.eqb_spec, FloatAxioms.abs_spec.
  change (Prim2SF 0) with (S754_zero false).
  change (Prim2SF infinity) with (S754_infinity false).
  by destruct (Prim2SF x) as [s|s| |s m e]; try destruct s.
Qed.

(** [math.floor] raises exactly on what is infinite or not a number. *)
Lemma floor_None (x : float) : Flt.floor x = None ↔ is_finite x = false.
Proof.
  split.
  - intros Hnone. destruct (is_finite x) eqn:Hfin; [|done].
    destruct (floor_defined x Hfin) as [n Hn]. congruence.
  - unfold is_finite. intros [Hnan|Hinf]%negb_false_iff%orb_true_iff.
    + unfold Flt.floor, Prim2SF. by rewrite Hnan.
    + unfold Flt.floor, Prim2SF. destruct (is_nan x); [done|].
      destruct (is_zero x) eqn:Hz.
      { apply zero_not_infinite in Hz. congruence. }
      by rewrite Hinf.
Qed.

Lemma pixel_None (c : coord) : pixel c = None ↔ ¬ locatable c.
Proof.
  unfold locatable, qLon, qLat, pixel.
  destruct (Flt.floor ((c.1 + 180) / dLon)) as [fLon|] eqn:HLon;
    destruct (Flt.floor ((90 - c.2) / dLat)) as [fLat|] eqn:HLat; cbn.
  - split; [done|]. intros Hno. destruct Hno.
    split; apply not_false_iff_true; rewrite <- floor_None; congruence.
  - apply floor_None in HLat. split; [|done]. intros _ [_ ?]. congruence.
  - apply floor_None in HLon. split; [|done]. intros _ [? _]. congruence.
  - apply floor_None in HLon. split; [|done]. intros _ [? _]. congruence.
Qed.


(** *** The sum of the cells *)

Fixpoint zsum (l : list Z) : Z :=
  match l with
  | [] => 0
  | x :: l' => x + zsum l'
  end.

(** [histArr.sum()] *)
Definition total (h : list (list Z)) : Z := zsum (zsum <$> h).

Lemma zsum_insert l k v old :
  l !! k = Some old → zsum (<[k := v]> l) = zsum l - old + v.
Proof.
  revert k. induction l as [|x l IH]; intros [|k] Hk; try done.
  - injection Hk as ->. cbn. lia.
  - cbn in Hk. change (x + zsum (<[k := v]> l) = x + zsum l - old + v).
    rewrite (IH k) by done. lia.
Qed.

Lemma total_insert (h : list (list Z)) r k row v old :
  h !! r = Some row → row !! k = Some old →
  total (<[r := <[k := v]> row]> h) = total h - old + v.
Proof.
  intros Hrow Hold. unfold total. rewrite list_fmap_insert.
  rewrite (zsum_insert _ r _ (zsum row)) by (by rewrite list_lookup_fmap, Hrow).
  rewrite (zsum_insert row k v old) by done. lia.
Qed.

Lemma zsum_nonneg l : Forall (λ x, 0 ≤ x) l → 0 ≤ zsum l.
Proof. induction 1; cbn; lia. Qed.

Lemma zsum_bound l x : Forall (λ x, 0 ≤ x) l → x ∈ l → x ≤ zsum l.
Proof.
  induction 1 as [|y l Hy Hl IH]; [by intros ?%elem_of_nil|].
  pose proof (zsum_nonneg l Hl). intros [->|Hx]%elem_of_cons; cbn; [lia|].
  specialize (IH Hx). lia.
Qed.

(** No cell is negative. *)
Definition counts (h : list (list Z)) : Prop := Forall (Forall (λ x, 0 ≤ x)) h.

Lemma counts_cell h r k row v :
  counts h → h !! r = Some row → row !! k = Some v → 0 ≤ v ≤ total h.
Proof.
  intros Hc Hrow Hv. unfold counts in Hc.
  assert (Forall (λ x, 0 ≤ x) row) as Hr.
  { rewrite Forall_forall in Hc. apply Hc. by eapply list_elem_of_lookup_2. }
  assert (0 ≤ v) as H0.
  { rewrite Forall_forall in Hr. apply Hr. by eapply list_elem_of_lookup_2. }
  split; [done|]. etrans; [apply (zsum_bound row)|]; [done|by eapply list_elem_of_lookup_2|].
  apply zsum_bound.
  - apply Forall_fmap. eapply Forall_impl; [exact Hc|]. intros l. apply zsum_nonneg.
  - apply list_elem_of_fmap. exists row. split; [done|by eapply list_elem_of_lookup_2].
Qed.

(** One coordinate adds one to the sum, short of the range of a cell. *)
Lemma count_coord_total h c h' :
  shaped nLat nLon h → counts h → total h + 1 < 2 ^ 64 →
  count_coord h c = Some h' →
  shaped nLat nLon h' ∧ counts h' ∧ total h' = total h + 1.
Proof.
  intros Hsh Hc Hroom Hstep. unfold count_coord in Hstep.
  destruct (pixel c) as [[iLat iLon]|] eqn:Hpx; [|done]. cbn in Hstep.
  destruct (pixel_range _ _ _ Hpx) as [HiLat HiLon].
  destruct (get2_shaped _ _ h iLat iLon Hsh HiLat HiLon) as (row & v & Hrow & Hv & Hget).
  rewrite Hget in Hstep. cbn in Hstep.
  destruct (counts_cell h _ _ row v Hc Hrow Hv) as [Hv0 Hvt].
  rewrite Z.mod_small in Hstep by lia.
  destruct (set2_shaped _ _ h iLat iLon (v + 1) Hsh HiLat HiLon) as (h1 & Hset & Hsh1 & _).
  rewrite Hset in Hstep. injection Hstep as <-.
  assert (h1 = <[Z.to_nat iLat := <[Z.to_nat iLon := v + 1]> row]> h) as ->.
  { destruct Hsh as [Hrows Hcols].
    assert (Z.of_nat (length row) = nLon) as Hlen.
    { rewrite Forall_forall in Hcols. apply Hcols. by eapply list_elem_of_lookup_2. }
    unfold set2 in Hset. rewrite !py_index_in_range in Hset by lia. cbn in Hset.
    rewrite Hrow in Hset. cbn in Hset.
    rewrite py_index_in_range in Hset by lia. cbn in Hset. by injection Hset. }
  split_and!; [done| |].
  - apply Forall_insert; [done|]. apply Forall_insert; [|lia].
    unfold counts in Hc. rewrite Forall_forall in Hc. apply Hc.
    by eapply list_elem_of_lookup_2.
  - rewrite (total_insert h _ _ row (v + 1) v) by done. lia.
Qed.

Lemma count_coords_total cs h h' :
  shaped nLat nLon h → counts h → total h + Z.of_nat (length cs) < 2 ^ 64 →
  fold_opt count_coord cs h = Some h' →
  shaped nLat nLon h' ∧ counts h' ∧ total h' = total h + Z.of_nat (length cs).
Proof.
  revert h. induction cs as [|c cs IH]; intros h Hsh Hc Hroom Hfold.
  - injection Hfold as <-. cbn. split_and!; [done|done|lia].
  - cbn [fold_opt] in Hfold. destruct (count_coord h c) as [h1|] eqn:Hstep; [|done].
    cbn in Hfold. cbn [length] in *.
    destruct (count_coord_total h c h1) as (Hsh1 & Hc1 & Ht1); [done|done|lia|done|].
    destruct (IH h1) as (Hsh' & Hc' & Ht'); [done|done|lia|done|].
    split_and!; [done|done|lia].
Qed.

Lemma zeros_counts : counts zeros.
Proof. apply Forall_replicate, Forall_replicate. done. Qed.

Lemma zeros_total : total zeros = 0.
Proof. reflexivity. Qed.

(** [histArr.max()] is a cell, or zero, and no cell is above it. *)
Lemma hist_max_bounds h :
  counts h → 0 ≤ hist_max h ≤ total h.
Proof.
  intros Hc. unfold hist_max, total.
  induction Hc as [|row h Hrow Hh IH]; [done|].
  rewrite fmap_cons. cbn [concat zsum]. rewrite foldr_app.
  assert (0 ≤ zsum (zsum <$> h)) as Hrest.
  { apply zsum_nonneg, Forall_fmap. eapply Forall_impl; [exact Hh|]. intros l.
    apply zsum_nonneg. }
  revert IH Hrest. generalize (foldr Z.max 0 (concat h)) (zsum (zsum <$> h)).
  intros m t IH Ht. induction Hrow as [|x row Hx Hrow IHrow]; cbn; lia.
Qed.

End CountFacts.

(** X7: the histogram loses no coordinate. When the histogram of a list
    of Polygons is computed and the Polygons have fewer than [2^64]
    exterior-ring coordinates, the cells of the array add up to the number
    of those coordinates: a coordinate outside the map is counted in a
    border cell, never dropped. The maximum that is printed is therefore
    between zero and that number. *)
Theorem histogram_counts_every_coordinate (polys : list polygon) (h : list (list Z)) :
  Z.of_nat (length (concat (map exterior polys))) < 2 ^ 64 →
  Complexity.histArr polys = Some h →
  HistFacts.shaped Complexity.nLat Complexity.nLon h
  ∧ CountFacts.total h = Z.of_nat (length (concat (map exterior polys)))
  ∧ 0 ≤ Complexity.hist_max h ≤ Z.of_nat (length (concat (map exterior polys))).
Proof.
  intros Hlen Hh. unfold Complexity.histArr in Hh. rewrite HistFacts.histArr_flat in Hh.
  destruct (CountFacts.count_coords_total (concat (map exterior polys)) Complexity.zeros h
              HistFacts.zeros_shaped CountFacts.zeros_counts) as (Hsh & Hc & Ht);
    [rewrite CountFacts.zeros_total; lia|done|].
  rewrite CountFacts.zeros_total, Z.add_0_l in Ht.
  split; [done|]. split; [done|]. rewrite <- Ht. by apply CountFacts.hist_max_bounds.
Qed.


(** ** complexity.py: the upscaled image *)

Module ImageFacts.
Import Complexity HistFacts.

(** A loop over [range(lo, hi)] whose passes keep an invariant runs to
    its end. *)
Lemma fold_opt_range {B} (f : B → Z → option B) (I : Z → B → Prop) lo hi b :
  lo ≤ hi → I lo b →
  (∀ k b, lo ≤ k < hi → I k b → ∃ b', f b k = Some b' ∧ I (k + 1) b') →
  ∃ b', fold_opt f (range lo hi) b = Some b' ∧ I hi b'.
Proof.
  intros Hle H0 Hstep. unfold range.
  assert (∃ n : nat, hi = lo + Z.of_nat n) as [n ->] by (exists (Z.to_nat (hi - lo)); lia).
  replace (lo + Z.of_nat n - lo) with (Z.of_nat n) by lia. clear Hle.
  revert lo b H0 Hstep. induction n as [|n IH]; intros lo b H0 Hstep.
  - exists b. split; [done|]. by rewrite Z.add_0_r.
  - rewrite seqZ_cons by lia. cbn [fold_opt].
    destruct (Hstep lo b) as (b1 & -> & H1); [lia|done|]. cbn.
    replace (Z.pred (Z.of_nat (S n))) with (Z.of_nat n) by lia.
    destruct (IH (Z.succ lo) b1) as (b' & Hb' & HI).
    + by replace (Z.succ lo) with (lo + 1) by lia.
    + intros k b2 Hk. apply Hstep. lia.
    + exists b'. split; [done|]. by replace (lo + Z.of_nat (S n)) with (Z.succ lo + Z.of_nat n) by lia.
Qed.

Section image.
Variable turbo : list rgb.
Variable h : list (list Z).

(** What every pixel of the block of a cell is set to (lines 196-205). *)
Definition cell_colour (iLat0 iLon0 : Z) : option rgb :=
  v ← get2 h iLat0 iLon0;
  if 0 <? v then color ← colour_index v; get1 turbo color else Some (255, 255, 255).

Lemma paint_eq iLat0 iLon0 img iLat iLon :
  paint turbo h iLat0 iLon0 img iLat iLon
  = entry ← cell_colour iLat0 iLon0; set2 img iLat iLon entry.
Proof.
  unfold paint, cell_colour. destruct (get2 h iLat0 iLon0) as [v|]; [|done]. cbn.
  destruct (0 <? v); [|done]. destruct (colour_index v) as [k|]; [|done]. done.
Qed.

(** The pixels in [P] hold the colour of their cell. *)
Definition painted (P : Z → Z → Prop) (img : list (list rgb)) : Prop :=
  shaped 1800 3600 img
  ∧ ∀ i j, 0 ≤ i < 1800 → 0 ≤ j < 3600 → P i j →
      get2 img i j = cell_colour (i `div` 100) (j `div` 100).

Lemma painted_weaken (P Q : Z → Z → Prop) img :
  (∀ i j, 0 ≤ i < 1800 → 0 ≤ j < 3600 → Q i j → P i j) → painted P img → painted Q img.
Proof. intros HQP [Hsh HP]. split; [done|]. intros i j Hi Hj HQ. apply HP; auto. Qed.

Hypothesis cells :
  ∀ iLat0 iLon0, 0 ≤ iLat0 < 18 → 0 ≤ iLon0 < 36 → is_Some (cell_colour iLat0 iLon0).

Lemma block_div i i0 : i0 * 100 ≤ i < (i0 + 1) * 100 → i `div` 100 = i0.
Proof. intros Hi. symmetry. apply (Z.div_unique i 100 i0 (i - 100 * i0)); lia. Qed.

Lemma paint_painted P img iLat0 iLon0 iLat iLon :
  painted P img → 0 ≤ iLat0 < 18 → 0 ≤ iLon0 < 36 →
  iLat0 * 100 ≤ iLat < (iLat0 + 1) * 100 → iLon0 * 100 ≤ iLon < (iLon0 + 1) * 100 →
  ∃ img', paint turbo h iLat0 iLon0 img iLat iLon = Some img'
          ∧ painted (λ i j, P i j ∨ (i = iLat ∧ j = iLon)) img'.
Proof.
  intros [Hsh HP] HiLat0 HiLon0 HiLat HiLon. rewrite paint_eq.
  destruct (cells iLat0 iLon0 HiLat0 HiLon0) as [entry Hentry]. rewrite Hentry. cbn.
  destruct (set2_shaped 1800 3600 img iLat iLon entry Hsh) as (img' & Hset & Hsh' & Hget);
    [lia..|].
  exists img'. split; [done|]. split; [done|]. intros i j Hi Hj HPij.
  rewrite Hget by done. destruct (decide (i = iLat ∧ j = iLon)) as [[-> ->]|Hne].
  - by rewrite (block_div iLat iLat0), (block_div iLon iLon0).
  - apply HP; [done..|]. destruct HPij as [?|?]; [done|]. by destruct Hne.
Qed.

(** The pixels painted before the pass for [iLon0] starts, before the
    pass for [iLat0] within it, before the column [iLon] within that, and
    before the pixel [iLat] of that column. *)
Definition before_lon (iLon0 : Z) (i j : Z) : Prop := j < iLon0 * 100.
Definition before_lat (iLon0 iLat0 : Z) (i j : Z) : Prop :=
  before_lon iLon0 i j ∨ (iLon0 * 100 ≤ j < (iLon0 + 1) * 100 ∧ i < iLat0 * 100).
Definition before_col (iLon0 iLat0 iLon : Z) (i j : Z) : Prop :=
  before_lat iLon0 iLat0 i j
  ∨ (iLat0 * 100 ≤ i < (iLat0 + 1) * 100 ∧ iLon0 * 100 ≤ j < iLon).
Definition before_px (iLon0 iLat0 iLon iLat : Z) (i j : Z) : Prop :=
  before_col iLon0 iLat0 iLon i j ∨ (j = iLon ∧ iLat0 * 100 ≤ i < iLat).

Lemma column_painted iLon0 iLat0 iLon img :
  0 ≤ iLat0 < 18 → 0 ≤ iLon0 < 36 → iLon0 * 100 ≤ iLon < (iLon0 + 1) * 100 →
  painted (before_col iLon0 iLat0 iLon) img →
  ∃ img', fold_opt (λ img iLat, paint turbo h iLat0 iLon0 img iLat iLon)
            (range (iLat0 * scale) ((iLat0 + 1) * scale)) img = Some img'
          ∧ painted (before_col iLon0 iLat0 (iLon + 1)) img'.
Proof.
  intros HiLat0 HiLon0 HiLon Himg. unfold scale.
  destruct (fold_opt_range (λ img iLat, paint turbo h iLat0 iLon0 img iLat iLon)
              (λ k, painted (before_px iLon0 iLat0 iLon k))
              (iLat0 * 100) ((iLat0 + 1) * 100) img) as (img' & Hrun & Hdone); [lia| | |].
  - eapply painted_weaken; [|exact Himg]. unfold before_px. intros i j _ _ [?|?]; [done|lia].
  - intros k img1 Hk Himg1.
    destruct (paint_painted _ img1 iLat0 iLon0 k iLon Himg1) as (img2 & -> & Himg2);
      [done..|].
    exists img2. split; [done|]. eapply painted_weaken; [|exact Himg2].
    unfold before_px. intros i j _ _ [?|[-> Hi]]; [by left; left|].
    destruct (decide (i = k)) as [->|?]; [by right|]. left. right. lia.
  - exists img'. split; [done|]. eapply painted_weaken; [|exact Hdone].
    unfold before_px, before_col. intros i j _ _ [?|[Hi Hj]]; [by left; left|].
    destruct (decide (j = iLon)) as [->|?]; [right; lia|]. left. right. lia.
Qed.

Lemma block_painted iLon0 iLat0 img :
  0 ≤ iLat0 < 18 → 0 ≤ iLon0 < 36 →
  painted (before_lat iLon0 iLat0) img →
  ∃ img', fold_opt (λ img iLon,
              fold_opt (λ img iLat, paint turbo h iLat0 iLon0 img iLat iLon)
                (range (iLat0 * scale) ((iLat0 + 1) * scale)) img)
            (range (iLon0 * scale) ((iLon0 + 1) * scale)) img = Some img'
          ∧ painted (before_lat iLon0 (iLat0 + 1)) img'.
Proof.
  intros HiLat0 HiLon0 Himg.
  destruct (fold_opt_range (λ img iLon,
                fold_opt (λ img iLat, paint turbo h iLat0 iLon0 img iLat iLon)
                  (range (iLat0 * scale) ((iLat0 + 1) * scale)) img)
              (λ k, painted (before_col iLon0 iLat0 k))
              (iLon0 * scale) ((iLon0 + 1) * scale) img) as (img' & Hrun & Hdone);
    [unfold scale; lia| | |].
  - eapply painted_weaken; [|exact Himg]. unfold before_col, scale.
    intros i j _ _ [?|?]; [done|lia].
  - intros k img1 Hk Himg1. apply column_painted; [done..|exact Hk|done].
  - exists img'. split; [done|]. eapply painted_weaken; [|exact Hdone].
    unfold before_col, before_lat, before_lon, scale.
    intros i j _ _ [?|[Hj Hi]]; [by left; left|].
    destruct (decide (i < iLat0 * 100)); [left; right; lia|right; lia].
Qed.

Lemma strip_painted iLon0 img :
  0 ≤ iLon0 < 36 →
  painted (before_lon iLon0) img →
  ∃ img', fold_opt (λ img iLat0,
              fold_opt (λ img iLon,
                fold_opt (λ img iLat, paint turbo h iLat0 iLon0 img iLat iLon)
                  (range (iLat0 * scale) ((iLat0 + 1) * scale)) img)
                (range (iLon0 * scale) ((iLon0 + 1) * scale)) img)
            (range 0 nLat) img = Some img'
          ∧ painted (before_lon (iLon0 + 1)) img'.
Proof.
  intros HiLon0 Himg.
  destruct (fold_opt_range (λ img iLat0,
                fold_opt (λ img iLon,
                  fold_opt (λ img iLat, paint turbo h iLat0 iLon0 img iLat iLon)
                    (range (iLat0 * scale) ((iLat0 + 1) * scale)) img)
                  (range (iLon0 * scale) ((iLon0 + 1) * scale)) img)
              (λ k, painted (before_lat iLon0 k))
              0 nLat img) as (img' & Hrun & Hdone); [done| | |].
  - eapply painted_weaken; [|exact Himg]. unfold before_lat.
    intros i j Hi _ [?|?]; [done|lia].
  - intros k img1 Hk Himg1. apply block_painted; [exact Hk|done..].
  - exists img'. split; [done|]. eapply painted_weaken; [|exact Hdone].
    unfold before_lat, before_lon, nLat. intros i j Hi _ Hj.
    destruct (decide (j < iLon0 * 100)); [by left|right; lia].
Qed.

Lemma zeros_img_shaped : shaped 1800 3600 zeros_img.
Proof.
  split; [done|]. unfold zeros_img. apply Forall_replicate. done.
Qed.

Lemma image_painted :
  ∃ img, histImgArr turbo h = Some img ∧ painted (λ _ _, True) img.
Proof.
  unfold histImgArr.
  destruct (fold_opt_range (λ img iLon0,
                fold_opt (λ img iLat0,
                  fold_opt (λ img iLon,
                    fold_opt (λ img iLat, paint turbo h iLat0 iLon0 img iLat iLon)
                      (range (iLat0 * scale) ((iLat0 + 1) * scale)) img)
                    (range (iLon0 * scale) ((iLon0 + 1) * scale)) img)
                  (range 0 nLat) img)
              (λ k, painted (before_lon k))
              0 nLon zeros_img) as (img' & Hrun & Hdone); [done| | |].
  - split; [apply zeros_img_shaped|]. unfold before_lon. intros i j _ Hj ?. lia.
  - intros k img1 Hk Himg1. apply strip_painted; [exact Hk|done].
  - exists img'. split; [exact Hrun|]. eapply painted_weaken; [|exact Hdone].
    unfold before_lon, nLon. intros i j _ Hj _. lia.
Qed.

End image.

(** In an array of counts, every cell has a colour when the table has
    256 of them. *)
Lemma cell_colour_defined turbo h iLat0 iLon0 :
  shaped nLat nLon h → length turbo = 256%nat →
  0 ≤ iLat0 < 18 → 0 ≤ iLon0 < 36 →
  is_Some (cell_colour turbo h iLat0 iLon0).
Proof.
  intros Hsh Hlen HiLat0 HiLon0. unfold cell_colour.
  destruct (get2_shaped _ _ h iLat0 iLon0 Hsh) as (row & v & _ & _ & ->); [done..|].
  cbn. destruct (0 <? v) eqn:Hv; [|done].
  destruct (FloatFacts.colour_index_bounds v) as (k & -> & Hk); [lia|].
  cbn. unfold get1. rewrite py_index_in_range by lia. cbn.
  apply lookup_lt_is_Some. lia.
Qed.

End ImageFacts.

(** X9: the image is the histogram, cell by cell. For an 18 by 36 array
    of counts and a table of 256 colours the four nested loops run to the
    end, and in the 1800 by 3600 image every pixel of the 100 by 100 block
    of a cell has one colour: white where the cell is zero, and otherwise
    the table's entry at the colour index of the cell's count. No pixel
    keeps the black the image starts with unless the table holds it. *)
Theorem image_shows_every_cell (turbo : list Complexity.rgb) (h : list (list Z)) :
  HistFacts.shaped Complexity.nLat Complexity.nLon h →
  Forall (Forall (λ v, 0 ≤ v < 2 ^ 64)) h →
  length turbo = 256%nat →
  ∃ img, Complexity.histImgArr turbo h = Some img
    ∧ HistFacts.shaped (Complexity.nLat * Complexity.scale)
        (Complexity.nLon * Complexity.scale) img
    ∧ ∀ iLat iLon,
        0 ≤ iLat < Complexity.nLat * Complexity.scale →
        0 ≤ iLon < Complexity.nLon * Complexity.scale →
        ∃ v px,
          get2 h (iLat `div` Complexity.scale) (iLon `div` Complexity.scale) = Some v
          ∧ get2 img iLat iLon = Some px
          ∧ if decide (v = 0) then px = (255, 255, 255)
            else ∃ k, Complexity.colour_index v = Some k ∧ 0 ≤ k ≤ 255
                      ∧ get1 turbo k = Some px.
Proof.
  intros Hsh Hcells Hlen.
  destruct (ImageFacts.image_painted turbo h) as (img & Himg & Hshi & Hpx).
  { intros iLat0 iLon0. by apply ImageFacts.cell_colour_defined. }
  exists img. split; [done|]. split; [done|].
  unfold Complexity.nLat, Complexity.nLon, Complexity.scale.
  intros iLat iLon HiLat HiLon.
  assert (0 ≤ iLat `div` 100 < 18) as Hr.
  { split; [apply Z.div_pos; lia|apply Z.div_lt_upper_bound; lia]. }
  assert (0 ≤ iLon `div` 100 < 36) as Hc.
  { split; [apply Z.div_pos; lia|apply Z.div_lt_upper_bound; lia]. }
  destruct (HistFacts.get2_shaped _ _ h _ _ Hsh Hr Hc) as (row & v & Hrow & Hv & Hget).
  assert (0 ≤ v) as Hv0.
  { rewrite Forall_forall in Hcells.
    specialize (Hcells row ltac:(by eapply list_elem_of_lookup_2)).
    rewrite Forall_forall in Hcells.
    by destruct (Hcells v ltac:(by eapply list_elem_of_lookup_2)). }
  specialize (Hpx iLat iLon ltac:(lia) ltac:(lia) I).
  unfold ImageFacts.cell_colour in Hpx. rewrite Hget in Hpx. cbn in Hpx.
  exists v. destruct (decide (v = 0)) as [->|Hne].
  - exists (255, 255, 255). done.
  - rewrite (proj2 (Z.ltb_lt 0 v)) in Hpx by lia.
    destruct (FloatFacts.colour_index_bounds v) as (k & Hk & Hkb); [lia|].
    rewrite Hk in Hpx. cbn in Hpx.
    destruct (get1 turbo k) as [px|] eqn:Hentry.
    + exists px. split; [done|]. split; [done|]. exists k. done.
    + destruct (HistFacts.get2_shaped _ _ img iLat iLon Hshi) as (? & ? & _ & _ & Hsome);
        [lia..|]. congruence.
Qed.

(** ** Scripts and the files they leave alone *)

Section changes.
Context {data : Type}.

(** [changes_only S m]: [m] leaves every path outside [S] as it is,
    whether it returns or raises. *)
Definition changes_only {A} (S : string → Prop) (m : script data A) : Prop :=
  ∀ w p, ¬ S p → files (m w).2 !! p = files w !! p.


Lemma changes_only_raise {A} S : changes_only S (@Script.raise data A).
Proof. by intros w p _. Qed.










End changes.

(** ** complexity.py: the survey *)

Module SurveyFacts.
Import Complexity.


Section survey.
Context {data : Type}.
Variable python_version : string.
Variable turbo : list rgb.
Variable polys_of : data → list polygon.
Variable png_of : list (list rgb) → list (list (float * float)) → data.
Variable optimise : data → data.
Variable unreadable : data.



End survey.
End SurveyFacts.

Section complexity_properties.
Context {data : Type}.
Variable python_version : string.
Variable turbo : list Complexity.rgb.
Variable polys_of : data → list polygon.
Variable png_of : list (list Complexity.rgb) → list (list (float * float)) → data.
Variable optimise : data → data.
Variable unreadable : data.

(** The lines drawn on the image of a land (lines 216-228). *)
Definition outlines (d : data) : list (list (float * float)) :=
  map (λ p, map Complexity.ring_px (exterior p)) (polys_of d).

(** X10: what the survey of one combination leaves behind. When the land
    of the combination is a file whose Polygons have only finite
    coordinates and the colour table has 256 entries, the pass returns normally: it reads the land once, prints the
    greatest cell of its histogram, and the combination's image is the
    optimised PNG of the histogram's image with the outlines drawn on it.
    Nothing else is written and no other path changes. *)
Theorem survey_saves_the_image (a : Complexity.args) (c : Complexity.comb)
    (fs : gmap string (node data)) (d : data) :
  Fs.read fs (Complexity.fname c) = Some d →
  Forall locatable (concat (map exterior (polys_of d))) →
  length turbo = 256%nat →
  ∃ h img,
    Complexity.histArr (polys_of d) = Some h
    ∧ Complexity.histImgArr turbo h = Some img
    ∧ run (Complexity.survey_step turbo polys_of png_of optimise unreadable a c) fs
      = (Some (),
         World (<[Complexity.png_name c := File (optimise (png_of img (outlines d)))]> fs)
           [ EvPrint ("Surveying " +:+ quoted (Complexity.fname c) +:+ " ...");
             EvRead (Complexity.fname c);
             EvPrint (" > Maximum value = "
                      +:+ Py.format_comma_d 0 (Complexity.hist_max h) +:+ ".");
             EvPrint ("Saving " +:+ quoted (Complexity.png_name c) +:+ " ...");
             EvWrite (Complexity.png_name c);
             EvOptimise (Complexity.png_name c) ]).
Proof.
  intros Hd Hloc Hturbo.
  destruct (HistFacts.count_coords_spec (concat (map exterior (polys_of d)))
              Complexity.zeros HistFacts.zeros_shaped) as (h & Hh & Hsh & _).
  { eapply Forall_impl; [exact Hloc|]. intros x Hx.
    destruct (Complexity.pixel x) eqn:Hpx; [by eexists|].
    by apply CountFacts.pixel_None in Hpx. }
  rewrite <- HistFacts.histArr_flat in Hh. fold (Complexity.histArr (polys_of d)) in Hh.
  exists h.
  assert (∃ img, Complexity.histImgArr turbo h = Some img) as [img Himg].
  { destruct (ImageFacts.image_painted turbo h) as (img & Himg & _); [|by exists img].
    intros iLat0 iLon0. by apply ImageFacts.cell_colour_defined. }
  exists img. split; [done|]. split; [done|].
  assert (Fs.exists_ fs (Complexity.fname c) = true) as Hex.
  { unfold Fs.exists_. apply bool_decide_eq_true. unfold Fs.read in Hd.
    destruct (fs !! Complexity.fname c); [by eexists|done]. }
  unfold run, Complexity.survey_step, mbind, script_bind, Script.bind, Script.exists_,
    Script.emit, Script.read, Script.write, Script.optimise, Script.lift_option,
    Script.ret, outlines.
  cbn [files trace fst snd]. rewrite Hex. cbn [negb app files trace]. rewrite Hd.
  cbn [default from_option id].
  rewrite Hh. cbn [files trace]. rewrite Himg. cbn [files trace app].
  f_equal. f_equal. apply map_eq. intros p.
  destruct (decide (p = Complexity.png_name c)) as [->|Hne].
  - by rewrite lookup_alter_eq, !lookup_insert_eq.
  - by rewrite lookup_alter_ne, !lookup_insert_ne.
Qed.


End complexity_properties.

(** ** saveAllLands: names and files *)

Module LandFacts.
Import SaveAllLands.

Lemma length_text (l : list ascii) : String.length (Str.text l) = length l.
Proof. induction l as [|c l IH]; [done|]. cbn. by rewrite <- IH. Qed.

Lemma chars_text (l : list ascii) : Str.chars (Str.text l) = l.
Proof. apply String.list_ascii_of_string_of_list_ascii. Qed.

(** [removesuffix] takes a suffix off that was put on. *)
Lemma removesuffix_app (suffix base : string) :
  suffix ≠ "" → Str.removesuffix suffix (base +:+ suffix) = base.
Proof.
  intros Hne. unfold Str.removesuffix. rewrite chars_app, length_app.
  replace (length (Str.chars base) + length (Str.chars suffix) - length (Str.chars suffix))%nat
    with (length (Str.chars base)) by lia.
  rewrite drop_app_length, take_app_length, text_chars.
  rewrite bool_decide_eq_true_2; [done|]. split_and!; [|lia|done].
  intros Hnil. apply Hne. by rewrite <- (text_chars suffix), Hnil.
Qed.

(** It leaves a text alone that does not end with the suffix. *)
Lemma removesuffix_other (suffix s : string) :
  (∀ base, s ≠ base +:+ suffix) → Str.removesuffix suffix s = s.
Proof.
  intros Hno. unfold Str.removesuffix.
  set (n := (length (Str.chars s) - length (Str.chars suffix))%nat).
  case_bool_decide as Hend; [|done]. destruct Hend as (_ & _ & Hdrop).
  destruct (Hno (Str.text (take n (Str.chars s)))).
  rewrite <- (text_chars s) at 1. rewrite <- (text_chars (_ +:+ suffix)). f_equal.
  by rewrite chars_app, chars_text, <- Hdrop, take_drop.
Qed.

(** It never makes a text longer, and shorter only by the suffix. *)
Lemma length_removesuffix (suffix s : string) :
  String.length (Str.removesuffix suffix s) = String.length s
  ∨ (String.length suffix ≠ 0%nat
     ∧ String.length (Str.removesuffix suffix s) + String.length suffix
       = String.length s)%nat.
Proof.
  unfold Str.removesuffix. case_bool_decide as Hend; [|by left].
  destruct Hend as (Hne & Hle & _). right.
  rewrite length_text, length_take, <- !NameFacts.length_chars.
  split; [|lia]. by destruct (Str.chars suffix).
Qed.

Section land.
Context {data geom : Type}.
Variable sfile : string → string.
Variable records : string → list (record geom).
Variable centroid_x centroid_y area : geom → float.
Variable disjoint : geom → geom → bool.
Variable intersection : geom → geom → geom.
Variable unary_union : list geom → geom.
Variable simplify : geom → float → geom.
Variable extract_polys : geom → bool → bool → list geom.
Variable buffer : geom → params geom → geom.
Variable removeInteriorRings : geom → geom.
Variable wkb_gz : geom → data.
Variable of_wkb_gz : data → geom.
Variable geojson : geom → data.
Variable unreadable : data.

Abbreviation tmpName := (tmpName centroid_x centroid_y area).
Abbreviation record_polys := (record_polys disjoint intersection extract_polys buffer).
Abbreviation record_step :=
  (record_step (data := data) centroid_x centroid_y area disjoint intersection unary_union
     simplify extract_polys buffer wkb_gz).
Abbreviation make_tmp_files :=
  (make_tmp_files (data := data) sfile records centroid_x centroid_y area disjoint
     intersection unary_union simplify extract_polys buffer wkb_gz).

(** The Polygons of a record that are within reach, clipped to it
    (lines 146-154). *)
Definition clipped (p : params geom) (polys : list geom) : list geom :=
  match (if local p then maxPlane p else None) with
  | Some reach => map (intersection reach) (filter (λ poly, disjoint reach poly = false) polys)
  | None => polys
  end.

Lemma add_polys_eq p polys acc :
  foldl (add_poly disjoint intersection extract_polys buffer p) acc polys
  = acc ++ concat (map (λ poly, extract_polys (buffered buffer p poly) false false)
                     (clipped p polys)).
Proof.
  unfold clipped. revert acc. induction polys as [|poly polys IH]; intros acc.
  - cbn. destruct (if local p then maxPlane p else None); cbn; by rewrite app_nil_r.
  - cbn [foldl]. rewrite IH. unfold add_poly.
    destruct (if local p then maxPlane p else None) as [reach|].
    + rewrite filter_cons. destruct (disjoint reach poly) eqn:Hd.
      * by rewrite decide_False.
      * rewrite decide_True by done. cbn [map concat]. by rewrite <- app_assoc.
    + cbn [map concat]. by rewrite <- app_assoc.
Qed.








End land.
End LandFacts.

Section land_properties.
Context {data geom : Type}.
Variable sfile : string → string.
Variable records : string → list (SaveAllLands.record geom).
Variable centroid_x centroid_y area : geom → float.
Variable disjoint : geom → geom → bool.
Variable intersection : geom → geom → geom.
Variable unary_union : list geom → geom.
Variable simplify : geom → float → geom.
Variable extract_polys : geom → bool → bool → list geom.
Variable buffer : geom → SaveAllLands.params geom → geom.
Variable removeInteriorRings : geom → geom.
Variable wkb_gz : geom → data.
Variable of_wkb_gz : data → geom.
Variable geojson : geom → data.
Variable unreadable : data.

Abbreviation the_tmpName := (SaveAllLands.tmpName centroid_x centroid_y area).
Abbreviation the_record_polys :=
  (SaveAllLands.record_polys disjoint intersection extract_polys buffer).
Abbreviation the_record_step :=
  (SaveAllLands.record_step (data := data) centroid_x centroid_y area disjoint intersection
     unary_union simplify extract_polys buffer wkb_gz).
Abbreviation the_make_tmp_files :=
  (SaveAllLands.make_tmp_files (data := data) sfile records centroid_x centroid_y area
     disjoint intersection unary_union simplify extract_polys buffer wkb_gz).
Abbreviation the_saveAllLands :=
  (SaveAllLands.saveAllLands (data := data) sfile records centroid_x centroid_y area disjoint
     intersection unary_union simplify extract_polys buffer removeInteriorRings wkb_gz
     of_wkb_gz geojson unreadable).

(** What [saveAllLands] comes to: the pass over the records, the loading
    of what the pattern finds, and the saving of the land unless there is
    none. *)
Lemma saveAllLands_eq (p : SaveAllLands.params geom) (fs : gmap string (node data)) :
  ∃ w1 tr1,
    run (the_make_tmp_files p) fs = (Some (), w1)
    ∧ trace w1 = tr1 ∧ Forall (SaveAllLandsFacts.tmp_ok records centroid_x centroid_y area p) tr1
    ∧ fs ⊆ files w1
    ∧ let names := Fs.sorted_glob (files w1) (SaveAllLands.dname p) SaveAllLands.tmp_pattern in
      let polys := concat (map (SaveAllLandsFacts.yields extract_polys of_wkb_gz unreadable
                                  (files w1)) names) in
      let land := SaveAllLands.united unary_union simplify removeInteriorRings p polys in
      run (the_saveAllLands p) fs
      = match polys with
        | [] => (Some false,
                 World (files w1)
                   (tr1 ++ concat (map SaveAllLandsFacts.load_events names)))
        | _ => (Some true,
                World (<[SaveAllLands.gName p := File (geojson land)]>
                         (<[SaveAllLands.wName p := File (wkb_gz land)]> (files w1)))
                  ((tr1 ++ concat (map SaveAllLandsFacts.load_events names))
                   ++ [EvWrite (SaveAllLands.wName p); EvWrite (SaveAllLands.gName p)]))
        end.
Proof.
  destruct (SaveAllLandsFacts.make_tmp_files_spec sfile records centroid_x centroid_y area
              disjoint intersection unary_union simplify extract_polys buffer wkb_gz
              p (World fs [])) as (tr & w1 & Hmk & Htr & Hok & Hfs).
  exists w1, tr. split; [exact Hmk|]. split; [by rewrite Htr|]. split; [done|].
  split; [done|]. intros names polys land.
  unfold run, SaveAllLands.saveAllLands, mbind, script_bind.
  unfold Script.bind at 1. rewrite Hmk. unfold Script.bind.
  rewrite SaveAllLandsFacts.gather_eq. cbv zeta. fold names. fold polys.
  rewrite SaveAllLandsFacts.save_eq. cbn [files trace]. rewrite Htr. cbn [app].
  fold land. by destruct polys.
Qed.

(** X12: the two outputs are two files. The GeoJSON name is the WKB name
    with its ending [.wkb.gz] replaced by [.geojson], or with [.geojson]
    added when it does not end so; it is never the WKB name itself, so
    when [saveAllLands] returns [True] both files are there, and they hold
    one and the same land. *)
Theorem outputs_are_two_files (p : SaveAllLands.params geom)
    (fs : gmap string (node data)) :
  SaveAllLands.gName p ≠ SaveAllLands.wName p
  ∧ (∀ base, SaveAllLands.wName p = base +:+ ".wkb.gz" →
       SaveAllLands.gName p = base +:+ ".geojson")
  ∧ ((∀ base, SaveAllLands.wName p ≠ base +:+ ".wkb.gz") →
     SaveAllLands.gName p = SaveAllLands.wName p +:+ ".geojson")
  ∧ ((run (the_saveAllLands p) fs).1 = Some true →
     ∃ land,
       Fs.read (files (run (the_saveAllLands p) fs).2) (SaveAllLands.wName p)
       = Some (wkb_gz land)
       ∧ Fs.read (files (run (the_saveAllLands p) fs).2) (SaveAllLands.gName p)
         = Some (geojson land)).
Proof.
  assert (SaveAllLands.gName p ≠ SaveAllLands.wName p) as Hne.
  { intros Heq. apply (f_equal String.length) in Heq. unfold SaveAllLands.gName in Heq.
    rewrite NameFacts.string_length_app in Heq.
    destruct (LandFacts.length_removesuffix ".wkb.gz" (SaveAllLands.wName p)) as [E|[_ E]];
      cbn in *; lia. }
  split_and!; [done|..].
  - intros base Hw. unfold SaveAllLands.gName. rewrite Hw.
    by rewrite LandFacts.removesuffix_app.
  - intros Hno. unfold SaveAllLands.gName. by rewrite LandFacts.removesuffix_other.
  - destruct (saveAllLands_eq p fs) as (w1 & tr1 & _ & _ & _ & _ & Hrun).
    cbv zeta in Hrun. rewrite Hrun. clear Hrun.
    destruct (concat _) as [|poly polys]; [done|]. intros _. eexists.
    unfold Fs.read. cbn [snd files].
    rewrite lookup_insert_eq, lookup_insert_ne, lookup_insert_eq by done. done.
Qed.


(** X14: the land of a record, Polygon by Polygon. The loop over the
    Polygons of a record handles each on its own and keeps their order:
    with [local] and a [maxPlane], a Polygon out of reach gives nothing
    and the others are clipped to the reach; each one left is buffered if
    [dist] is positive and its Polygons are added. So a record all of
    whose Polygons are out of reach has no land. *)
Theorem land_of_a_record (p : SaveAllLands.params geom) (r : SaveAllLands.record geom) :
  the_record_polys p r
  = concat (map (λ poly, extract_polys (if (0 <? SaveAllLands.dist p)%float
                                        then buffer poly p else poly) false false)
              (match (if SaveAllLands.local p then SaveAllLands.maxPlane p else None) with
               | Some reach =>
                   map (intersection reach)
                     (filter (λ poly, disjoint reach poly = false)
                        (extract_polys (SaveAllLands.geometry r) true true))
               | None => extract_polys (SaveAllLands.geometry r) true true
               end))
  ∧ (∀ reach, SaveAllLands.local p = true → SaveAllLands.maxPlane p = Some reach →
       Forall (λ poly, disjoint reach poly = true)
         (extract_polys (SaveAllLands.geometry r) true true) →
       the_record_polys p r = []).
Proof.
  assert (the_record_polys p r
          = concat (map (λ poly, extract_polys (SaveAllLands.buffered buffer p poly) false false)
                      (LandFacts.clipped disjoint intersection p
                         (extract_polys (SaveAllLands.geometry r) true true)))) as Heq.
  { unfold SaveAllLands.record_polys. by rewrite LandFacts.add_polys_eq. }
  split; [exact Heq|].
  intros reach Hlocal Hreach Hout. rewrite Heq. unfold LandFacts.clipped.
  rewrite Hlocal, Hreach. clear Heq.
  induction Hout as [|poly polys Hpoly _ IH]; [done|].
  rewrite filter_cons, decide_False by congruence. exact IH.
Qed.


End land_properties.

(** ** saveAllLands: the names of the temporary files and the pattern *)

Module FixedFacts.






(** *** The length of a number *)






(** *** Matching *)





(** *** The shape of a zero-padded fixed-point number *)










Section shape.
Variable f : Py.fmt.
Hypothesis zero_padded : Py.zero f = true.
Hypothesis ungrouped : Py.comma f = false.
Hypothesis decimals : (0 < Py.precision f)%nat.




Hypothesis roomy : (Py.precision f + 3 ≤ Py.width f)%nat.




End shape.


End FixedFacts.

Section name_properties.
Context {geom : Type}.
Variable centroid_x centroid_y area : geom → float.


End name_properties.

(** ** ripples_flight.py: the distances that get a frame *)

Module PaceFacts.
Import Ripples.

(** The coarsest precision is 116 km: a distance that is due for it is a
    multiple of 116. *)
Lemma due_multiple dist : (1000 * dist) `mod` 116000 = 0 → dist `mod` 116 = 0.
Proof.
  intros H. replace 116000 with (1000 * 116) in H by done.
  rewrite Z.mul_mod_distr_l in H by lia. lia.
Qed.

(** A strictly increasing list of integers of an interval is no longer
    than the interval. *)
Lemma sorted_length (l : list Z) lo hi :
  StronglySorted Z.lt l → Forall (λ x, lo ≤ x ≤ hi) l →
  Z.of_nat (length l) ≤ Z.max 0 (hi - lo + 1).
Proof.
  intros Hs. revert lo. induction Hs as [|x l _ IH Hx]; intros lo Hb; [cbn; lia|].
  apply Forall_cons in Hb as [Hxb Hb].
  specialize (IH (x + 1)). cbn [length]. 
  assert (Forall (λ y, x + 1 ≤ y ≤ hi) l) as Hb'.
  { rewrite Forall_forall in Hx, Hb. apply Forall_forall. intros y Hy.
    specialize (Hx y Hy). specialize (Hb y Hy). lia. }
  specialize (IH Hb'). lia.
Qed.

(** Increasing multiples of 116 up to 30000 are 116 times increasing
    numbers up to 258. *)
Lemma quotients (ds : list Z) :
  StronglySorted Z.lt ds → Forall (λ d, 1 ≤ d ≤ 30000 ∧ d `mod` 116 = 0) ds →
  ∃ ks, ds = map (λ k, 116 * k) ks ∧ StronglySorted Z.lt ks
        ∧ Forall (λ k, 1 ≤ k ≤ 258) ks.
Proof.
  induction 1 as [|d ds _ IH Hd]; intros Hall.
  - exists []. by repeat constructor.
  - apply Forall_cons in Hall as [[Hb Hm] Hall].
    destruct (IH Hall) as (ks & -> & Hs & Hk).
    pose proof (Z.div_mod d 116 ltac:(lia)) as Hdiv.
    exists (d `div` 116 :: ks). split_and!.
    + cbn [map]. f_equal. lia.
    + constructor; [done|]. apply Forall_forall. intros k Hk'.
      rewrite Forall_forall in Hd.
      assert (116 * k ∈ map (λ k, 116 * k) ks) as Hin.
      { apply list_elem_of_fmap. by exists k. }
      specialize (Hd (116 * k) Hin). lia.
    + constructor; [lia|done].
Qed.

Section pace.
Context {data : Type}.
Variable MAXIMUM_VINCENTY : float.
Variable savefig : figure data → data.
Variable optimise : data → data.
Variable unreadable : data.

Lemma available_multiple (fs : gmap string (node data)) dist :
  forallb (RipplesFacts.available fs dist) combs = true → dist `mod` 116 = 0.
Proof.
  intros H. cbn [forallb combs] in H. apply andb_true_iff in H as [H _].
  unfold RipplesFacts.available in H. apply andb_true_iff in H as [H _].
  cbn [fst snd] in H. apply Z.eqb_eq in H. by apply due_multiple.
Qed.

Lemma render_writes frame fnames last_name :
  writes (RipplesFacts.render_events frame fnames last_name) = [frame].
Proof.
  unfold RipplesFacts.render_events. rewrite !SaveAllLandsFacts.writes_app.
  assert (∀ l, writes (concat (map RipplesFacts.load_events l)) = []) as ->.
  { induction l as [|cf l IH]; [done|]. exact IH. }
  done.
Qed.

(** A pass writes its frame or nothing, and a frame only at a multiple
    of 116 km that has none yet. *)
Lemma frame_step_writes a frames dist (w : world data) :
  ∃ (b : bool) out w',
    frame_step MAXIMUM_VINCENTY savefig optimise unreadable a frames dist w = (Some out, w')
    ∧ writes (trace w') = writes (trace w) ++ (if b then [frame_name dist] else [])
    ∧ (b = true → dist `mod` 116 = 0).
Proof.
  rewrite RipplesFacts.frame_step_cases.
  destruct (Fs.exists_ (files w) (frame_name dist)).
  { eexists false, _, _. split_and!; [done|by rewrite app_nil_r|done]. }
  destruct (forallb _ combs) eqn:Hdue.
  - rewrite (RipplesFacts.render_eq _ _ _ _ a dist _ _
               (fname (33, "10m", 116000 / 4, (0.0, 0.0, 1.0, 1.0)%float) dist)) by done.
    eexists true, _, _. split_and!; [done| |].
    + cbn [snd trace]. by rewrite SaveAllLandsFacts.writes_app, render_writes.
    + intros _. by eapply available_multiple.
  - eexists false, _, _. split_and!; [done|by rewrite app_nil_r|done].
Qed.

Lemma frames_loop_writes a l frames (w : world data) :
  ∃ ds out w',
    fold_script (frame_step MAXIMUM_VINCENTY savefig optimise unreadable a) l frames w
    = (Some out, w')
    ∧ writes (trace w') = writes (trace w) ++ map frame_name ds
    ∧ ds `sublist_of` l ∧ Forall (λ d, d `mod` 116 = 0) ds.
Proof.
  revert frames w. induction l as [|dist l IH]; intros frames w.
  - exists [], frames, w. rewrite app_nil_r. by split_and!.
  - cbn [fold_script]. unfold mbind, script_bind, Script.bind.
    destruct (frame_step_writes a frames dist w) as (b & out & w1 & -> & Hw1 & Hb).
    destruct (IH out w1) as (ds & out' & w' & -> & Hw' & Hsub & Hall).
    exists ((if b then [dist] else []) ++ ds), out', w'. split_and!.
    + done.
    + rewrite Hw', Hw1, <- app_assoc. by destruct b.
    + destruct b; cbn [app]; [by apply sublist_skip|by apply sublist_cons].
    + destruct b; cbn [app]; [|done]. constructor; [by apply Hb|done].
Qed.

(** A pass for any other distance does nothing but list a frame that is
    there. *)
Lemma frame_step_idle a frames dist (w : world data) :
  dist `mod` 116 ≠ 0 →
  frame_step MAXIMUM_VINCENTY savefig optimise unreadable a frames dist w
  = (Some (if Fs.exists_ (files w) (frame_name dist)
           then frames ++ [frame_name dist] else frames), w).
Proof.
  intros Hd. rewrite RipplesFacts.frame_step_cases.
  destruct (Fs.exists_ (files w) (frame_name dist)); [done|].
  destruct (forallb _ combs) eqn:Hdue; [|done].
  by apply available_multiple in Hdue.
Qed.

(** The report loop prints and changes no file. *)
Lemma report_loop_quiet (l : list comb) (w : world data) :
  ∃ o tr, Script.for_each l report_step w = (o, World (files w) (trace w ++ tr))
          ∧ Forall quiet tr.
Proof.
  revert w. induction l as [|c l IH]; intros w.
  - exists (Some ()), []. rewrite app_nil_r. split; [by destruct w|constructor].
  - cbn [Script.for_each]. unfold Script.bind. rewrite ReportFacts.report_step_eq.
    destruct (last _ ≫= NameFacts.step_of) as [istep|].
    + destruct (IH (World (files w) (trace w ++ [EvPrint (ReportFacts.report_message c istep)])))
        as (o & tr & -> & Hq).
      exists o, (EvPrint (ReportFacts.report_message c istep) :: tr). cbn [files trace].
      rewrite <- app_assoc. split; [done|]. by constructor.
    + exists None, []. rewrite app_nil_r. split; [by destruct w|constructor].
Qed.

End pace.
End PaceFacts.

Section pace_properties.
Context {data : Type}.
Variable python_version : string.
Variable MAXIMUM_VINCENTY : float.
Variable savefig : Ripples.figure data → data.
Variable optimise : data → data.
Variable video_name : list string → option Z → string.
Variable video : list (option data) → option Z → data.
Variable unreadable : data.

(** X17: frames come every 116 km. The three precisions are 116, 58 and
    29 km, so a frame can be rendered only at a multiple of 116 km: the
    frames a run of ripples_flight.py writes are those of [116 * k] km for
    an increasing selection of [k] from 1 to 258, at most 258 of the 30000
    distances, and the pass of any other distance reads and writes
    nothing, whatever is on the disk. *)
Theorem frames_come_every_116_km (a : Ripples.args) (fs : gmap string (node data)) :
  (∃ ks, writes (trace (run (Ripples.main python_version MAXIMUM_VINCENTY savefig optimise
                              video_name video unreadable a) fs).2)
         = map (λ k, Ripples.frame_name (116 * k)) ks
         ∧ StronglySorted Z.lt ks
         ∧ Forall (λ k, 1 ≤ k ≤ 258) ks
         ∧ (length ks ≤ 258)%nat)
  ∧ (∀ frames dist (w : world data), dist `mod` 116 ≠ 0 →
       Ripples.frame_step MAXIMUM_VINCENTY savefig optimise unreadable a frames dist w
       = (Some (if Fs.exists_ (files w) (Ripples.frame_name dist)
                then frames ++ [Ripples.frame_name dist] else frames), w)).
Proof.
  split; [|intros frames dist w; apply PaceFacts.frame_step_idle].
  assert (∃ ds, writes (trace (run (Ripples.main python_version MAXIMUM_VINCENTY savefig
                                      optimise video_name video unreadable a) fs).2)
                = map Ripples.frame_name ds
                ∧ ds `sublist_of` range 1 (30000 + 1)
                ∧ Forall (λ d, d `mod` 116 = 0) ds) as (ds & -> & Hsub & Hmult).
  { unfold run, Ripples.main, mbind, script_bind.
    unfold Script.bind at 1. rewrite StartFacts.make_dirs_eq. cbn [files trace app].
    unfold Script.bind at 1. rewrite RipplesFacts.ripples_sweep_eq. cbn [files trace].
    unfold Script.bind at 1.
    set (fs2 := StartFacts.with_dir _ _). set (tr0 := _ ++ concat _).
    assert (Forall quiet tr0) as Hq0.
    { subst tr0. apply Forall_app; split.
      - apply Forall_app; split; unfold StartFacts.mkdir_events;
          destruct (Fs.exists_ _ _); by repeat constructor.
      - apply Forall_concat, Forall_fmap, Forall_forall. intros dur _.
        apply Forall_concat, Forall_fmap, Forall_forall. intros c' _.
        unfold RipplesFacts.sweep_events. destruct (Ripples.dryRun a); by repeat constructor. }
    destruct (PaceFacts.report_loop_quiet Ripples.combs (World fs2 tr0)) as (o & tr & -> & Hq).
    cbn [files trace].
    assert (writes (tr0 ++ tr) = []) as Hquiet.
    { apply quiet_writes, Forall_app. by split. }
    destruct o as [[]|].
    - unfold Script.bind at 1.
      destruct (PaceFacts.frames_loop_writes MAXIMUM_VINCENTY savefig optimise unreadable a
                  (range 1 (30000 + 1)) [] (World fs2 (tr0 ++ tr)))
        as (ds & out & w' & -> & Hw & Hsub & Hall).
      destruct (RipplesFacts.make_videos_eq video_name video out w') as (fs' & ->).
      exists ds. split_and!; [|done..]. cbn [snd trace].
      rewrite SaveAllLandsFacts.writes_app, Hw. cbn [trace]. rewrite Hquiet.
      cbn [app]. apply app_nil_r.
    - exists []. cbn [snd trace]. rewrite Hquiet. by split_and!; [|apply sublist_nil_l|]. }
  assert (StronglySorted Z.lt ds) as Hsorted.
  { eapply sublist_StronglySorted; [done|]. apply seqZ_StronglySorted. }
  assert (Forall (λ d, 1 ≤ d ≤ 30000 ∧ d `mod` 116 = 0) ds) as Hall.
  { apply Forall_and. split; [|done]. eapply sublist_Forall; [done|].
    apply Forall_forall. intros d Hd%elem_of_seqZ. lia. }
  destruct (PaceFacts.quotients ds Hsorted Hall) as (ks & -> & Hks & Hkb).
  exists ks. split_and!; [by rewrite map_map|done|done|].
  pose proof (PaceFacts.sorted_length ks 1 258 Hks Hkb). lia.
Qed.

End pace_properties.

(** ** The properties at work *)

(** Two limit files, of steps 3 and 12: the report is that of step 12. *)
Lemma report_finds_latest_step_witness :
  let c : Ripples.comb := (9, "110m", 116000, (1.0, 0.0, 0.0, 1.0)%float) in
  let w : world Examples.data :=
    World {[ NameFacts.step_file c 3 := File [3]; NameFacts.step_file c 12 := File [12] ]} [] in
  (∀ p, is_Some (files w !! p) →
        OsPath.glob_match (Ripples.dname c) ReportFacts.pattern p = true →
        ∃ n, 0 ≤ n < 10 ^ 6 ∧ p = NameFacts.step_file c n)
  ∧ (∃ n, 0 ≤ n < 10 ^ 6 ∧ Fs.exists_ (files w) (NameFacts.step_file c n) = true)
  ∧ Ripples.report_step c w
    = (Some (), World (files w) [EvPrint (ReportFacts.report_message c 12)]).
Proof.
  intros c w.
  assert (∀ p, is_Some (files w !! p) → p = NameFacts.step_file c 3 ∨ p = NameFacts.step_file c 12)
    as Hkeys.
  { intros p [n Hp]. cbn [files w] in Hp.
    apply lookup_insert_Some in Hp as [[<- _]|[_ Hp]]; [by left|].
    apply lookup_singleton_Some in Hp as [<- _]. by right. }
  assert (Fs.exists_ (files w) (NameFacts.step_file c 12) = true) as H12.
  { apply bool_decide_eq_true. cbn [files w]. rewrite lookup_insert_ne.
    - rewrite lookup_singleton_eq. by eexists.
    - intros E%NameFacts.step_file_inj; lia. }
  assert (∀ p, is_Some (files w !! p) →
            OsPath.glob_match (Ripples.dname c) ReportFacts.pattern p = true →
            ∃ n, 0 ≤ n < 10 ^ 6 ∧ p = NameFacts.step_file c n) as Hconv.
  { intros p Hp _. destruct (Hkeys p Hp) as [->| ->]; [exists 3|exists 12]; split; (lia || done). }
  assert (∃ n, 0 ≤ n < 10 ^ 6 ∧ Fs.exists_ (files w) (NameFacts.step_file c n) = true)
    as Hsome.
  { exists 12. split; [lia|exact H12]. }
  split; [exact Hconv|]. split; [exact Hsome|].
  destruct (report_finds_latest_step c w Hconv Hsome) as (m & Hm & Hex & Hmax & Hrun).
  assert (m = 12) as ->; [|exact Hrun].
  pose proof (Hmax 12 ltac:(lia) H12) as Hle.
  apply bool_decide_eq_true in Hex.
  destruct (Hkeys _ Hex) as [E|E]; apply NameFacts.step_file_inj in E; lia.
Defined.


(** The frame of 116 km from three limits and their land. *)
Lemma frame_is_the_figure_witness :
  let fs : gmap string (node Examples.data) :=
    <[Ripples.allLands_of
        (Ripples.fname (33, "10m", 116000 / 4, (0.0, 0.0, 1.0, 1.0)%float) 116)
      := File [7]]> (Examples.limit_files 116) in
  let r := run (Ripples.frame_step 1.0e7 Examples.savefig Examples.optimise
                  Examples.unreadable Examples.ripples_args [] 116) fs in
  Fs.exists_ fs (Ripples.frame_name 116) = false
  ∧ (∀ c : Ripples.comb, c ∈ Ripples.combs →
       (1000 * 116) `mod` c.1.2 = 0 ∧ Fs.read fs (Ripples.fname c 116) = Some [116])
  ∧ Fs.read fs (Ripples.allLands_of
                  (Ripples.fname (33, "10m", 116000 / 4, (0.0, 0.0, 1.0, 1.0)%float) 116))
    = Some [7]
  ∧ r.1 = Some [Ripples.frame_name 116]
  ∧ Fs.read (files r.2) (Ripples.frame_name 116) = Some [3].
Proof.
  intros fs r.
  assert (Fs.exists_ fs (Ripples.frame_name 116) = false) as Hnew by (vm_compute; reflexivity).
  assert (∀ c : Ripples.comb, c ∈ Ripples.combs →
            (1000 * 116) `mod` c.1.2 = 0 ∧ Fs.read fs (Ripples.fname c 116) = Some [116])
    as Hlimits.
  { apply Forall_forall. repeat constructor. }
  assert (Fs.read fs (Ripples.allLands_of
                        (Ripples.fname (33, "10m", 116000 / 4, (0.0, 0.0, 1.0, 1.0)%float) 116))
          = Some [7]) as Hlands by (vm_compute; reflexivity).
  split; [exact Hnew|]. split; [exact Hlimits|]. split; [exact Hlands|].
  destruct (frame_is_the_figure 1.0e7 Examples.savefig Examples.optimise Examples.unreadable
              Examples.ripples_args [] 116 fs [7] (λ _, [116]) Hnew Hlimits Hlands)
    as (Hr & Hframe & _).
  split; [exact Hr|exact Hframe].
Defined.

(** Four coordinates, one of them on the corner of the map: the cells add
    up to four. *)
Lemma histogram_counts_every_coordinate_witness :
  let polys := [Polygon [(0.5, 0.5); (15.0, -20.0); (0.7, 0.2)]%float;
                Polygon [(-180.0, 90.0)]%float] in
  Z.of_nat (length (concat (map exterior polys))) < 2 ^ 64
  ∧ ∃ h, Complexity.histArr polys = Some h
         ∧ CountFacts.total h = 4 ∧ 0 ≤ Complexity.hist_max h ≤ 4.
Proof.
  intros polys.
  assert (Z.of_nat (length (concat (map exterior polys))) < 2 ^ 64) as Hlen by reflexivity.
  split; [exact Hlen|].
  assert (∃ h, Complexity.histArr polys = Some h) as [h Hh].
  { vm_compute. eexists. reflexivity. }
  exists h. split; [exact Hh|].
  destruct (histogram_counts_every_coordinate polys h Hlen Hh) as (_ & Ht & Hm).
  split; [exact Ht|exact Hm].
Defined.

(** A histogram with one cell of two coordinates, and a table of greys:
    the block of the cell is grey number 8, the block below it white. *)
Lemma image_shows_every_cell_witness :
  let turbo : list Complexity.rgb := map (λ k, (k, k, k)) (seqZ 0 256) in
  let h : list (list Z) := <[8%nat := <[18%nat := 2]> (replicate 36 0)]> (replicate 18 (replicate 36 0)) in
  HistFacts.shaped Complexity.nLat Complexity.nLon h
  ∧ Forall (Forall (λ v, 0 ≤ v < 2 ^ 64)) h
  ∧ length turbo = 256%nat
  ∧ ∃ img, Complexity.histImgArr turbo h = Some img
           ∧ get2 img 850 1899 = Some (8, 8, 8)
           ∧ get2 img 900 1899 = Some (255, 255, 255).
Proof.
  intros turbo h.
  assert (HistFacts.shaped Complexity.nLat Complexity.nLon h) as Hsh.
  { split; [reflexivity|]. apply Forall_forall. intros row Hrow.
    revert row Hrow. apply Forall_forall. apply (bool_decide_unpack _). vm_compute. exact I. }
  assert (Forall (Forall (λ v, 0 ≤ v < 2 ^ 64)) h) as Hcells.
  { apply (bool_decide_unpack _). vm_compute. exact I. }
  assert (length turbo = 256%nat) as Hlen by reflexivity.
  split; [exact Hsh|]. split; [exact Hcells|]. split; [exact Hlen|].
  destruct (image_shows_every_cell turbo h Hsh Hcells Hlen) as (img & Himg & _ & Hpx).
  exists img. split; [exact Himg|]. split.
  - destruct (Hpx 850 1899) as (v & px & Hv & Hget & Hcol);
      [unfold Complexity.nLat, Complexity.nLon, Complexity.scale; lia..|].
    vm_compute in Hv. injection Hv as <-.
    destruct (decide (2 = 0)) as [?|_]; [lia|].
    destruct Hcol as (k & Hk & _ & Hentry).
    vm_compute in Hk. injection Hk as <-.
    vm_compute in Hentry. rewrite Hget. exact (eq_sym Hentry).
  - destruct (Hpx 900 1899) as (v & px & Hv & Hget & Hcol);
      [unfold Complexity.nLat, Complexity.nLon, Complexity.scale; lia..|].
    vm_compute in Hv. injection Hv as <-.
    destruct (decide (0 = 0)) as [_|?]; [|lia].
    rewrite Hget. by rewrite Hcol.
Defined.

(** The survey of a land of one Polygon with two coordinates. *)
Lemma survey_saves_the_image_witness :
  let turbo : list Complexity.rgb := map (λ k, (k, k, k)) (seqZ 0 256) in
  let polys_of : Examples.data → list polygon :=
    λ d, [Polygon (map (λ z, (Py.float_of_Z z, Py.float_of_Z z)) d)] in
  let png_of : list (list Complexity.rgb) → list (list (float * float)) → Examples.data :=
    λ img lines, [Z.of_nat (length lines)] in
  let a := Complexity.Args false true 60.0 in
  let c : Complexity.comb := (9, "110m", 116000, (1.0, 0.0, 0.0, 1.0)%float) in
  let fs : gmap string (node Examples.data) := {[ Complexity.fname c := File [10; 20] ]} in
  Fs.read fs (Complexity.fname c) = Some [10; 20]
  ∧ Forall locatable (concat (map exterior (polys_of [10; 20])))
  ∧ length turbo = 256%nat
  ∧ (run (Complexity.survey_step turbo polys_of png_of Examples.optimise Examples.unreadable
            a c) fs).1 = Some ()
  ∧ Fs.read (files (run (Complexity.survey_step turbo polys_of png_of Examples.optimise
                           Examples.unreadable a c) fs).2) (Complexity.png_name c)
    = Some [1]
  ∧ writes (trace (run (Complexity.survey_step turbo polys_of png_of Examples.optimise
                          Examples.unreadable a c) fs).2) = [Complexity.png_name c].
Proof.
  intros turbo polys_of png_of a c fs.
  assert (Fs.read fs (Complexity.fname c) = Some [10; 20]) as Hd.
  { unfold Fs.read. subst fs. by rewrite lookup_singleton_eq. }
  assert (Forall locatable (concat (map exterior (polys_of [10; 20])))) as Hloc.
  { repeat constructor. }
  assert (length turbo = 256%nat) as Hlen by reflexivity.
  split; [exact Hd|]. split; [exact Hloc|]. split; [exact Hlen|].
  destruct (survey_saves_the_image turbo polys_of png_of Examples.optimise Examples.unreadable
              a c fs [10; 20] Hd Hloc Hlen) as (h & img & _ & _ & Hrun).
  rewrite Hrun. cbn [fst snd files trace]. split; [reflexivity|]. split; [|reflexivity].
  unfold Fs.read. by rewrite lookup_insert_eq.
Defined.

